(** * Variational inference engines for GPRNs: a shallow embedding

    This development embeds the [inference] classes of [gprn/npvi.py]
    (nonparametric mixture engine) and of
    [oldFiles/experimental_stuff/mfi_old.py] (mean-field engine) and
    establishes properties of their matrix builders, their stable
    Cholesky routine, their constructor and their optimisation loops.

    Conventions.
    - NumPy floats are idealised as exact rationals ([Q]); the literal
      [1e-5] is [1 # 100000].  Square roots, logarithms, matrix
      inversion, the LAPACK factorisation behind [scipy.linalg.cholesky],
      [np.einsum], the random generator and [scipy.optimize.minimize] are
      library code outside the repository: they enter as section
      variables.
    - A Python call either returns or raises: [result A].
    - What the code prints is kept as a list of [printed] events. *)

From Stdlib Require Import String.
From Stdlib Require Import List ZArith QArith Qabs Lia Lqa Bool PeanoNat.
Import ListNotations.

Set Implicit Arguments.

(** ** Python outcomes *)

Module Py.

Inductive exn : Type :=
| LinAlgError (msg : string)
| ValueError (msg : string)
| AssertionError (msg : string)
| UnboundLocalError (name : string)
| IndexError (msg : string)
| TypeError (msg : string).

Inductive result (A : Type) : Type :=
| Ok (a : A)
| Raise (e : exn).

Arguments Ok {A} a.
Arguments Raise {A} e.

Definition bind {A B : Type} (m : result A) (k : A -> result B) : result B :=
  match m with
  | Ok a => k a
  | Raise e => Raise e
  end.

(** [for x in xs: acc = body(acc, x)], stopping at the first exception. *)
Fixpoint for_each {A S : Type} (xs : list A) (body : S -> A -> result S)
         (acc : S) : result S :=
  match xs with
  | [] => Ok acc
  | x :: rest => bind (body acc x) (for_each rest body)
  end.

(** A run that is cut off while a loop is still turning has no
    result yet. *)
Inductive outcome (A : Type) : Type :=
| Finished (r : result A)
| StillLooping.

Arguments Finished {A} r.
Arguments StillLooping {A}.

(** Events written to standard output (or handed to the plotting
    library) by the engine. *)
Inductive printed : Type :=
| Msg (s : string)
| MsgRetry (n : Z) (nugget : Q)
| MsgIterations (iterNumber : Z)
| MsgConverged (sum_ELB : Q) (iterNumber : Z)
| MsgELB (sum_ELB ExpLogLike ExpLogPrior Entropy : Q)
| MsgValue (x : Q)
| MsgVector (v : list Q)
| Plot (ELB : list Q).

End Py.
Import Py.

Declare Scope py_scope.
Delimit Scope py_scope with py.
Notation "x <- m ;; k" := (Py.bind m (fun x => k))
  (at level 61, m at next level, right associativity) : py_scope.
Notation "' pat <- m ;; k" := (Py.bind m (fun x => match x with pat => k end))
  (at level 61, pat pattern, m at next level, right associativity) : py_scope.
Open Scope py_scope.

(** ** NumPy arrays *)

Module Np.

Definition vector := list Q.
Definition matrix := list (list Q).

(** Arrays of rank 0, 1 and 2; kernels and mean functions exchange
    these with the engine. *)
Inductive array : Type :=
| Scalar (x : Q)
| Vec (v : vector)
| Mat (m : matrix).

(** Arrays of higher rank: a shape and the entries in row-major order. *)
Record ndarray : Type := NdArray { shape : list nat; data : list Q }.

Definition rows (M : matrix) : nat := length M.
Definition cols (M : matrix) : nat := length (hd [] M).
Definition get (M : matrix) (i j : nat) : Q := nth j (nth i M []) 0.

(** The [r] x [c] matrix with entry [f i j] at row [i], column [j]. *)
Definition mx_tab (r c : nat) (f : nat -> nat -> Q) : matrix :=
  map (fun i => map (fun j => f i j) (seq 0 c)) (seq 0 r).

Definition size (a : array) : nat :=
  match a with
  | Scalar _ => 1
  | Vec v => length v
  | Mat m => rows m * cols m
  end.

Definition ndim (a : array) : nat :=
  match a with Scalar _ => 0 | Vec _ => 1 | Mat _ => 2 end.

(** Rank-2 view used by broadcasting: a scalar is 1 x 1, a vector of
    length n is 1 x n. *)
Definition view2 (a : array) : matrix :=
  match a with
  | Scalar x => [[x]]
  | Vec v => [v]
  | Mat m => m
  end.

Definition of_view2 (rank : nat) (M : matrix) : array :=
  match rank with
  | O => Scalar (get M 0 0)
  | S O => Vec (hd [] M)
  | _ => Mat M
  end.

(** Broadcast length of two axes: equal, or one of them is 1. *)
Definition bdim (a b : nat) : option nat :=
  if a =? b then Some a
  else if a =? 1 then Some b
  else if b =? 1 then Some a
  else None.

(** Index into an axis of length [d] that may have been stretched. *)
Definition bidx (d i : nat) : nat := if d =? 1 then 0 else i.

Definition broadcast2 (op : Q -> Q -> Q) (A B : matrix) : result matrix :=
  match bdim (rows A) (rows B), bdim (cols A) (cols B) with
  | Some r, Some c =>
      Ok (mx_tab r c (fun i j =>
            op (get A (bidx (rows A) i) (bidx (cols A) j))
               (get B (bidx (rows B) i) (bidx (cols B) j))))
  | _, _ => Raise (ValueError "operands could not be broadcast together")
  end.

Definition elementwise (op : Q -> Q -> Q) (a b : array) : result array :=
  M <- broadcast2 op (view2 a) (view2 b) ;;
  Ok (of_view2 (Nat.max (ndim a) (ndim b)) M).

Definition add : array -> array -> result array := elementwise Qplus.
Definition sub : array -> array -> result array := elementwise Qminus.

Definition scale (c : Q) (M : matrix) : matrix := map (map (Qmult c)) M.

(** [c * a] for a Python float [c]. *)
Definition times (c : Q) (a : array) : array :=
  match a with
  | Scalar x => Scalar (c * x)
  | Vec v => Vec (map (Qmult c) v)
  | Mat m => Mat (scale c m)
  end.

Definition sum (v : vector) : Q := fold_right Qplus 0 v.
Definition mean (v : vector) : Q := sum v / inject_Z (Z.of_nat (length v)).

(** [np.var]: the population variance. *)
Definition var (v : vector) : Q :=
  mean (map (fun x => (x - mean v) * (x - mean v)) v).

(** [np.diag] of a matrix: its main diagonal. *)
Definition diag (M : matrix) : vector :=
  map (fun i => get M i i) (seq 0 (Nat.min (rows M) (cols M))).

(** [np.diag] of a vector: the diagonal matrix carrying it. *)
Definition diagflat (v : vector) : matrix :=
  mx_tab (length v) (length v) (fun i j => if i =? j then nth i v 0 else 0).

Definition identity (n : nat) : matrix :=
  mx_tab n n (fun i j => if i =? j then 1 else 0).

Definition zeros (r c : nat) : matrix := mx_tab r c (fun _ _ => 0).

Definition ones_like (a : array) : array :=
  match a with
  | Scalar _ => Scalar 1
  | Vec v => Vec (map (fun _ => 1) v)
  | Mat m => Mat (map (map (fun _ => 1)) m)
  end.

(** [np.diag], which extracts from rank 2 and builds from rank 1. *)
Definition np_diag (a : array) : result array :=
  match a with
  | Scalar _ => Raise (ValueError "Input must be 1- or 2-d.")
  | Vec v => Ok (Mat (diagflat v))
  | Mat m => Ok (Vec (diag m))
  end.

Definition transpose (M : matrix) : matrix :=
  mx_tab (cols M) (rows M) (fun i j => get M j i).

Definition dot (u v : vector) : Q :=
  sum (map (fun xy => fst xy * snd xy) (combine u v)).

Definition matmul (A B : matrix) : matrix :=
  mx_tab (rows A) (cols B) (fun i j =>
    sum (map (fun k => get A i k * get B k j) (seq 0 (cols A)))).

(** [t[:, None]] and [t[None, :]] of a 1-d array. *)
Definition column (t : vector) : matrix := map (fun x => [x]) t.
Definition row (t : vector) : matrix := [t].

(** [np.tile(t, n)]. *)
Definition tile (t : vector) (n : nat) : vector := concat (repeat t n).

(** Length of the slice [lo:hi] of an axis of length [len]. *)
Definition slice_len (lo hi len : nat) : nat :=
  Nat.min hi len - Nat.min lo len.

(** [m[lo:hi] = v] on a 1-d array. *)
Definition set_slice (lo hi : nat) (v : vector) (m : vector) : result vector :=
  let sl := slice_len lo hi (length m) in
  if (length v =? sl) || (length v =? 1) then
    Ok (map (fun i =>
               if (lo <=? i) && (i <? lo + sl)
               then nth (bidx (length v) (i - lo)) v 0
               else nth i m 0)
            (seq 0 (length m)))
  else Raise (ValueError "could not broadcast input array into slice").

(** [CB[pos:pos+n, pos:pos+n] = K] on a 2-d array. *)
Definition set_block (pos n : nat) (K : array) (CB : matrix) : result matrix :=
  let sr := slice_len pos (pos + n) (rows CB) in
  let sc := slice_len pos (pos + n) (cols CB) in
  let V := view2 K in
  if ((rows V =? sr) || (rows V =? 1)) && ((cols V =? sc) || (cols V =? 1)) then
    Ok (mx_tab (rows CB) (cols CB) (fun i j =>
          if (pos <=? i) && (i <? pos + sr) && (pos <=? j) && (j <? pos + sc)
          then get V (bidx (rows V) (i - pos)) (bidx (cols V) (j - pos))
          else get CB i j))
  else Raise (ValueError "could not broadcast input array into slice").

Definition same_length (xs : list vector) : bool :=
  match xs with
  | [] => true
  | x :: rest => forallb (fun v => length v =? length x) rest
  end.

(** [np.array(xs)] for a list of 1-d arrays; a ragged list is refused. *)
Definition array2 (xs : list vector) : result matrix :=
  if same_length xs then Ok xs
  else Raise (ValueError "inhomogeneous shape").

(** [a.reshape(r, c)] on the entries [flat] of [a]. *)
Definition reshape2 (r c : nat) (flat : list Q) : result matrix :=
  if length flat =? r * c
  then Ok (mx_tab r c (fun i j => nth (i * c + j) flat 0))
  else Raise (ValueError "cannot reshape array").

(** [a.reshape(dims)] for a higher rank. *)
Definition reshape (dims : list nat) (flat : list Q) : result ndarray :=
  if length flat =? fold_right Nat.mul 1%nat dims
  then Ok (NdArray dims flat)
  else Raise (ValueError "cannot reshape array").

End Np.
Import Np.

(** ** Kernels and mean functions

    The kernel classes live in [gprn.covFunction], outside the analysed
    sources.  A kernel is therefore a class tag, which is all that
    [isinstance] inspects, together with what its [__call__] returns for
    the two call shapes the engine uses. *)

Inductive kernel_class : Type := covL | covP | covWN | covStationary.

Record kernel : Type := Kernel {
  kclass : kernel_class;
  (** [kernel(r)] *)
  call_r : array -> result array;
  (** [kernel(None, t1, t2)] *)
  call_t1_t2 : array -> array -> result array
}.

(** [isinstance(kernel, (covL, covP))] *)
Definition is_covL_or_covP (k : kernel) : bool :=
  match kclass k with
  | covL | covP => true
  | _ => false
  end.

(** [isinstance(kernel, covWN)] *)
Definition is_covWN (k : kernel) : bool :=
  match kclass k with
  | covWN => true
  | _ => false
  end.

(** An entry of [means]: [None] or a callable on the time vector. *)
Definition mean_function : Type := option (vector -> result vector).

(** The two engine files agree on everything embedded below apart from
    one numeric constant and one banner text. *)
Inductive variant : Type := npvi | mfi_old.

Definition regularization (v : variant) : Q :=
  match v with
  | npvi => 1 # 100000
  | mfi_old => 1 # 1000000
  end.

Definition banner (v : variant) : string :=
  match v with
  | npvi => "NUGGETS ADDED TO DIAGONAL!"
  | mfi_old => "NUGGET ADDED TO DIAGONAL!"
  end.

(** ** The engine object

    The attributes of [self]; [Self.time self] reads [self.time]. *)

Module Self.

Record inference : Type := Inference {
  nodes : list kernel;
  weight : kernel;
  means : list mean_function;
  jitters : vector;
  time : vector;
  args : list vector;
  q : nat;
  p : nat;
  qp : nat;
  N : nat;
  tt : vector;
  y : matrix;
  yerr : matrix
}.

End Self.
Definition inference : Type := Self.inference.

(** The [for i, j in enumerate(args)] loop of the constructor: even
    positions are values, odd positions are errors. *)
Fixpoint split_args (i : nat) (args : list vector) : list vector * list vector :=
  match args with
  | [] => ([], [])
  | j :: rest =>
      let '(ys, yerrs) := split_args (S i) rest in
      if Nat.even i then (j :: ys, yerrs) else (ys, j :: yerrs)
  end.

(** The loop variable [i] after [enumerate(args)]: unbound when the loop
    body never ran. *)
Definition last_index (args : list vector) : result nat :=
  match args with
  | [] => Raise (UnboundLocalError "i")
  | _ :: rest => Ok (length rest)
  end.

Definition assert (cond : bool) (msg : string) : result unit :=
  if cond then Ok tt else Raise (AssertionError msg).

Definition __init__ (nodes : list kernel) (weight : kernel)
           (means : list mean_function) (jitters : vector) (time : vector)
           (args : list vector) : result inference :=
  let q := length nodes in
  let p := (length args / 2)%nat in
  let qp := (q * p)%nat in
  let N := length time in
  let tt := tile time p in
  let '(ys, yerrs) := split_args 0 args in
  ys_arr <- array2 ys ;;
  y <- reshape2 p N (concat ys_arr) ;;
  yerrs_arr <- array2 yerrs ;;
  yerr <- reshape2 p N (concat yerrs_arr) ;;
  _ <- assert (length means =? p)
         "The numbers of means should be equal to the number of components" ;;
  i <- last_index args ;;
  _ <- assert (Qeq_bool ((inject_Z (Z.of_nat i) + 1) / 2) (inject_Z (Z.of_nat p)))
         "Given data and number of components dont match" ;;
  Ok (Self.Inference nodes weight means jitters time args q p qp N tt y yerr).

(** ** Mean functions *)

(** One pass of [for i, meanfun in enumerate(means)]. *)
Definition mean_step (N : nat) (t : vector) (m : vector)
           (imean : nat * mean_function) : result vector :=
  match snd imean with
  | None => Ok m
  | Some meanfun =>
      v <- meanfun t ;;
      set_slice (fst imean * N) ((fst imean + 1) * N) v m
  end.

Definition enumerate {A : Type} (xs : list A) : list (nat * A) :=
  combine (seq 0 (length xs)) xs.

Definition _mean (self : inference) (means : list mean_function)
           (time : option vector) : result vector :=
  match time with
  | None =>
      let N := length (Self.time self) in
      let m := map (fun _ => 0) (Self.tt self) in
      for_each (enumerate means) (mean_step N (Self.time self)) m
  | Some time =>
      let N := length time in
      let tt := tile time (Self.p self) in
      let m := map (fun _ => 0) tt in
      for_each (enumerate means) (mean_step N time) m
  end.

(** ** Covariance matrices *)

Definition _kernelMatrix (v : variant) (kernel : kernel) (time : vector)
  : result array :=
  r <- sub (Mat (column time)) (Mat (row time)) ;;
  if is_covL_or_covP kernel then
    call_t1_t2 kernel (Mat (column time)) (Mat (row time))
  else
    K0 <- call_r kernel r ;;
    ones <- np_diag (ones_like r) ;;
    eye <- np_diag ones ;;
    add K0 (times (regularization v) eye).

(** The [time] handed to [_predictKernelMatrix]: one query time
    ([tstar[n]]) or a 1-d array of them. *)
Inductive query : Type :=
| One (t : Q)
| Many (ts : vector).

Definition to_array (time : query) : array :=
  match time with
  | One t => Scalar t
  | Many ts => Vec ts
  end.

(** [time[:, None]] *)
Definition newaxis_col (time : query) : result array :=
  match time with
  | One _ => Raise (IndexError "invalid index to scalar variable.")
  | Many ts => Ok (Mat (column ts))
  end.

(** The local variable [K] is tracked as [option array]: the three
    statements of the body run in sequence, each assignment replacing the
    previous value. *)
Definition _predictKernelMatrix (self : inference) (kernel : kernel)
           (time : query) : result array :=
  K <- (if is_covL_or_covP kernel
        then K <- call_t1_t2 kernel (to_array time) (Mat (row (Self.time self))) ;;
             Ok (Some K)
        else Ok None) ;;
  K <- (if is_covWN kernel
        then Ok (Some (times 0 (ones_like (Vec (Self.time self)))))
        else
          r <- (if size (to_array time) =? 1
                then sub (to_array time) (Mat (row (Self.time self)))
                else c <- newaxis_col time ;;
                     sub c (Mat (row (Self.time self)))) ;;
          K <- call_r kernel r ;;
          Ok (Some K)) ;;
  match K with
  | Some K => Ok K
  | None => Raise (UnboundLocalError "K")
  end.

(** [nodes[i]] *)
Definition getitem {A : Type} (xs : list A) (i : nat) : result A :=
  match nth_error xs i with
  | Some x => Ok x
  | None => Raise (IndexError "index out of range")
  end.

(** The body of [for i in range(self.q)] in [_CB_matrix]; the loop
    state is [(CB, pos)]. *)
Definition place_node (v : variant) (nodes : list kernel) (time : vector)
           (st : matrix * nat) (i : nat) : result (matrix * nat) :=
  let '(CB, pos) := st in
  node <- getitem nodes i ;;
  node_CovMatrix <- _kernelMatrix v node time ;;
  CB <- set_block pos (length time) node_CovMatrix CB ;;
  Ok (CB, (pos + length time)%nat).

(** The body of [for i in range(self.qp)]. *)
Definition place_weight (time : vector) (weight_CovMatrix : array)
           (st : matrix * nat) (i : nat) : result (matrix * nat) :=
  let '(CB, pos) := st in
  CB <- set_block pos (length time) weight_CovMatrix CB ;;
  Ok (CB, (pos + length time)%nat).

(** The block-diagonal prior covariance. *)
Definition _CB_matrix (v : variant) (self : inference) (nodes : list kernel)
           (weight : kernel) (time : vector) : result matrix :=
  let CB_size := (length time * Self.q self * (Self.p self + 1))%nat in
  let CB := zeros CB_size CB_size in
  let pos := 0%nat in
  st <- for_each (seq 0 (Self.q self)) (place_node v nodes time) (CB, pos) ;;
  weight_CovMatrix <- _kernelMatrix v weight time ;;
  st <- for_each (seq 0 (Self.qp self)) (place_weight time weight_CovMatrix) st ;;
  Ok (fst st).

(** Splits a flat latent vector into node and weight tensors. *)
Definition _fhat_and_w (self : inference) (u : vector)
  : result (ndarray * ndarray) :=
  f <- reshape [1%nat; Self.q self; Self.N self]
         (firstn (Self.q self * Self.N self) u) ;;
  w <- reshape [Self.p self; Self.q self; Self.N self]
         (skipn (Self.q self * Self.N self) u) ;;
  Ok (f, w).

(** ** Reconstructing the outputs *)

(** What a caller may pass as [means] to [get_y]. *)
Inductive py_means : Type :=
| PyNone
| PyList (ms : list mean_function)
| PyArray (ms : list mean_function).

(** Python's truth value of [means]. *)
Definition truth (means : py_means) : result bool :=
  match means with
  | PyNone => Ok false
  | PyList ms => Ok (negb (Nat.eqb (length ms) 0))
  | PyArray [] => Ok false
  | PyArray [None] => Ok false
  | PyArray [Some _] => Ok true
  | PyArray _ =>
      Raise (ValueError "The truth value of an array with more than one element is ambiguous.")
  end.

Definition means_list (means : py_means) : result (list mean_function) :=
  match means with
  | PyNone => Raise (TypeError "'NoneType' object is not iterable")
  | PyList ms => Ok ms
  | PyArray ms => Ok ms
  end.

Section GetY.

(** [np.einsum('ij...,jk...->ik...', w, n)] *)
Variable einsum_ij_jk_ik : ndarray -> ndarray -> result ndarray.

Definition get_y (self : inference) (n w : ndarray) (time : vector)
           (means : py_means) : result array :=
  prod <- einsum_ij_jk_ik w n ;;
  y <- reshape2 (Self.p self) (length time) (data prod) ;;
  b <- truth means ;;
  if b then
    ms <- means_list means ;;
    m <- _mean self ms (Some time) ;;
    add (Mat y) (Vec m)
  else Ok (Vec time).

End GetY.

(** ** Stable Cholesky factorisation *)

Section CholNugget.

(** [scipy.linalg.cholesky]: the upper factor, or an exception
    ([LinAlgError] when the matrix is not positive definite). *)
Variable cholesky : matrix -> result matrix.

(** [matrix + nugget*np.identity(matrix.shape[0])] *)
Definition add_nugget (M : matrix) (nugget : Q) : result matrix :=
  shifted <- add (Mat M) (Mat (scale nugget (identity (rows M)))) ;;
  Ok (view2 shifted).

(** The [while n < maximum] loop; [remaining] counts the passes that
    are left, [Z.to_nat (maximum - n)].  Each pass prints, tries, and on
    [LinAlgError] multiplies the nugget by ten; [finally] adds one to
    [n] on every path that stays in the loop. *)
Fixpoint retry (remaining : nat) (n : Z) (nugget : Q) (M : matrix)
  : list printed * result (matrix * Q) :=
  match remaining with
  | O => ([], Raise (LinAlgError "Still not positive definite, even with nugget."))
  | S remaining' =>
      let line := MsgRetry (n + 1) nugget in
      match (shifted <- add_nugget M nugget ;; cholesky shifted) with
      | Ok U => ([line], Ok (transpose U, nugget))
      | Raise (LinAlgError _) =>
          let '(out, res) := retry remaining' (n + 1) (nugget * 10) M in
          (line :: out, res)
      | Raise e => ([line], Raise e)
      end
  end.

Definition _cholNugget (v : variant) (M : matrix) (maximum : Z)
  : list printed * result (matrix * Q) :=
  let nugget := 0 in
  let nugget := nugget + Qabs (mean (diag M)) * (1 # 100000) in
  match cholesky M with
  | Ok U => ([], Ok (transpose U, nugget))
  | Raise (LinAlgError _) =>
      let '(out, res) := retry (Z.to_nat maximum) 0 nugget M in
      (Msg (banner v) :: out, res)
  | Raise e => ([], Raise e)
  end.

End CholNugget.

(** ** Mean-field engine ([mfi_old.py]) *)

(** [a[i, :, k]] *)
Definition slice_mid (a : ndarray) (i k : nat) : result vector :=
  match shape a with
  | [d0; d1; d2] =>
      if (i <? d0) && (k <? d2)
      then Ok (map (fun j => nth ((i * d1 + j) * d2 + k) (data a) 0) (seq 0 d1))
      else Raise (IndexError "index out of bounds")
  | _ => Raise (IndexError "too many indices for array")
  end.

(** [a[:, j, k]] *)
Definition slice_first (a : ndarray) (j k : nat) : result vector :=
  match shape a with
  | [d0; d1; d2] =>
      if (j <? d1) && (k <? d2)
      then Ok (map (fun i => nth ((i * d1 + j) * d2 + k) (data a) 0) (seq 0 d0))
      else Raise (IndexError "index out of bounds")
  | _ => Raise (IndexError "too many indices for array")
  end.

(** Collects [f x] for [x] in [xs], in order, stopping at the first
    exception. *)
Fixpoint collect {A B : Type} (f : A -> result B) (xs : list A) : result (list B) :=
  match xs with
  | [] => Ok []
  | x :: rest => b <- f x ;; bs <- collect f rest ;; Ok (b :: bs)
  end.

(** [np.concatenate] of the rows of a 2-d array. *)
Definition concatenate (M : matrix) : result vector :=
  match M with
  | [] => Raise (ValueError "need at least one array to concatenate")
  | _ => Ok (concat M)
  end.

(** [np.array(np.array_split(v, sections))] for a 1-d [v]: the first
    [len mod sections] parts are one entry longer. *)
Fixpoint split_sizes (v : vector) (sizes : list nat) : list vector :=
  match sizes with
  | [] => []
  | s :: rest => firstn s v :: split_sizes (skipn s v) rest
  end.

Definition array_split (v : vector) (sections : nat) : result matrix :=
  if sections =? 0
  then Raise (ValueError "number sections must be larger than 0.")
  else
    let each := (length v / sections)%nat in
    let extras := (length v mod sections)%nat in
    array2 (split_sizes v (repeat (S each) extras ++ repeat each (sections - extras))).

Definition as_vector (a : array) : vector :=
  match a with
  | Scalar x => [x]
  | Vec v => v
  | Mat m => concat m
  end.

(** [x < y] on floats. *)
Definition Qltb (x y : Q) : bool := negb (Qle_bool y x).

Module Mfi_old.

Section MeanField.

(** [np.sqrt] *)
Variable sqrt : Q -> Q.

Definition square (x : Q) : Q := x * x.

(** The value accumulated by the first statements of the prelude
    shared by [_updateSigmaMu_new] and [_expectedLogLike_new]. *)
Definition noise_aggregate (self : inference) (jitters : vector) : Q :=
  fold_left
    (fun error_term i =>
       error_term
       + sqrt (sum (map square (nth i (Self.yerr self) []))) / inject_Z (Z.of_nat (Self.N self)))
    (seq 0 (Self.p self))
    (sqrt (sum (map square jitters)) / inject_Z (Z.of_nat (Self.p self))).

(** The prelude itself, statement by statement. *)
Definition error_term (self : inference) (jitters : vector) : Q :=
  let error_term := noise_aggregate self jitters in
  let error_term := error_term in
  let error_term := 1 in
  error_term.

Definition _expectedLogLike_new (self : inference)
           (nodes weight : list kernel)
           (means : list mean_function) (jitters : vector)
           (sigma_f : list matrix) (mu_f : ndarray)
           (sigma_w : list (list matrix)) (mu_w : ndarray) : result Q :=
  flat_y <- concatenate (Self.y self) ;;
  m <- _mean self means (Some (Self.time self)) ;;
  new_y <- sub (Vec flat_y) (Vec m) ;;
  parts <- array_split (as_vector new_y) (Self.p self) ;;
  let new_y := transpose parts in
  let error_term := error_term self jitters in
  Wblk <- collect (fun np => slice_mid mu_w (snd np) (fst np))
            (list_prod (seq 0 (Self.N self)) (seq 0 (Self.p self))) ;;
  Fblk <- collect (fun nqp => slice_first mu_f (snd (fst nqp)) (fst (fst nqp)))
            (list_prod (list_prod (seq 0 (Self.N self)) (seq 0 (Self.q self)))
                       (seq 0 (Self.p self))) ;;
  Ymean <- elementwise Qmult (Vec (concat Wblk)) (Vec (concat Fblk)) ;;
  let yy := concat (repeat (concat new_y) (Self.q self)) in
  d <- sub (Vec yy) Ymean ;;
  Ydiff <- elementwise Qmult d d ;;
  Ok (- (1 # 2) * sum (as_vector Ydiff) / error_term).

(** The remaining per-iteration computations invert matrices and take
    logarithms of Cholesky diagonals. *)
Variable _updateSigmaMu_new :
  inference -> list kernel -> list kernel -> list mean_function -> vector ->
  vector -> ndarray -> ndarray -> ndarray -> ndarray ->
  result (list matrix * ndarray * list (list matrix) * ndarray).
Variable _entropy : inference -> list matrix -> list (list matrix) -> result Q.
Variable _expectedLogPrior :
  inference -> list kernel -> list kernel -> list matrix -> ndarray ->
  list (list matrix) -> ndarray -> result Q.

(** Local variables of [EvidenceLowerBound] that survive an iteration. *)
Record mf_state : Type := MfState {
  muF : ndarray;
  varF : ndarray;
  muW : ndarray;
  varW : ndarray;
  ELB : list Q;
  sum_ELB : option Q
}.

(** [ELB[-10:]] *)
Definition last10 (ELB : list Q) : list Q := skipn (length ELB - 10) ELB.

(** [criteria < 1e-10 and criteria != 0] *)
Definition converged (criteria : Q) : bool :=
  Qltb criteria (1 # 10000000000) && negb (Qeq_bool criteria 0).

(** The loop body up to and including [ELB.append(sum_ELB)]. *)
Definition mf_update (self : inference) (nodes weight : list kernel)
           (means : list mean_function) (jitters time : vector)
           (prints : bool) (st : mf_state)
  : result (list printed * mf_state * Q) :=
  '(sigmaF, muF, sigmaW, muW) <-
     _updateSigmaMu_new self nodes weight means jitters time
       (muF st) (varF st) (muW st) (varW st) ;;
  muF <- reshape [1%nat; Self.q self; Self.N self] (data muF) ;;
  varF <- collect (fun i => s <- getitem sigmaF i ;; Ok (diag s))
            (seq 0 (Self.q self)) ;;
  varF <- array2 varF ;;
  varF <- reshape [1%nat; Self.q self; Self.N self] (concat varF) ;;
  muW <- reshape [Self.p self; Self.q self; Self.N self] (data muW) ;;
  varW <- collect (fun ji => r <- getitem sigmaW (fst ji) ;;
                             s <- getitem r (snd ji) ;; Ok (diag s))
            (list_prod (seq 0 (Self.q self)) (seq 0 (Self.p self))) ;;
  varW <- array2 varW ;;
  varW <- reshape [Self.p self; Self.q self; Self.N self] (concat varW) ;;
  Entropy <- _entropy self sigmaF sigmaW ;;
  ExpLogPrior <- _expectedLogPrior self nodes weight sigmaF muF sigmaW muW ;;
  ExpLogLike <- _expectedLogLike_new self nodes weight means jitters
                  sigmaF muF sigmaW muW ;;
  let sum_ELB := ExpLogLike + ExpLogPrior + Entropy in
  let ELB := ELB st ++ [sum_ELB] in
  Ok (if prints then [MsgELB sum_ELB ExpLogLike ExpLogPrior Entropy] else [],
      MfState muF varF muW varW ELB (Some sum_ELB),
      sum_ELB).

(** [np.abs(np.mean(ELB[-10:]) - sum_ELB)] *)
Definition stopping_criteria (ELB : list Q) (sum_ELB : Q) : Q :=
  Qabs (mean (last10 ELB) - sum_ELB).

Definition mf_return (st : mf_state) : result (Q * ndarray * ndarray) :=
  match sum_ELB st with
  | Some sum_ELB => Ok (sum_ELB, muF st, muW st)
  | None => Raise (UnboundLocalError "sum_ELB")
  end.

(** [while iterNumber < iterations]; [remaining] is
    [Z.to_nat (iterations - iterNumber)]. *)
Fixpoint mf_while (self : inference) (nodes weight : list kernel)
         (means : list mean_function) (jitters time : vector)
         (prints plots : bool) (remaining : nat) (iterNumber : Z)
         (st : mf_state) : list printed * result (Q * ndarray * ndarray) :=
  match remaining with
  | O =>
      ((if plots then [Plot (tl (ELB st))] else [])
         ++ [MsgIterations iterNumber],
       mf_return st)
  | S remaining' =>
      match mf_update self nodes weight means jitters time prints st with
      | Raise e => ([], Raise e)
      | Ok (out, st', sum_ELB) =>
          let criteria := stopping_criteria (ELB st') sum_ELB in
          if converged criteria then
            (out
               ++ (if prints then [MsgConverged sum_ELB iterNumber] else [])
               ++ (if plots then [Plot (tl (ELB st'))] else [])
               ++ [MsgIterations iterNumber],
             mf_return st')
          else
            let '(out', res) :=
              mf_while self nodes weight means jitters time prints plots
                       remaining' (iterNumber + 1) st' in
            (out ++ out', res)
      end
  end.

(** The random generator: the two unseeded draws, and
    [np.random.seed(s); np.random.rand(D, 1)]. *)
Variable randn rand : nat -> vector.
Variable seeded_rand : Z -> nat -> vector.

(** The statements before the loop. *)
Definition mf_init (self : inference) : result mf_state :=
  let D := (length (Self.time self) * Self.q self * (Self.p self + 1))%nat in
  _ <- _fhat_and_w self (randn D) ;;
  _ <- _fhat_and_w self (rand D) ;;
  '(muF, muW) <- _fhat_and_w self (seeded_rand 100 D) ;;
  '(varF, varW) <- _fhat_and_w self (seeded_rand 200 D) ;;
  Ok (MfState muF varF muW varW [0] None).

Definition EvidenceLowerBound (self : inference) (nodes weight : list kernel)
           (means : list mean_function) (jitters time : vector)
           (iterations : Z) (prints plots : bool)
  : list printed * result (Q * ndarray * ndarray) :=
  match mf_init self with
  | Raise e => ([], Raise e)
  | Ok st =>
      mf_while self nodes weight means jitters time prints plots
               (Z.to_nat iterations) 0 st
  end.

(** [reaches st0 n st]: starting from [st0], the loop has completed
    [n] iterations, none of which raised or met the stopping test, and
    its variables are now [st]. *)
Inductive reaches (self : inference) (nodes weight : list kernel)
          (means : list mean_function) (jitters time : vector)
          (prints : bool) (st0 : mf_state) : nat -> mf_state -> Prop :=
| reaches_start :
    reaches self nodes weight means jitters time prints st0 0 st0
| reaches_next (n : nat) (st st' : mf_state) (out : list printed)
               (sum_ELB : Q) :
    reaches self nodes weight means jitters time prints st0 n st ->
    mf_update self nodes weight means jitters time prints st
    = Ok (out, st', sum_ELB) ->
    converged (stopping_criteria (ELB st') sum_ELB) = false ->
    reaches self nodes weight means jitters time prints st0 (S n) st'.

End MeanField.

End Mfi_old.

(** ** Nonparametric mixture engine ([npvi.py]) *)

Module Npvi.

Section Mixture.

(** Both summands invert kernel matrices and take logarithms. *)
Variable _expectedLogJoint :
  inference -> list kernel -> list kernel -> list mean_function -> vector ->
  list ndarray -> list ndarray -> vector -> nat -> result Q.
Variable _entropy :
  inference -> list ndarray -> list ndarray -> vector -> nat -> result Q.

(** [scipy.optimize.minimize(fun, x0, method='COBYLA', ...)]; the
    engine passes the number [ELBO] where the library expects the
    objective. *)
Variable minimize : Q -> vector -> result vector.

(** [np.random.randn(D, k)], column by column. *)
Variable randn : nat -> nat -> list vector.

(** [while iterNumber < iterations]: the body never assigns
    [iterNumber].  [ExpLogJoint] is the local variable read by the
    final [return]. *)
Fixpoint npvi_while (fuel : nat) (self : inference)
         (nodes weight : list kernel) (means : list mean_function)
         (jitters : vector) (muF muW : list ndarray) (sigma mu : vector)
         (k : nat) (iterNumber iterations : Z) (ExpLogJoint : option Q)
  : list printed * outcome Q :=
  match fuel with
  | O => ([], StillLooping)
  | S fuel' =>
      if (iterNumber <? iterations)%Z then
        match
          (joint <- _expectedLogJoint self nodes weight means jitters muF muW sigma k ;;
           ent <- _entropy self muF muW sigma k ;;
           let ELBO := joint + ent in
           res <- minimize ELBO mu ;;
           ExpLogJoint <- _expectedLogJoint self nodes weight means jitters muF muW sigma k ;;
           Entropy <- _entropy self muF muW sigma k ;;
           Ok (ExpLogJoint, Entropy))
        with
        | Raise e => ([], Finished (Raise e))
        | Ok (ExpLogJoint, Entropy) =>
            let '(out, res) :=
              npvi_while fuel' self nodes weight means jitters muF muW sigma mu
                         k iterNumber iterations (Some ExpLogJoint) in
            (MsgValue ExpLogJoint :: MsgValue Entropy :: out, res)
        end
      else
        ([], Finished
               match ExpLogJoint with
               | Some ExpLogJoint => Ok ExpLogJoint
               | None => Raise (UnboundLocalError "ExpLogJoint")
               end)
  end.

Definition EvidenceLowerBound (fuel : nat) (self : inference)
           (nodes weight : list kernel) (means : list mean_function)
           (jitters time : vector) (k : nat) (iterations : Z)
           (prints plots : bool) : list printed * outcome Q :=
  let D := (length (Self.time self) * Self.q self * (Self.p self + 1))%nat in
  let mu := randn D k in
  match
    for_each (seq 0 k)
      (fun (st : vector * list ndarray * list ndarray) i =>
         let '(sigma, muF, muW) := st in
         col <- getitem mu i ;;
         let sigma := sigma ++ [var col] in
         '(meme, mumu) <- _fhat_and_w self col ;;
         Ok (sigma, muF ++ [meme], muW ++ [mumu]))
      ([], [], [])
  with
  | Raise e => ([], Finished (Raise e))
  | Ok (sigma, muF, muW) =>
      let mu := concat (map data muF) ++ concat (map data muW) in
      let '(out, res) :=
        npvi_while fuel self nodes weight means jitters muF muW sigma mu
                   k 0 iterations None in
      (MsgVector mu :: out, res)
  end.

End Mixture.

End Npvi.

(** ** Vocabulary of the statements *)

(** [M] has [r] rows, each of length [c]. *)
Definition has_shape (r c : nat) (M : matrix) : Prop :=
  length M = r /\ Forall (fun row => length row = c) M.

Definition upper_triangular (U : matrix) : Prop :=
  forall i j, (j < i)%nat -> get U i j == 0.

Definition lower_triangular (L : matrix) : Prop :=
  forall i j, (i < j)%nat -> get L i j == 0.

Definition symmetric (M : matrix) : Prop :=
  forall i j, get M i j == get M j i.

(** Entrywise equality of floats on an [r] x [c] window. *)
Definition same_entries (r c : nat) (A B : matrix) : Prop :=
  forall i j, (i < r)%nat -> (j < c)%nat -> get A i j == get B i j.

(** [x^T M x] *)
Definition quadratic_form (M : matrix) (x : vector) : Q :=
  dot x (map (fun row => dot row x) M).

(** The [i]-th vector of the standard basis of dimension [n]. *)
Definition unit_vector (n i : nat) : vector :=
  map (fun k => if k =? i then 1 else 0) (seq 0 n).

Definition positive_definite (n : nat) (M : matrix) : Prop :=
  forall x, length x = n -> (exists i, ~ nth i x 0 == 0) ->
            0 < quadratic_form M x.

(** The mean of the absolute values of the diagonal. *)
Definition mean_abs_diag (M : matrix) : Q := mean (map Qabs (diag M)).

(** The nugget in force at retry [k] (counted from 0). *)
Definition nugget_at (M : matrix) (k : nat) : Q :=
  Nat.iter k (fun nugget => nugget * 10) (0 + Qabs (mean (diag M)) * (1 # 100000)).

(** [M + c*I] for an [n] x [n] matrix [M]. *)
Definition plus_diagonal (n : nat) (M : matrix) (c : Q) : matrix :=
  mx_tab n n (fun i j => get M i j + c * (if i =? j then 1 else 0)).

(** The line printed by retry [k], and the lines of the first [r]
    retries. *)
Definition retry_line (M : matrix) (k : nat) : printed :=
  MsgRetry (Z.of_nat k + 1) (nugget_at M k).

Definition retry_lines (M : matrix) (r : nat) : list printed :=
  map (retry_line M) (seq 0 r).

Definition still_not_pd : exn :=
  LinAlgError "Still not positive definite, even with nugget.".

(** Retry [k] of an [n] x [n] matrix is refused by the factorisation. *)
Definition retry_fails (cholesky : matrix -> result matrix) (n : nat)
           (M : matrix) (k : nat) : Prop :=
  exists msg, cholesky (plus_diagonal n M (nugget_at M k)) = Raise (LinAlgError msg).

(** ** Stand-ins used in worked examples

    An exact Cholesky factorisation over the rationals, reading the
    upper triangle as LAPACK does.  It answers whenever every pivot has a
    rational square root and reports [LinAlgError] at the first pivot
    that is not positive; it has no answer for an irrational pivot. *)

Definition exact_sqrt (x : Q) : option Q :=
  let x := Qred x in
  let n := Z.sqrt (Qnum x) in
  let d := Z.sqrt (Zpos (Qden x)) in
  if ((n * n =? Qnum x) && (d * d =? Zpos (Qden x)))%Z
  then Some (Qred (Qmake n (Z.to_pos d)))
  else None.

Fixpoint chol_exact_rec (fuel : nat) (M : matrix) : result matrix :=
  match fuel, M with
  | S fuel', (a :: r) :: rest =>
      if Qle_bool a 0
      then Raise (LinAlgError "leading minor not positive definite")
      else
        match exact_sqrt a with
        | None => Raise (TypeError "irrational pivot")
        | Some s =>
            let u := map (fun x => Qred (x / s)) r in
            let schur := mx_tab (length r) (length r)
                           (fun i j => Qred (get rest i (S j) - nth i u 0 * nth j u 0)) in
            U <- chol_exact_rec fuel' schur ;;
            Ok ((s :: u) :: map (cons 0) U)
        end
  | _, _ => Ok []
  end.

Definition chol_exact (M : matrix) : result matrix :=
  chol_exact_rec (length M) M.

(** [sqrt] on the rationals that have a rational root, 0 elsewhere. *)
Definition sqrt_exact (x : Q) : Q :=
  match exact_sqrt x with
  | Some s => s
  | None => 0
  end.

(** The pairwise lags [time[i] - time[j]]. *)
Definition lag_matrix (time : vector) : matrix :=
  mx_tab (length time) (length time) (fun i j => nth i time 0 - nth j time 0).

(** Membership of entry [(i, j)] in the [n] x [n] block whose corner is
    [(pos, pos)]. *)
Definition in_block (pos n i j : nat) : bool :=
  (pos <=? i) && (i <? pos + n) && (pos <=? j) && (j <? pos + n).

(** Entry [(i, j)] of the block-diagonal matrix whose [n] x [n] blocks
    [Ks] are laid out from corner [(pos, pos)] on. *)
Fixpoint block_diag_entry (n : nat) (Ks : list matrix) (pos i j : nat) : Q :=
  match Ks with
  | [] => 0
  | K :: rest =>
      if in_block pos n i j then get K (i - pos) (j - pos)
      else block_diag_entry n rest (pos + n) i j
  end.

(** A node kernel paired with the covariance matrix it evaluates to. *)
Definition evaluates_to (v : variant) (time : vector) (node : kernel)
           (K : matrix) : Prop :=
  _kernelMatrix v node time = Ok (Mat K)
  /\ has_shape (length time) (length time) K.

(** Applies [f] to every entry. *)
Definition map_array (f : Q -> Q) (a : array) : array :=
  match a with
  | Scalar x => Scalar (f x)
  | Vec v => Vec (map f v)
  | Mat m => Mat (map (map f) m)
  end.

Definition missing_arguments : exn :=
  TypeError "__call__() missing 2 required positional arguments: 't1' and 't2'".

Definition unexpected_arguments : exn :=
  TypeError "__call__() takes 2 positional arguments but 4 were given".

(** A linear kernel [(t1 - c) * (t2 - c)], which has no one-argument
    call. *)
Definition linear_kernel (c : Q) : kernel :=
  Kernel covL
         (fun _ => Raise missing_arguments)
         (fun t1 t2 =>
            elementwise Qmult (map_array (fun x => x - c) t1)
                              (map_array (fun x => x - c) t2)).

(** A stationary kernel with rational values,
    [amplitude^2 / (1 + r^2)]. *)
Definition rational_kernel (amplitude : Q) : kernel :=
  Kernel covStationary
         (fun r => Ok (map_array (fun x => amplitude * amplitude / (1 + x * x)) r))
         (fun _ _ => Raise unexpected_arguments).

(** A white-noise kernel [wn^2 * I]. *)
Definition white_noise_kernel (wn : Q) : kernel :=
  Kernel covWN
         (fun r => eye <- (ones <- np_diag (ones_like r) ;; np_diag ones) ;;
                   Ok (times (wn * wn) eye))
         (fun _ _ => Raise unexpected_arguments).

(** A small engine: two nodes, one output, two observation times. *)
Definition example_nodes : list kernel := [rational_kernel 1; linear_kernel 0].
Definition example_weight : kernel := rational_kernel 2.
Definition example_time : vector := [0; 1].
Definition example_args : list vector := [[1; 2]; [1 # 10; 1 # 10]].

Definition example_engine : inference :=
  Self.Inference example_nodes example_weight [None] [0] example_time
                 example_args 2 1 2 2 [0; 1] [[1; 2]] [[1 # 10; 1 # 10]].

Definition matrix_of (r : result array) : matrix :=
  match r with
  | Ok (Mat m) => m
  | _ => []
  end.

Definition example_Kn : list matrix :=
  Eval vm_compute in
    map (fun k => matrix_of (_kernelMatrix npvi k example_time)) example_nodes.

Definition example_Kw : matrix :=
  Eval vm_compute in matrix_of (_kernelMatrix npvi example_weight example_time).

(** The lag array [_predictKernelMatrix] builds for stationary kernels. *)
Definition predict_lag (self : inference) (time : query) : result array :=
  if size (to_array time) =? 1
  then sub (to_array time) (Mat (row (Self.time self)))
  else c <- newaxis_col time ;; sub c (Mat (row (Self.time self))).

(** [np.einsum('ij...,jk...->ik...', w, n)] on rank-3 operands, axes of
    length 1 being stretched. *)
Definition einsum_rank3 (w n : ndarray) : result ndarray :=
  match shape w, shape n with
  | [di; dj; dt], [dj'; dk; dt'] =>
      match bdim dj dj', bdim dt dt' with
      | Some J, Some T =>
          Ok (NdArray [di; dk; T]
                (map (fun ikt =>
                        let i := fst (fst ikt) in
                        let k := snd (fst ikt) in
                        let t := snd ikt in
                        sum (map (fun j =>
                                    nth ((i * dj + bidx dj j) * dt + bidx dt t) (data w) 0
                                    * nth ((bidx dj' j * dk + k) * dt' + bidx dt' t) (data n) 0)
                                 (seq 0 J)))
                     (list_prod (list_prod (seq 0 di) (seq 0 dk)) (seq 0 T))))
      | _, _ => Raise (ValueError "operands could not be broadcast together")
      end
  | _, _ => Raise (ValueError "einstein sum subscripts do not match operands")
  end.

(** One node, one output, one observation, with measurement noise. *)
Definition noisy_engine : inference :=
  Self.Inference [rational_kernel 1] (rational_kernel 1) [None] [4] [0]
                 [[5]; [3]] 1 1 1 1 [0] [[5]] [[3]].

(** Stand-ins for the numerical routines of an iteration of the
    mean-field loop on [noisy_engine]: posterior moments that do not
    move, and a constant entropy. *)
Definition steady_update
           (self : inference) (nodes weight : list kernel)
           (means : list mean_function) (jitters time : vector)
           (muF varF muW varW : ndarray)
  : result (list matrix * ndarray * list (list matrix) * ndarray) :=
  Ok ([[[1]]], NdArray [1%nat; 1%nat] [1], [[[[1]]]], NdArray [1%nat; 1%nat] [5]).

Definition constant_entropy (c : Q)
           (self : inference) (sigma_f : list matrix)
           (sigma_w : list (list matrix)) : result Q :=
  Ok c.

Definition zero_log_prior
           (self : inference) (nodes weight : list kernel)
           (sigma_f : list matrix) (mu_f : ndarray)
           (sigma_w : list (list matrix)) (mu_w : ndarray) : result Q :=
  Ok 0.

Definition zero_draw (D : nat) : vector := repeat 0 D.
Definition zero_seeded_draw (seed : Z) (D : nat) : vector := repeat 0 D.

(** The loop variables of [noisy_engine] after initialisation from the
    zero draws. *)
Definition noisy_state0 : Mfi_old.mf_state :=
  Mfi_old.MfState (NdArray [1%nat; 1%nat; 1%nat] [0])
                  (NdArray [1%nat; 1%nat; 1%nat] [0])
                  (NdArray [1%nat; 1%nat; 1%nat] [0])
                  (NdArray [1%nat; 1%nat; 1%nat] [0])
                  [0] None.

(** ** Further stand-ins *)

(** A mean function in the style of [gprn.meanFunction.Linear]: one
    value [slope * t + intercept] per time. *)
Definition linear_mean (slope intercept : Q) : vector -> result vector :=
  fun t => Ok (map (fun x => slope * x + intercept) t).

(** One node, two outputs, two observations: the engine the constructor
    returns for [example_time] and two data pairs. *)
Definition two_output_args : list vector :=
  [[1; 2]; [1 # 10; 1 # 10]; [3; 4]; [1 # 10; 1 # 10]].

Definition two_output_engine : inference :=
  Self.Inference [rational_kernel 1] (rational_kernel 2) [None; None] [0; 0]
                 example_time two_output_args 1 2 2 2 [0; 1; 0; 1]
                 [[1; 2]; [3; 4]] [[1 # 10; 1 # 10]; [1 # 10; 1 # 10]].

(** The lags [ts[i] - time[j]] between query times and training times. *)
Definition cross_lag (ts time : vector) : matrix :=
  mx_tab (length ts) (length time) (fun i j => nth i ts 0 - nth j time 0).

(** ** Sampling from the prior *)

Section Sampling.

(** [multivariate_normal(mean, cov, allow_singular=True).rvs()]: one
    draw, or the exception raised when the frozen distribution is
    built. *)
Variable rvs : vector -> matrix -> result vector.

Definition _sample_CB (v : variant) (self : inference) (nodes : list kernel)
           (weight : kernel) (time : vector) : result vector :=
  let mean := repeat 0 (length time * Self.q self * (Self.p self + 1)) in
  cov <- _CB_matrix v self nodes weight time ;;
  rvs mean cov.

Definition u_to_fhatW (v : variant) (self : inference) (nodes : list kernel)
           (weight : kernel) (time : vector) : result (ndarray * ndarray) :=
  u <- _sample_CB v self nodes weight time ;;
  fhat <- reshape [1%nat; Self.q self; length time]
            (firstn (Self.q self * length time) u) ;;
  w <- reshape [Self.p self; Self.q self; length time]
         (skipn (Self.q self * length time) u) ;;
  Ok (fhat, w).

End Sampling.

(** ** Initial mixture parameters ([npvi.py]) *)

Section UpdateMu.

(** [np.random.randn(D, k)], column by column. *)
Variable randn : nat -> nat -> list vector.

Definition _npvi_updateMu (self : inference) (k : nat)
  : result (list ndarray * list ndarray * vector) :=
  let D := (length (Self.time self) * Self.q self * (Self.p self + 1))%nat in
  let mu := randn D k in
  '(sigma, muF, muW) <-
    for_each (seq 0 k)
      (fun (st : vector * list ndarray * list ndarray) i =>
         let '(sigma, muF, muW) := st in
         let sigma := sigma ++ [1] in
         col <- getitem mu i ;;
         '(meme, mumu) <- _fhat_and_w self col ;;
         Ok (sigma, muF ++ [meme], muW ++ [mumu]))
      ([], [], []) ;;
  Ok (muF, muW, sigma).

End UpdateMu.

(** A draw that returns the mean of the distribution. *)
Definition mean_draw (mean : vector) (cov : matrix) : result vector := Ok mean.

(** A table of [k] columns of length [D] with entry [i + j] at row [j]
    of column [i]. *)
Definition counting_draw (D k : nat) : list vector :=
  map (fun i => map (fun j => inject_Z (Z.of_nat (i + j))) (seq 0 D)) (seq 0 k).

(** ** The entropy of the mixture ([npvi.py]) *)

(** [a[:, :, j, :]] on an array of rank 4 or more. *)
Definition take_axis2 (a : ndarray) (j : nat) : result ndarray :=
  match shape a with
  | d0 :: d1 :: d2 :: d3 :: rest =>
      if j <? d2 then
        let T := fold_right Nat.mul 1%nat (d3 :: rest) in
        Ok (NdArray (d0 :: d1 :: d3 :: rest)
              (map (fun xt => nth ((fst xt * d2 + j) * T + snd xt) (data a) 0)
                   (list_prod (seq 0 (d0 * d1)) (seq 0 T))))
      else Raise (IndexError "index out of bounds")
  | _ => Raise (IndexError "too many indices for array")
  end.

(** [a[:, i, j, :]] on an array of rank 4 or more. *)
Definition take_axes12 (a : ndarray) (i j : nat) : result ndarray :=
  match shape a with
  | d0 :: d1 :: d2 :: d3 :: rest =>
      if (i <? d1) && (j <? d2) then
        let T := fold_right Nat.mul 1%nat (d3 :: rest) in
        Ok (NdArray (d0 :: d3 :: rest)
              (map (fun xt =>
                      nth (((fst xt * d1 + i) * d2 + j) * T + snd xt) (data a) 0)
                   (list_prod (seq 0 d0) (seq 0 T))))
      else Raise (IndexError "index out of bounds")
  | _ => Raise (IndexError "too many indices for array")
  end.

(** [np.hstack((A, B))] of two 2-d arrays. *)
Definition hstack (A B : matrix) : result matrix :=
  if rows A =? rows B
  then Ok (map (fun ab => fst ab ++ snd ab) (combine A B))
  else Raise (ValueError "all the input array dimensions except for the concatenation axis must match exactly").

(** Python's [max] over the entries of a 1-d array. *)
Definition py_max (v : vector) : result Q :=
  match v with
  | [] => Raise (ValueError "max() arg is an empty sequence")
  | x :: rest => Ok (fold_left (fun m y => if Qltb m y then y else m) rest x)
  end.

(** [M[:, j]] *)
Definition column_at (M : matrix) (j : nat) : result vector :=
  if j <? cols M then Ok (map (fun row => nth j row 0) M)
  else Raise (IndexError "index out of bounds").

Module Mixture.

Section Entropy.

(** [np.log] and [np.exp] *)
Variable log exp : Q -> Q.

Definition _entropy (self : inference) (muF muW : ndarray) (sigma : vector)
           (k : nat) : result Q :=
  let Sig_nj : matrix := [[]; []] in
  Sig_nj <- for_each (seq 0 (Self.q self))
              (fun Sig_nj j =>
                 s <- take_axis2 muF j ;;
                 block <- reshape2 k (Self.N self) (data s) ;;
                 hstack Sig_nj block)
              Sig_nj ;;
  Sig_nj <- for_each (list_prod (seq 0 (Self.p self)) (seq 0 (Self.q self)))
              (fun Sig_nj ij =>
                 s <- take_axes12 muW (fst ij) (snd ij) ;;
                 block <- reshape2 k (Self.N self) (data s) ;;
                 hstack Sig_nj block)
              Sig_nj ;;
  sigma0 <- getitem sigma 0 ;;
  let sig_nj :=
    diag (scale (sigma0 * sigma0 + sigma0 * sigma0) (identity (rows Sig_nj))) in
  logP <- collect
            (fun ki =>
               row <- getitem Sig_nj ki ;;
               s <- getitem sig_nj ki ;;
               Ok (map (fun x =>
                          - (1 # 2) * (x / s)
                          - (1 # 2) * inject_Z (Z.of_nat (Self.p self)) * log s)
                       row))
            (seq 0 k) ;;
  a <- collect
         (fun ki =>
            row <- getitem logP ki ;;
            max_val <- py_max row ;;
            col <- column_at logP ki ;;
            let ls := max_val + log (sum (map (fun x => exp (x - max_val)) col)) in
            Ok (- log (inject_Z (Z.of_nat k)) + ls))
         (seq 0 k) ;;
  let beta := 1 / inject_Z (Z.of_nat k) in
  Ok (sum (map (fun x => x * beta) a)).

End Entropy.

End Mixture.

(** Stand-ins for [np.log] and [np.exp] with rational values. *)
Definition affine_log (x : Q) : Q := x - 1.
Definition affine_exp (x : Q) : Q := x + 1.

(** ** Parameters of the mean functions ([npvi.py])

    The mean-function classes live in [gprn.meanFunction], outside the
    analysed sources.  The property [mean_pars] reads two attributes of
    such an object, [_parsize] and the array [pars], and writes into
    [pars].  The same object may be listed more than once in [means], so
    the objects are kept in a heap and [means] holds addresses ([None]
    stays [None]). *)

Module MeanPars.

Record mean_object : Type := MeanObject {
  _parsize : nat;
  pars : vector
}.

Definition address : Type := nat.
Definition heap : Type := address -> mean_object.

(** The engine attributes the two properties assign, unset until
    first assigned, next to the heap. *)
Record state : Type := State {
  objects : heap;
  _mean_pars_size : option nat;
  _mean_pars : option vector
}.

Definition store (h : heap) (a : address) (m : mean_object) : heap :=
  fun b => if b =? a then m else h b.

(** [l[j] = x] on a list or 1-d array. *)
Fixpoint setitem (j : nat) (x : Q) (l : vector) : result vector :=
  match l, j with
  | [], _ => Raise (IndexError "index out of bounds")
  | _ :: rest, O => Ok (x :: rest)
  | y :: rest, S j' => rest' <- setitem j' x rest ;; Ok (y :: rest')
  end.

(** The getter of [mean_pars_size]. *)
Definition mean_pars_size (st : state) (means : list (option address))
  : state * nat :=
  let size :=
    fold_left (fun size m =>
                 match m with
                 | None => size + 0
                 | Some a => size + _parsize (objects st a)
                 end)%nat
              means 0%nat in
  (State (objects st) (Some size) (_mean_pars st), size).

(** [for j in range(m._parsize): m.pars[j] = pars.pop(0)]; the heap
    keeps what was written before an exception. *)
Fixpoint fill (a : address) (js : list nat) (h : heap) (pars_left : vector)
  : heap * result vector :=
  match js with
  | [] => (h, Ok pars_left)
  | j :: js' =>
      match pars_left with
      | [] => (h, Raise (IndexError "pop from empty list"))
      | x :: rest =>
          match setitem j x (pars (h a)) with
          | Ok written =>
              fill a js' (store h a (MeanObject (_parsize (h a)) written)) rest
          | Raise e => (h, Raise e)
          end
      end
  end.

(** [for _, m in enumerate(self.means)] *)
Fixpoint assign_all (means : list (option address)) (h : heap)
         (pars_left : vector) : heap * result vector :=
  match means with
  | [] => (h, Ok pars_left)
  | None :: rest => assign_all rest h pars_left
  | Some a :: rest =>
      match fill a (seq 0 (_parsize (h a))) h pars_left with
      | (h', Ok pars_left') => assign_all rest h' pars_left'
      | (h', Raise e) => (h', Raise e)
      end
  end.

(** The setter of [mean_pars]. *)
Definition mean_pars (st : state) (means : list (option address))
           (new_pars : vector) : state * result unit :=
  let '(st, size) := mean_pars_size st means in
  if length new_pars =? size then
    let st := State (objects st) (_mean_pars_size st) (Some new_pars) in
    let '(h, r) := assign_all means (objects st) new_pars in
    (State h (_mean_pars_size st) (_mean_pars st),
     match r with Ok _ => Ok tt | Raise e => Raise e end)
  else (st, Raise (AssertionError EmptyString)).

(** The number of parameters in front of position [i] of [means]. *)
Definition offset (h : heap) (means : list (option address)) (i : nat) : nat :=
  fold_left (fun size m =>
               match m with
               | None => size + 0
               | Some a => size + _parsize (h a)
               end)%nat
            (firstn i means) 0%nat.

(** The addresses listed in [means]. *)
Definition addresses (means : list (option address)) : list address :=
  flat_map (fun m => match m with None => [] | Some a => [a] end) means.

End MeanPars.

(** Two mean objects, the first with two parameters and the second
    with one; every other address holds an object without parameters. *)
Definition example_heap : MeanPars.heap :=
  fun a =>
    match a with
    | O => MeanPars.MeanObject 2 [0; 0]
    | S O => MeanPars.MeanObject 1 [0]
    | _ => MeanPars.MeanObject 0 []
    end.

(** A mean object that declares three parameters but holds an array of
    two. *)
Definition short_heap : MeanPars.heap :=
  fun a =>
    match a with
    | O => MeanPars.MeanObject 3 [0; 0]
    | _ => MeanPars.MeanObject 0 []
    end.

(** The loop variables of [noisy_engine] after one iteration with the
    stand-ins, and the ELBO of that iteration. *)
Definition noisy_elbo : Q := 2 # 200000000000.

Definition noisy_state1 : Mfi_old.mf_state :=
  Mfi_old.MfState (NdArray [1%nat; 1%nat; 1%nat] [1])
                  (NdArray [1%nat; 1%nat; 1%nat] [1])
                  (NdArray [1%nat; 1%nat; 1%nat] [5])
                  (NdArray [1%nat; 1%nat; 1%nat] [1])
                  [0; noisy_elbo] (Some noisy_elbo).

(** ** The element type of the mean vector

    [np.zeros_like] gives the result of [_mean] the element type of the
    time array, and an assignment into an integer array converts each
    value by dropping its fractional part.  [_mean] above is the case of a
    float time array, the one the rest of the engine is embedded for;
    [_mean_as] carries the element type of [time] along. *)

Inductive dtype : Type := float64 | int64.

(** The conversion NumPy applies when a value is stored into an array
    of the given element type: none for floats, truncation toward zero for
    integers. *)
Definition astype (dt : dtype) (x : Q) : Q :=
  match dt with
  | float64 => x
  | int64 => inject_Z (Z.quot (Qnum x) (Z.pos (Qden x)))
  end.

(** One pass of [for i, meanfun in enumerate(means)] into an array of
    element type [dt]. *)
Definition mean_step_as (dt : dtype) (N : nat) (t : vector) (m : vector)
           (imean : nat * mean_function) : result vector :=
  match snd imean with
  | None => Ok m
  | Some meanfun =>
      v <- meanfun t ;;
      set_slice (fst imean * N) ((fst imean + 1) * N) (map (astype dt) v) m
  end.

Definition _mean_as (dt : dtype) (self : inference)
           (means : list mean_function) (time : option vector)
  : result vector :=
  match time with
  | None =>
      let N := length (Self.time self) in
      let m := map (fun _ => 0) (Self.tt self) in
      for_each (enumerate means) (mean_step_as dt N (Self.time self)) m
  | Some time =>
      let N := length time in
      let tt := tile time (Self.p self) in
      let m := map (fun _ => 0) tt in
      for_each (enumerate means) (mean_step_as dt N time) m
  end.

(** A mean function followed by the conversion to [dt]. *)
Definition converted (dt : dtype) (mf : mean_function) : mean_function :=
  match mf with
  | None => None
  | Some meanfun => Some (fun t => v <- meanfun t ;; Ok (map (astype dt) v))
  end.

(** * Properties *)

(** ** Entries of tabulated matrices *)

Lemma nth_map_seq {A : Type} (f : nat -> A) (n i : nat) (d : A) :
  (i < n)%nat -> nth i (map f (seq 0 n)) d = f i.
Proof.
  intros Hi.
  rewrite (nth_indep _ d (f 0%nat)) by (rewrite length_map, length_seq; exact Hi).
  rewrite (map_nth f (seq 0 n) 0%nat i), seq_nth by exact Hi.
  reflexivity.
Qed.

Lemma get_mx_tab (r c : nat) (f : nat -> nat -> Q) (i j : nat) :
  (i < r)%nat -> (j < c)%nat -> get (mx_tab r c f) i j = f i j.
Proof.
  intros Hi Hj. unfold get, mx_tab.
  rewrite (nth_map_seq (fun i => map (fun j => f i j) (seq 0 c)) [] Hi).
  apply nth_map_seq. exact Hj.
Qed.

Lemma rows_mx_tab (r c : nat) (f : nat -> nat -> Q) : rows (mx_tab r c f) = r.
Proof. unfold rows, mx_tab. rewrite length_map, length_seq. reflexivity. Qed.

Lemma cols_mx_tab (r c : nat) (f : nat -> nat -> Q) :
  (0 < r)%nat -> cols (mx_tab r c f) = c.
Proof.
  intros Hr. unfold cols, mx_tab.
  destruct r as [|r]; [lia|].
  simpl. rewrite length_map, length_seq. reflexivity.
Qed.

Lemma has_shape_mx_tab (r c : nat) (f : nat -> nat -> Q) :
  has_shape r c (mx_tab r c f).
Proof.
  split; [apply rows_mx_tab|].
  unfold mx_tab. apply Forall_forall. intros row Hin.
  apply in_map_iff in Hin. destruct Hin as [i [<- _]].
  rewrite length_map, length_seq. reflexivity.
Qed.

Lemma mx_tab_ext (r c : nat) (f g : nat -> nat -> Q) :
  (forall i j, (i < r)%nat -> (j < c)%nat -> f i j = g i j) ->
  mx_tab r c f = mx_tab r c g.
Proof.
  intros H. unfold mx_tab.
  apply map_ext_in. intros i Hi. apply in_seq in Hi.
  apply map_ext_in. intros j Hj. apply in_seq in Hj.
  apply H; lia.
Qed.

Lemma has_shape_cols (r c : nat) (M : matrix) :
  has_shape r c M -> (0 < r)%nat -> cols M = c.
Proof.
  intros [Hr Hc] Hpos. unfold cols.
  destruct M as [|row M]; simpl in *; [lia|].
  inversion Hc; subst. reflexivity.
Qed.

Lemma has_shape_square_dims (n : nat) (M : matrix) :
  has_shape n n M -> rows M = n /\ cols M = n.
Proof.
  intros H. split; [exact (proj1 H)|].
  destruct n as [|n].
  - destruct H as [Hr _]. destruct M; [reflexivity|discriminate].
  - apply (has_shape_cols H). lia.
Qed.

(** ** The stable Cholesky routine *)

Lemma scale_mx_tab (c : Q) (r k : nat) (f : nat -> nat -> Q) :
  scale c (mx_tab r k f) = mx_tab r k (fun i j => c * f i j).
Proof.
  unfold scale, mx_tab. rewrite map_map.
  apply map_ext. intros i. rewrite map_map. reflexivity.
Qed.

Lemma bdim_same (n : nat) : bdim n n = Some n.
Proof. unfold bdim. rewrite Nat.eqb_refl. reflexivity. Qed.

Lemma bidx_in_range (d i : nat) : (i < d)%nat -> bidx d i = i.
Proof.
  intros Hi. unfold bidx. destruct (Nat.eqb_spec d 1); [lia|reflexivity].
Qed.

Lemma add_nugget_square (n : nat) (M : matrix) (c : Q) :
  has_shape n n M -> add_nugget M c = Ok (plus_diagonal n M c).
Proof.
  intros HM. destruct (has_shape_square_dims HM) as [Hr Hc].
  unfold add_nugget, add, elementwise, broadcast2. simpl view2.
  unfold identity. rewrite scale_mx_tab, Hr, Hc, rows_mx_tab.
  assert (Hcols : cols (mx_tab n n (fun i j => c * (if i =? j then 1 else 0))) = n).
  { destruct n as [|n]; [reflexivity|]. apply cols_mx_tab. lia. }
  rewrite Hcols, bdim_same. simpl. f_equal.
  apply mx_tab_ext. intros i j Hi Hj.
  rewrite !bidx_in_range by assumption.
  rewrite get_mx_tab by assumption. reflexivity.
Qed.

Section CholNuggetFacts.

Variable cholesky : matrix -> result matrix.
Variable n : nat.
Variable M : matrix.
Hypothesis M_square : has_shape n n M.

Lemma nugget_at_S (k : nat) : nugget_at M (S k) = nugget_at M k * 10.
Proof. reflexivity. Qed.

Lemma nugget_at_0 : nugget_at M 0 == Qabs (mean (diag M)) * (1 # 100000).
Proof. unfold nugget_at. simpl. ring. Qed.

Lemma nugget_at_power (k : nat) :
  nugget_at M k == Qabs (mean (diag M)) * (1 # 100000) * inject_Z (10 ^ Z.of_nat k).
Proof.
  induction k as [|k IH].
  - rewrite nugget_at_0. simpl. ring.
  - rewrite nugget_at_S, IH.
    replace (Z.of_nat (S k)) with (Z.succ (Z.of_nat k)) by lia.
    rewrite Z.pow_succ_r by lia. rewrite inject_Z_mult. ring.
Qed.

Lemma retry_step_fail (remaining k : nat) (msg : string) :
  cholesky (plus_diagonal n M (nugget_at M k)) = Raise (LinAlgError msg) ->
  retry cholesky (S remaining) (Z.of_nat k) (nugget_at M k) M
  = (retry_line M k
       :: fst (retry cholesky remaining (Z.of_nat (S k)) (nugget_at M (S k)) M),
     snd (retry cholesky remaining (Z.of_nat (S k)) (nugget_at M (S k)) M)).
Proof.
  intros Hmsg. cbn [retry].
  rewrite (add_nugget_square _ M_square). cbn [bind]. rewrite Hmsg.
  rewrite Nat2Z.inj_succ, <- Z.add_1_r, nugget_at_S.
  destruct (retry cholesky remaining (Z.of_nat k + 1) (nugget_at M k * 10) M).
  reflexivity.
Qed.

Lemma retry_step_ok (remaining k : nat) (U : matrix) :
  cholesky (plus_diagonal n M (nugget_at M k)) = Ok U ->
  retry cholesky (S remaining) (Z.of_nat k) (nugget_at M k) M
  = ([retry_line M k], Ok (transpose U, nugget_at M k)).
Proof.
  intros Hok. cbn [retry].
  rewrite (add_nugget_square _ M_square). cbn [bind]. rewrite Hok.
  reflexivity.
Qed.

Lemma retry_exhausts (remaining k : nat) :
  (forall i, (i < remaining)%nat -> retry_fails cholesky n M (k + i)) ->
  retry cholesky remaining (Z.of_nat k) (nugget_at M k) M
  = (map (retry_line M) (seq k remaining), Raise still_not_pd).
Proof.
  revert k. induction remaining as [|remaining IH]; intros k Hfail.
  - reflexivity.
  - destruct (Hfail 0%nat ltac:(lia)) as [msg Hmsg].
    rewrite Nat.add_0_r in Hmsg.
    rewrite (retry_step_fail remaining k Hmsg), IH.
    + reflexivity.
    + intros i Hi. replace (S k + i)%nat with (k + S i)%nat by lia.
      apply Hfail. lia.
Qed.

Lemma retry_succeeds (r : nat) :
  forall (remaining k : nat) (U : matrix),
    (r < remaining)%nat ->
    (forall i, (i < r)%nat -> retry_fails cholesky n M (k + i)) ->
    cholesky (plus_diagonal n M (nugget_at M (k + r))) = Ok U ->
    retry cholesky remaining (Z.of_nat k) (nugget_at M k) M
    = (map (retry_line M) (seq k (S r)), Ok (transpose U, nugget_at M (k + r))).
Proof.
  induction r as [|r IH]; intros remaining k U Hlt Hfail Hok.
  - destruct remaining as [|remaining]; [lia|].
    rewrite Nat.add_0_r in Hok |- *.
    apply (retry_step_ok remaining k Hok).
  - destruct remaining as [|remaining]; [lia|].
    destruct (Hfail 0%nat ltac:(lia)) as [msg Hmsg].
    rewrite Nat.add_0_r in Hmsg.
    rewrite (retry_step_fail remaining k Hmsg).
    rewrite (IH remaining (S k) U).
    + replace (S k + r)%nat with (k + S r)%nat by lia. reflexivity.
    + lia.
    + intros i Hi. replace (S k + i)%nat with (k + S i)%nat by lia.
      apply Hfail. lia.
    + replace (S k + r)%nat with (k + S r)%nat by lia. exact Hok.
Qed.

End CholNuggetFacts.

(** C1 (as amended).  For every square matrix [M] whose direct
    factorisation raises [LinAlgError], [_cholNugget M maximum] retries
    on [M + nugget*I]: the nugget starts at the absolute value of the
    mean diagonal entry of [M] times 1e-5 and is multiplied by 10 after
    each failed retry; retry [r] (numbered from 0) is reached only when
    [r < maximum] and all earlier retries failed, and its success returns
    the transposed factor with the nugget then in force; when all
    [maximum] retries fail the routine raises [LinAlgError], and with
    [maximum = 0] it does so right after the failed direct attempt. *)
Theorem cholNugget_retry_schedule
        (cholesky : matrix -> result matrix) (v : variant) (n : nat)
        (M : matrix) (maximum : Z) (msg : string) :
  has_shape n n M ->
  cholesky M = Raise (LinAlgError msg) ->
  nugget_at M 0 == Qabs (mean (diag M)) * (1 # 100000)
  /\ (forall k, nugget_at M (S k) = nugget_at M k * 10)
  /\ (forall r U,
         (Z.of_nat r < maximum)%Z ->
         (forall k, (k < r)%nat -> retry_fails cholesky n M k) ->
         cholesky (plus_diagonal n M (nugget_at M r)) = Ok U ->
         _cholNugget cholesky v M maximum
         = (Msg (banner v) :: retry_lines M (S r),
            Ok (transpose U, nugget_at M r)))
  /\ ((forall k, (Z.of_nat k < maximum)%Z -> retry_fails cholesky n M k) ->
      _cholNugget cholesky v M maximum
      = (Msg (banner v) :: retry_lines M (Z.to_nat maximum), Raise still_not_pd))
  /\ (maximum = 0%Z ->
      _cholNugget cholesky v M maximum = ([Msg (banner v)], Raise still_not_pd)).
Proof.
  intros Hsq Hdirect.
  split; [apply nugget_at_0|].
  split; [intros k; reflexivity|].
  split; [|split].
  - intros r U Hr Hfail Hok.
    unfold _cholNugget. rewrite Hdirect.
    change (0 + Qabs (mean (diag M)) * (1 # 100000)) with (nugget_at M 0).
    change 0%Z with (Z.of_nat 0).
    rewrite (@retry_succeeds cholesky n M Hsq r (Z.to_nat maximum) 0%nat U).
    + reflexivity.
    + lia.
    + exact Hfail.
    + exact Hok.
  - intros Hfail.
    unfold _cholNugget. rewrite Hdirect.
    change (0 + Qabs (mean (diag M)) * (1 # 100000)) with (nugget_at M 0).
    change 0%Z with (Z.of_nat 0).
    rewrite (@retry_exhausts cholesky n M Hsq (Z.to_nat maximum) 0%nat).
    + reflexivity.
    + intros i Hi. apply Hfail. lia.
  - intros ->. unfold _cholNugget. rewrite Hdirect. reflexivity.
Qed.

Lemma cholNugget_retry_schedule_witness :
  has_shape 2 2 [[-1; 0]; [0; -1]]
  /\ _cholNugget chol_exact npvi [[-1; 0]; [0; -1]] 10
     = (Msg (banner npvi) :: retry_lines [[-1; 0]; [0; -1]] 7,
        Ok (transpose [[3; 0]; [0; 3]], nugget_at [[-1; 0]; [0; -1]] 6))
  /\ _cholNugget chol_exact npvi [[-1; 0]; [0; -1]] 3
     = (Msg (banner npvi) :: retry_lines [[-1; 0]; [0; -1]] 3, Raise still_not_pd)
  /\ _cholNugget chol_exact npvi [[-1; 0]; [0; -1]] 0
     = ([Msg (banner npvi)], Raise still_not_pd).
Proof.
  assert (Hshape : has_shape 2 2 [[-1; 0]; [0; -1]]).
  { split; [reflexivity|]. repeat constructor. }
  assert (Hdirect : chol_exact [[-1; 0]; [0; -1]]
                    = Raise (LinAlgError "leading minor not positive definite")).
  { vm_compute. reflexivity. }
  assert (Hfails : forall k, (k < 6)%nat ->
                             retry_fails chol_exact 2 [[-1; 0]; [0; -1]] k).
  { intros k Hk. exists "leading minor not positive definite"%string.
    do 6 (destruct k as [|k]; [vm_compute; reflexivity|]). lia. }
  split; [exact Hshape|].
  split; [|split].
  - apply (proj1 (proj2 (proj2
      (cholNugget_retry_schedule chol_exact npvi 10 Hshape Hdirect)))).
    + lia.
    + exact Hfails.
    + vm_compute. reflexivity.
  - apply (proj1 (proj2 (proj2 (proj2
      (cholNugget_retry_schedule chol_exact npvi 3 Hshape Hdirect))))).
    intros k Hk. apply Hfails. lia.
  - apply (proj2 (proj2 (proj2 (proj2
      (cholNugget_retry_schedule chol_exact npvi 0 Hshape Hdirect))))).
    reflexivity.
Defined.

(** C1 as stated fails: for the indefinite matrix [[1, 0], [0, -1]] the
    direct factorisation is refused and the retries run with nugget
    [|mean(1, -1)| * 1e-5 = 0], whereas the mean of the absolute diagonal
    values times 1e-5 is 1e-5. *)
Lemma cholNugget_nugget_not_mean_abs_diag :
  has_shape 2 2 [[1; 0]; [0; -1]]
  /\ chol_exact [[1; 0]; [0; -1]]
     = Raise (LinAlgError "leading minor not positive definite")
  /\ _cholNugget chol_exact npvi [[1; 0]; [0; -1]] 2
     = ([Msg (banner npvi); MsgRetry 1 (0 # 200000); MsgRetry 2 (0 # 200000)],
        Raise still_not_pd)
  /\ mean_abs_diag [[1; 0]; [0; -1]] * (1 # 100000) == 1 # 100000
  /\ ~ (0 # 200000) == mean_abs_diag [[1; 0]; [0; -1]] * (1 # 100000).
Proof.
  split; [split; [reflexivity|repeat constructor]|].
  split; [vm_compute; reflexivity|].
  split; [vm_compute; reflexivity|].
  split; [vm_compute; reflexivity|].
  vm_compute. discriminate.
Qed.

(** ** Positive-definite input *)

Lemma get_mx_tab_outside (r c : nat) (f : nat -> nat -> Q) (i j : nat) :
  (r <= i)%nat \/ (c <= j)%nat -> get (mx_tab r c f) i j = 0.
Proof.
  intros Hout. unfold get.
  destruct (Nat.lt_ge_cases i r) as [Hi|Hi].
  - unfold mx_tab.
    rewrite (nth_map_seq (fun i => map (fun j => f i j) (seq 0 c)) [] Hi).
    apply nth_overflow. rewrite length_map, length_seq. lia.
  - rewrite (nth_overflow (mx_tab r c f)); [destruct j; reflexivity|].
    fold (rows (mx_tab r c f)). rewrite rows_mx_tab. lia.
Qed.

Lemma dot_nil_l (v : vector) : dot [] v = 0.
Proof. reflexivity. Qed.

Lemma dot_cons (a b : Q) (u v : vector) :
  dot (a :: u) (b :: v) = a * b + dot u v.
Proof. reflexivity. Qed.

Lemma dot_comm (u v : vector) : dot u v == dot v u.
Proof.
  revert v. induction u as [|a u IH]; intros [|b v]; try reflexivity.
  rewrite !dot_cons, IH. ring.
Qed.

(** Against a basis vector laid out from index [s], the dot product
    picks one coordinate. *)
Lemma dot_basis (v : vector) (s i : nat) :
  dot v (map (fun k => if k =? i then 1 else 0) (seq s (length v)))
  == if (s <=? i) && (i <? s + length v) then nth (i - s) v 0 else 0.
Proof.
  revert s. induction v as [|a v IH]; intros s.
  - simpl. destruct ((s <=? i) && (i <? s + 0)) eqn:E; [|reflexivity].
    apply andb_prop in E. destruct E as [E1 E2].
    apply Nat.leb_le in E1. apply Nat.ltb_lt in E2. lia.
  - cbn [length seq map]. rewrite dot_cons, IH.
    destruct (Nat.eqb_spec s i) as [->|Hne].
    + replace (S i <=? i) with false by (symmetry; apply Nat.leb_gt; lia).
      rewrite Nat.leb_refl, Nat.sub_diag.
      replace (i <? i + S (length v)) with true
        by (symmetry; apply Nat.ltb_lt; lia).
      simpl. ring.
    + destruct (Nat.leb_spec s i) as [Hle|Hgt].
      * replace (S s <=? i) with true by (symmetry; apply Nat.leb_le; lia).
        replace (S s + length v)%nat with (s + S (length v))%nat by lia.
        destruct (i <? s + S (length v)); simpl.
        -- replace (i - s)%nat with (S (i - S s)) by lia. simpl. ring.
        -- ring.
      * replace (S s <=? i) with false by (symmetry; apply Nat.leb_gt; lia).
        simpl. ring.
Qed.

Lemma dot_unit_vector (v : vector) (n i : nat) :
  length v = n -> (i < n)%nat -> dot v (unit_vector n i) == nth i v 0.
Proof.
  intros <- Hi. unfold unit_vector. rewrite dot_basis.
  replace (i <? 0 + length v) with true by (symmetry; apply Nat.ltb_lt; lia).
  rewrite Nat.sub_0_r. reflexivity.
Qed.

Lemma length_unit_vector (n i : nat) : length (unit_vector n i) = n.
Proof. unfold unit_vector. rewrite length_map, length_seq. reflexivity. Qed.

Lemma nth_unit_vector_self (n i : nat) :
  (i < n)%nat -> nth i (unit_vector n i) 0 = 1.
Proof.
  intros Hi. unfold unit_vector.
  rewrite (nth_map_seq (fun k => if k =? i then 1 else 0) 0 Hi).
  rewrite Nat.eqb_refl. reflexivity.
Qed.

Lemma quadratic_form_unit (n : nat) (M : matrix) (i : nat) :
  has_shape n n M -> (i < n)%nat ->
  quadratic_form M (unit_vector n i) == get M i i.
Proof.
  intros [Hrows Hcols] Hi. unfold quadratic_form.
  rewrite dot_comm.
  assert (Hlen : length (map (fun row => dot row (unit_vector n i)) M) = n)
    by (rewrite length_map; exact Hrows).
  rewrite (dot_unit_vector _ Hlen Hi).
  change 0 with (dot [] (unit_vector n i)) at 1.
  rewrite (map_nth (fun row => dot row (unit_vector n i)) M [] i).
  assert (Hrow : length (nth i M []) = n).
  { rewrite Forall_forall in Hcols. apply Hcols. apply nth_In. lia. }
  rewrite (dot_unit_vector _ Hrow Hi).
  reflexivity.
Qed.

Lemma positive_definite_diag (n : nat) (M : matrix) (i : nat) :
  has_shape n n M -> positive_definite n M -> (i < n)%nat -> 0 < get M i i.
Proof.
  intros Hshape Hpd Hi.
  rewrite <- (quadratic_form_unit Hshape Hi).
  apply Hpd.
  - apply length_unit_vector.
  - exists i. rewrite nth_unit_vector_self by exact Hi. discriminate.
Qed.

Lemma sum_nonneg (d : vector) : Forall (fun x => 0 < x) d -> 0 <= sum d.
Proof.
  induction 1 as [|x d Hx _ IH]; simpl.
  - apply Qle_refl.
  - apply Qlt_le_weak in Hx.
    rewrite <- (Qplus_0_l 0). apply Qplus_le_compat; assumption.
Qed.

Lemma sum_abs_positive (d : vector) :
  Forall (fun x => 0 < x) d -> sum (map Qabs d) == sum d.
Proof.
  induction 1 as [|x d Hx _ IH]; simpl.
  - reflexivity.
  - rewrite IH, Qabs_pos by (apply Qlt_le_weak; exact Hx). reflexivity.
Qed.

Lemma abs_mean_positive (d : vector) :
  Forall (fun x => 0 < x) d -> Qabs (mean d) == mean (map Qabs d).
Proof.
  intros Hpos. unfold mean. rewrite length_map, (sum_abs_positive Hpos).
  apply Qabs_pos. unfold Qdiv.
  apply Qmult_le_0_compat; [apply sum_nonneg; exact Hpos|].
  apply Qinv_le_0_compat.
  change 0 with (inject_Z 0). rewrite <- Zle_Qle. lia.
Qed.

Lemma diag_square (n : nat) (M : matrix) :
  has_shape n n M -> diag M = map (fun i => get M i i) (seq 0 n).
Proof.
  intros H. destruct (has_shape_square_dims H) as [Hr Hc].
  unfold diag. rewrite Hr, Hc, Nat.min_id. reflexivity.
Qed.

Lemma transpose_square (n : nat) (U : matrix) :
  has_shape n n U -> transpose U = mx_tab n n (fun i j => get U j i).
Proof.
  intros H. destruct (has_shape_square_dims H) as [Hr Hc].
  unfold transpose. rewrite Hr, Hc. reflexivity.
Qed.

(** C2.  For every symmetric positive-definite [M] that the library
    factorisation accepts with its upper factor [U] ([U] upper
    triangular, [U^T U = M]), [_cholNugget M] returns from the direct
    attempt, having printed nothing and retried nothing: the pair
    [(L, nugget)] with [L = U^T] lower triangular, [L L^T = M] with
    nothing added to the diagonal, and [nugget] equal to the mean
    absolute diagonal value of [M] times 1e-5. *)
Theorem cholNugget_positive_definite
        (cholesky : matrix -> result matrix) (v : variant) (n : nat)
        (M : matrix) (maximum : Z) (U : matrix) :
  has_shape n n M ->
  symmetric M ->
  positive_definite n M ->
  cholesky M = Ok U ->
  has_shape n n U ->
  upper_triangular U ->
  same_entries n n (matmul (transpose U) U) M ->
  exists L nugget,
    _cholNugget cholesky v M maximum = ([], Ok (L, nugget))
    /\ L = transpose U
    /\ has_shape n n L
    /\ lower_triangular L
    /\ same_entries n n (matmul L (transpose L)) M
    /\ nugget == mean_abs_diag M * (1 # 100000).
Proof.
  intros HM _ Hpd Hchol HU Hupper Hfactor.
  exists (transpose U), (0 + Qabs (mean (diag M)) * (1 # 100000)).
  split; [unfold _cholNugget; rewrite Hchol; reflexivity|].
  split; [reflexivity|].
  rewrite (transpose_square HU).
  split; [apply has_shape_mx_tab|].
  split; [|split].
  - intros i j Hij.
    destruct (Nat.lt_ge_cases j n) as [Hj|Hj].
    + rewrite get_mx_tab by lia. apply Hupper. exact Hij.
    + rewrite get_mx_tab_outside by lia. reflexivity.
  - intros i j Hi Hj.
    rewrite <- (Hfactor i j Hi Hj). rewrite (transpose_square HU).
    unfold matmul. rewrite !rows_mx_tab.
    destruct (has_shape_square_dims HU) as [HUr HUc].
    assert (Hc : cols (mx_tab n n (fun i j => get U j i)) = n)
      by (apply cols_mx_tab; lia).
    assert (Hct : cols (transpose (mx_tab n n (fun i j => get U j i))) = n).
    { unfold transpose. rewrite Hc, rows_mx_tab. apply cols_mx_tab. lia. }
    rewrite Hct, HUc, !get_mx_tab by assumption. rewrite Hc.
    assert (Hsum : map (fun k => get (mx_tab n n (fun i0 j0 => get U j0 i0)) i k
                            * get (transpose (mx_tab n n (fun i0 j0 => get U j0 i0))) k j)
                       (seq 0 n)
                   = map (fun k => get (mx_tab n n (fun i0 j0 => get U j0 i0)) i k
                            * get U k j) (seq 0 n)).
    { apply map_ext_in. intros k Hk. apply in_seq in Hk. f_equal.
      unfold transpose. rewrite Hc, rows_mx_tab.
      rewrite !get_mx_tab by lia. reflexivity. }
    rewrite Hsum. reflexivity.
  - rewrite Qplus_0_l. unfold mean_abs_diag.
    rewrite abs_mean_positive; [reflexivity|].
    rewrite (diag_square HM). apply Forall_forall. intros x Hx.
    apply in_map_iff in Hx. destruct Hx as [i [<- Hi]]. apply in_seq in Hi.
    apply (positive_definite_diag HM Hpd). lia.
Qed.

Lemma cholNugget_positive_definite_witness :
  exists L nugget,
    _cholNugget chol_exact npvi [[4; 2]; [2; 5]] 10 = ([], Ok (L, nugget))
    /\ L = transpose [[2; 1]; [0; 2]]
    /\ has_shape 2 2 L
    /\ lower_triangular L
    /\ same_entries 2 2 (matmul L (transpose L)) [[4; 2]; [2; 5]]
    /\ nugget == mean_abs_diag [[4; 2]; [2; 5]] * (1 # 100000).
Proof.
  apply (@cholNugget_positive_definite chol_exact npvi 2
           [[4; 2]; [2; 5]] 10 [[2; 1]; [0; 2]]).
  - split; [reflexivity|repeat constructor].
  - intros i j.
    destruct i as [|[|[|i]]]; destruct j as [|[|[|j]]]; reflexivity.
  - intros x Hlen [i Hi].
    destruct x as [|a [|b [|c x]]]; try discriminate.
    unfold quadratic_form, dot. simpl.
    assert (Hab : ~ a == 0 \/ ~ b == 0).
    { destruct i as [|[|i]]; simpl in Hi.
      - left. exact Hi.
      - right. exact Hi.
      - exfalso. apply Hi. destruct i; reflexivity. }
    assert (Hsq : forall z : Q, ~ z == 0 -> 0 < z * z).
    { intros z Hz.
      destruct (Q_dec z 0) as [[Hneg|Hpos]|Heq]; [| |contradiction].
      - setoid_replace (z * z) with ((- z) * (- z)) by ring.
        apply Qmult_lt_0_compat; lra.
      - apply Qmult_lt_0_compat; exact Hpos. }
    assert (Hnn : forall z : Q, 0 <= z * z).
    { intros z. destruct (Qlt_le_dec z 0).
      - setoid_replace (z * z) with ((- z) * (- z)) by ring.
        apply Qmult_le_0_compat; lra.
      - apply Qmult_le_0_compat; assumption. }
    setoid_replace (a * (4 * a + (2 * b + 0)) + (b * (2 * a + (5 * b + 0)) + 0))
      with ((2 * a + b) * (2 * a + b) + 4 * (b * b)) by ring.
    destruct Hab as [Ha|Hb].
    + destruct (Q_dec b 0) as [[Hneg|Hpos]|Heq].
      * pose proof (Hsq b ltac:(lra)). pose proof (Hnn (2 * a + b)). lra.
      * pose proof (Hsq b ltac:(lra)). pose proof (Hnn (2 * a + b)). lra.
      * pose proof (Hsq (2 * a + b) ltac:(lra)). pose proof (Hnn b). lra.
    + pose proof (Hsq b Hb). pose proof (Hnn (2 * a + b)). lra.
  - vm_compute. reflexivity.
  - split; [reflexivity|repeat constructor].
  - intros i j Hij.
    destruct i as [|[|[|i]]]; destruct j as [|[|[|j]]]; try reflexivity; lia.
  - intros i j Hi Hj.
    destruct i as [|[|i]]; destruct j as [|[|j]]; try lia; vm_compute; reflexivity.
Defined.

(** ** Kernel matrices *)

Lemma cols_column (t : vector) : (0 < length t)%nat -> cols (column t) = 1%nat.
Proof. destruct t; simpl; [lia|reflexivity]. Qed.

Lemma get_column (t : vector) (i : nat) :
  (i < length t)%nat -> get (column t) i 0 = nth i t 0.
Proof.
  intros Hi. unfold get, column.
  rewrite (nth_indep _ [] [0]) by (rewrite length_map; exact Hi).
  rewrite (map_nth (fun x => [x]) t 0 i). reflexivity.
Qed.

Lemma outer_difference (t : vector) :
  sub (Mat (column t)) (Mat (row t)) = Ok (Mat (lag_matrix t)).
Proof.
  destruct (Nat.eq_dec (length t) 0) as [H0|Hpos].
  - destruct t; [reflexivity|discriminate].
  - unfold sub, elementwise, broadcast2. simpl view2.
    assert (Hrc : rows (column t) = length t) by apply length_map.
    rewrite Hrc, cols_column by lia.
    change (rows (row t)) with 1%nat. change (cols (row t)) with (length t).
    assert (Hb1 : bdim (length t) 1 = Some (length t)).
    { unfold bdim. destruct (Nat.eqb_spec (length t) 1) as [->|]; reflexivity. }
    assert (Hb2 : bdim 1 (length t) = Some (length t)).
    { unfold bdim. destruct (Nat.eqb_spec 1 (length t)) as [<-|]; reflexivity. }
    rewrite Hb1, Hb2. simpl. do 2 f_equal.
    apply mx_tab_ext. intros i j Hi Hj.
    rewrite (bidx_in_range Hi), (bidx_in_range Hj).
    change (bidx 1 j) with 0%nat. change (bidx 1 i) with 0%nat.
    rewrite get_column by exact Hi. reflexivity.
Qed.

Lemma ones_diagonal (n : nat) (f : nat -> nat -> Q) :
  diag (map (map (fun _ => 1)) (mx_tab n n f)) = map (fun _ => 1) (seq 0 n).
Proof.
  assert (Hones : map (map (fun _ : Q => 1)) (mx_tab n n f)
                  = mx_tab n n (fun _ _ => 1)).
  { unfold mx_tab. rewrite map_map. apply map_ext. intros i.
    rewrite map_map. reflexivity. }
  rewrite Hones. unfold diag. rewrite rows_mx_tab.
  destruct n as [|n]; [reflexivity|].
  rewrite cols_mx_tab, Nat.min_id by lia.
  apply map_ext_in. intros i Hi. apply in_seq in Hi.
  apply get_mx_tab; lia.
Qed.

Lemma add_same_shape (n : nat) (A B : matrix) :
  has_shape n n A -> has_shape n n B ->
  add (Mat A) (Mat B) = Ok (Mat (mx_tab n n (fun i j => get A i j + get B i j))).
Proof.
  intros HA HB.
  destruct (has_shape_square_dims HA) as [HAr HAc].
  destruct (has_shape_square_dims HB) as [HBr HBc].
  unfold add, elementwise, broadcast2. simpl view2.
  rewrite HAr, HAc, HBr, HBc, bdim_same. simpl. do 2 f_equal.
  apply mx_tab_ext. intros i j Hi Hj.
  rewrite !bidx_in_range by assumption. reflexivity.
Qed.

Lemma kernelMatrix_stationary (v : variant) (kernel : kernel) (time : vector)
      (K0 : matrix) :
  is_covL_or_covP kernel = false ->
  call_r kernel (Mat (lag_matrix time)) = Ok (Mat K0) ->
  has_shape (length time) (length time) K0 ->
  _kernelMatrix v kernel time
  = Ok (Mat (plus_diagonal (length time) K0 (regularization v))).
Proof.
  intros Hclass Hcall HK0.
  unfold _kernelMatrix. rewrite outer_difference. simpl bind.
  rewrite Hclass, Hcall. simpl bind.
  unfold lag_matrix. rewrite ones_diagonal.
  unfold diagflat. rewrite length_map, length_seq.
  unfold times. rewrite scale_mx_tab.
  rewrite (add_same_shape HK0 (has_shape_mx_tab _ _ _)).
  do 2 f_equal. unfold plus_diagonal.
  apply mx_tab_ext. intros i j Hi Hj.
  rewrite get_mx_tab by assumption.
  rewrite (nth_map_seq (fun _ => 1) 0 Hi). reflexivity.
Qed.

Lemma kernelMatrix_nonstationary (v : variant) (kernel : kernel) (time : vector) :
  is_covL_or_covP kernel = true ->
  _kernelMatrix v kernel time
  = call_t1_t2 kernel (Mat (column time)) (Mat (row time)).
Proof.
  intros Hclass. unfold _kernelMatrix.
  rewrite outer_difference. simpl bind. rewrite Hclass. reflexivity.
Qed.

(** C5 (as amended).  For every kernel that is neither Linear nor
    Polynomial and returns an N x N matrix [K0] on the lag matrix,
    [_kernelMatrix] returns [K0 + c*I], where [c] is a constant of the
    engine file (1e-5 in [npvi.py]) that does not depend on the diagonal
    of [K0]; for a Linear or Polynomial kernel it returns the kernel's
    value on the two raw time vectors with nothing added. *)
Theorem kernelMatrix_regularization
        (v : variant) (kernel : kernel) (time : vector) :
  (is_covL_or_covP kernel = false ->
   forall K0,
     call_r kernel (Mat (lag_matrix time)) = Ok (Mat K0) ->
     has_shape (length time) (length time) K0 ->
     _kernelMatrix v kernel time
     = Ok (Mat (plus_diagonal (length time) K0 (regularization v))))
  /\ (is_covL_or_covP kernel = true ->
      _kernelMatrix v kernel time
      = call_t1_t2 kernel (Mat (column time)) (Mat (row time)))
  /\ regularization npvi = 1 # 100000.
Proof.
  split; [|split; [|reflexivity]].
  - intros Hclass K0 Hcall HK0. apply kernelMatrix_stationary; assumption.
  - apply kernelMatrix_nonstationary.
Qed.

Lemma kernelMatrix_regularization_witness :
  _kernelMatrix npvi (rational_kernel 2) [1; 2]
  = Ok (Mat (plus_diagonal 2 [[4; 4 # 2]; [4 # 2; 4]] (1 # 100000)))
  /\ _kernelMatrix mfi_old (linear_kernel 0) [1; 2]
     = call_t1_t2 (linear_kernel 0) (Mat (column [1; 2])) (Mat (row [1; 2])).
Proof.
  split.
  - apply (proj1 (kernelMatrix_regularization npvi (rational_kernel 2) [1; 2])).
    + reflexivity.
    + vm_compute. reflexivity.
    + split; [reflexivity|repeat constructor].
  - apply (proj1 (proj2 (kernelMatrix_regularization mfi_old (linear_kernel 0) [1; 2]))).
    reflexivity.
Defined.

(** C5 as stated fails on three counts.  A Linear kernel receives no
    regularisation: its matrix is the raw evaluation, diagonal included.
    For a stationary kernel whose base diagonal is 4 the added term is
    1e-5, not 4e-5: it is absolute, not proportional to the base
    diagonal.  And the two engine files add different amounts, 1e-5 and
    1e-6. *)
Lemma kernelMatrix_regularization_not_uniform :
  (_kernelMatrix npvi (linear_kernel 0) [1; 2] = Ok (Mat [[1; 2]; [2; 4]])
   /\ call_t1_t2 (linear_kernel 0) (Mat (column [1; 2])) (Mat (row [1; 2]))
      = Ok (Mat [[1; 2]; [2; 4]]))
  /\ (exists base K K',
         call_r (rational_kernel 2) (Mat (lag_matrix [1; 2])) = Ok (Mat base)
         /\ _kernelMatrix npvi (rational_kernel 2) [1; 2] = Ok (Mat K)
         /\ _kernelMatrix mfi_old (rational_kernel 2) [1; 2] = Ok (Mat K')
         /\ get base 0 0 == 4
         /\ get K 0 0 - get base 0 0 == 1 # 100000
         /\ ~ get K 0 0 - get base 0 0 == get base 0 0 * (1 # 100000)
         /\ get K' 0 0 - get base 0 0 == 1 # 1000000
         /\ ~ get K 0 0 == get K' 0 0).
Proof.
  split.
  - split; vm_compute; reflexivity.
  - eexists. eexists. eexists.
    split; [vm_compute; reflexivity|].
    split; [vm_compute; reflexivity|].
    split; [vm_compute; reflexivity|].
    split; [vm_compute; reflexivity|].
    split; [vm_compute; reflexivity|].
    split; [vm_compute; discriminate|].
    split; [vm_compute; reflexivity|].
    vm_compute. discriminate.
Qed.

(** ** The block covariance matrix *)

Lemma set_block_tab (size n pos : nat) (f : nat -> nat -> Q) (K : matrix) :
  (pos + n <= size)%nat ->
  has_shape n n K ->
  set_block pos n (Mat K) (mx_tab size size f)
  = Ok (mx_tab size size
          (fun i j => if in_block pos n i j then get K (i - pos) (j - pos)
                      else f i j)).
Proof.
  intros Hfit HK. destruct (has_shape_square_dims HK) as [HKr HKc].
  unfold set_block. simpl view2. rewrite rows_mx_tab, HKr, HKc.
  assert (Hcols : cols (mx_tab size size f) = size).
  { destruct size as [|size]; [reflexivity|]. apply cols_mx_tab. lia. }
  rewrite Hcols.
  assert (Hsl : slice_len pos (pos + n) size = n).
  { unfold slice_len. rewrite !Nat.min_l by lia. lia. }
  rewrite Hsl, Nat.eqb_refl. simpl. f_equal.
  apply mx_tab_ext. intros i j Hi Hj. unfold in_block.
  destruct ((pos <=? i) && (i <? pos + n) && (pos <=? j) && (j <? pos + n)) eqn:E.
  - apply andb_prop in E. destruct E as [E E4].
    apply andb_prop in E. destruct E as [E E3].
    apply andb_prop in E. destruct E as [E1 E2].
    apply Nat.leb_le in E1, E3. apply Nat.ltb_lt in E2, E4.
    rewrite !bidx_in_range by lia. reflexivity.
  - apply get_mx_tab; assumption.
Qed.

Lemma in_block_true (pos n i j : nat) :
  in_block pos n i j = true
  <-> (pos <= i < pos + n)%nat /\ (pos <= j < pos + n)%nat.
Proof.
  unfold in_block. rewrite !andb_true_iff, !Nat.leb_le, !Nat.ltb_lt. lia.
Qed.

Lemma in_block_false (pos n i j : nat) :
  ~ ((pos <= i < pos + n)%nat /\ (pos <= j < pos + n)%nat) ->
  in_block pos n i j = false.
Proof.
  intros H. destruct (in_block pos n i j) eqn:E; [|reflexivity].
  apply in_block_true in E. contradiction.
Qed.

Lemma block_diag_entry_app (n : nat) (Ks : list matrix) (K : matrix)
      (pos i j : nat) :
  block_diag_entry n (Ks ++ [K]) pos i j
  = if in_block (pos + length Ks * n) n i j
    then get K (i - (pos + length Ks * n)) (j - (pos + length Ks * n))
    else block_diag_entry n Ks pos i j.
Proof.
  revert pos. induction Ks as [|K1 Ks IH]; intros pos.
  - simpl. rewrite Nat.add_0_r. reflexivity.
  - cbn [app block_diag_entry length]. rewrite IH.
    replace (pos + n + length Ks * n)%nat with (pos + S (length Ks) * n)%nat by lia.
    destruct (in_block pos n i j) eqn:E1;
      destruct (in_block (pos + S (length Ks) * n) n i j) eqn:E2;
      try reflexivity.
    apply in_block_true in E1. apply in_block_true in E2. simpl in E2. nia.
Qed.

Lemma block_diag_entry_inside (n : nat) (Ks : list matrix) :
  forall (pos b a c : nat),
    (b < length Ks)%nat -> (a < n)%nat -> (c < n)%nat ->
    block_diag_entry n Ks pos (pos + b * n + a) (pos + b * n + c)
    = get (nth b Ks []) a c.
Proof.
  induction Ks as [|K Ks IH]; intros pos b a c Hb Ha Hc; [simpl in Hb; lia|].
  cbn [block_diag_entry]. destruct b as [|b].
  - replace (in_block pos n (pos + 0 * n + a) (pos + 0 * n + c)) with true
      by (symmetry; apply in_block_true; lia).
    simpl. f_equal; lia.
  - rewrite in_block_false by nia.
    replace (pos + S b * n + a)%nat with (pos + n + b * n + a)%nat by lia.
    replace (pos + S b * n + c)%nat with (pos + n + b * n + c)%nat by lia.
    apply IH; simpl in Hb; lia.
Qed.

Lemma block_diag_entry_zero (n : nat) (Ks : list matrix) :
  forall (pos i j : nat),
    (forall k, (k < length Ks)%nat -> in_block (pos + k * n) n i j = false) ->
    block_diag_entry n Ks pos i j = 0.
Proof.
  induction Ks as [|K Ks IH]; intros pos i j Hout; [reflexivity|].
  cbn [block_diag_entry].
  pose proof (Hout 0%nat ltac:(simpl; lia)) as H0.
  rewrite Nat.add_0_r in H0. rewrite H0.
  apply IH. intros k Hk.
  replace (pos + n + k * n)%nat with (pos + S k * n)%nat by lia.
  apply Hout. simpl. lia.
Qed.

Lemma same_block (n k b a : nat) :
  (a < n)%nat -> (k * n <= b * n + a < k * n + n)%nat -> b = k.
Proof.
  intros Ha H.
  destruct (Nat.lt_trichotomy b k) as [Hlt|[Heq|Hgt]]; [|exact Heq|].
  - assert (S b * n <= k * n)%nat by (apply Nat.mul_le_mono_r; lia).
    simpl in *. lia.
  - assert (S k * n <= b * n)%nat by (apply Nat.mul_le_mono_r; lia).
    simpl in *. lia.
Qed.

Lemma block_diag_entry_outside (n : nat) (Ks : list matrix)
      (pos b b' a c : nat) :
  b <> b' -> (a < n)%nat -> (c < n)%nat ->
  block_diag_entry n Ks pos (pos + b * n + a) (pos + b' * n + c) = 0.
Proof.
  intros Hne Ha Hc. apply block_diag_entry_zero. intros k _.
  apply in_block_false. intros [Hi Hj].
  assert (b = k) by (apply (@same_block n k b a); lia).
  assert (b' = k) by (apply (@same_block n k b' c); lia).
  congruence.
Qed.

Lemma Forall2_nth_error {A B : Type} (R : A -> B -> Prop) (xs : list A)
      (ys : list B) (i : nat) (x : A) :
  Forall2 R xs ys -> nth_error xs i = Some x ->
  exists y, nth_error ys i = Some y /\ R x y.
Proof.
  intros H. revert i. induction H as [|a b xs ys Hab _ IH]; intros i Hi.
  - destruct i; discriminate.
  - destruct i as [|i]; simpl in *.
    + inversion Hi; subst. exists b. split; [reflexivity|exact Hab].
    + apply IH. exact Hi.
Qed.

Lemma firstn_snoc {A : Type} (xs : list A) (i : nat) (x : A) :
  nth_error xs i = Some x -> firstn (S i) xs = firstn i xs ++ [x].
Proof.
  revert i. induction xs as [|a xs IH]; intros i Hi.
  - destruct i; discriminate.
  - destruct i as [|i]; simpl in *.
    + inversion Hi. reflexivity.
    + f_equal. apply IH. exact Hi.
Qed.

Section BlockCovariance.

Variable v : variant.
Variable nodes : list kernel.
Variable time : vector.
Variable Kn : list matrix.
Variable size : nat.

Hypothesis nodes_evaluate : Forall2 (evaluates_to v time) nodes Kn.

Lemma node_loop (m : nat) :
  forall s,
    (s + m <= length nodes)%nat ->
    ((s + m) * length time <= size)%nat ->
    for_each (seq s m) (place_node v nodes time)
             (mx_tab size size (block_diag_entry (length time) (firstn s Kn) 0),
              (s * length time)%nat)
    = Ok (mx_tab size size
            (block_diag_entry (length time) (firstn (s + m) Kn) 0),
          ((s + m) * length time)%nat).
Proof.
  induction m as [|m IH]; intros s Hlen Hfit.
  - rewrite Nat.add_0_r. reflexivity.
  - cbn [seq for_each]. unfold place_node at 1.
    destruct (nth_error nodes s) as [node|] eqn:Hnode;
      [|apply nth_error_None in Hnode; lia].
    unfold getitem. rewrite Hnode. cbn [bind].
    destruct (Forall2_nth_error s nodes_evaluate Hnode) as [K [HK [Heval Hshape]]].
    rewrite Heval. cbn [bind].
    rewrite (@set_block_tab size (length time) (s * length time) _ K)
      by (assumption || nia).
    cbn [bind].
    replace (s * length time + length time)%nat with (S s * length time)%nat
      by lia.
    replace (s + S m)%nat with (S s + m)%nat by lia.
    rewrite <- IH by lia.
    f_equal. f_equal.
    apply mx_tab_ext. intros i j _ _.
    rewrite (@firstn_snoc _ Kn s K HK), block_diag_entry_app.
    assert (Hl : length (firstn s Kn) = s).
    { rewrite length_firstn. apply Nat.min_l.
      apply Nat.lt_le_incl. apply nth_error_Some. rewrite HK. discriminate. }
    rewrite Hl. reflexivity.
Qed.

End BlockCovariance.

Lemma weight_loop (time : vector) (size : nat) (Kw : matrix) (B : list matrix)
      (m : nat) :
  has_shape (length time) (length time) Kw ->
  forall s j,
    ((length B + j + m) * length time <= size)%nat ->
    for_each (seq s m) (place_weight time (Mat Kw))
             (mx_tab size size
                (block_diag_entry (length time) (B ++ repeat Kw j) 0),
              ((length B + j) * length time)%nat)
    = Ok (mx_tab size size
            (block_diag_entry (length time) (B ++ repeat Kw (j + m)) 0),
          ((length B + j + m) * length time)%nat).
Proof.
  intros HKw. induction m as [|m IH]; intros s j Hfit.
  - rewrite !Nat.add_0_r. reflexivity.
  - cbn [seq for_each]. unfold place_weight at 1.
    rewrite (@set_block_tab size (length time) ((length B + j) * length time) _ Kw)
      by (assumption || nia).
    cbn [bind].
    replace ((length B + j) * length time + length time)%nat
      with ((length B + S j) * length time)%nat by lia.
    replace (length B + j + S m)%nat with (length B + S j + m)%nat by lia.
    replace (j + S m)%nat with (S j + m)%nat by lia.
    rewrite <- (IH (S s) (S j)) by lia.
    f_equal. f_equal.
    apply mx_tab_ext. intros i k _ _.
    cbn [repeat]. rewrite repeat_cons, app_assoc, block_diag_entry_app.
    rewrite length_app, repeat_length. reflexivity.
Qed.

(** C4.  For [q] node kernels, one weight kernel and a time vector of
    length [N], each kernel evaluating to an N x N matrix, [_CB_matrix]
    returns a square matrix of size [N*q*(p+1)]; its first [q] diagonal
    N x N blocks are the matrices of the node kernels in node order, its
    remaining [q*p] diagonal blocks are all the weight kernel's matrix,
    and every entry outside the diagonal blocks is exactly zero. *)
Theorem CB_matrix_block_diagonal
        (v : variant) (self : inference) (nodes : list kernel)
        (weight : kernel) (time : vector) (Kn : list matrix) (Kw : matrix) :
  length nodes = Self.q self ->
  Self.qp self = (Self.q self * Self.p self)%nat ->
  Forall2 (evaluates_to v time) nodes Kn ->
  evaluates_to v time weight Kw ->
  exists CB,
    _CB_matrix v self nodes weight time = Ok CB
    /\ has_shape (length time * Self.q self * (Self.p self + 1))
                 (length time * Self.q self * (Self.p self + 1)) CB
    /\ (forall b a c,
           (b < Self.q self)%nat -> (a < length time)%nat -> (c < length time)%nat ->
           get CB (b * length time + a) (b * length time + c)
           = get (nth b Kn []) a c)
    /\ (forall b a c,
           (Self.q self <= b < Self.q self + Self.q self * Self.p self)%nat ->
           (a < length time)%nat -> (c < length time)%nat ->
           get CB (b * length time + a) (b * length time + c) = get Kw a c)
    /\ (forall b b' a c,
           (b < Self.q self + Self.q self * Self.p self)%nat ->
           (b' < Self.q self + Self.q self * Self.p self)%nat ->
           b <> b' ->
           (a < length time)%nat -> (c < length time)%nat ->
           get CB (b * length time + a) (b' * length time + c) = 0).
Proof.
  intros Hq Hqp Hnodes [Hweight HKw].
  set (N := length time). set (size := (N * Self.q self * (Self.p self + 1))%nat).
  assert (HlenKn : length Kn = Self.q self).
  { rewrite <- Hq. symmetry. apply (Forall2_length Hnodes). }
  exists (mx_tab size size
            (block_diag_entry N (Kn ++ repeat Kw (Self.q self * Self.p self)) 0)).
  assert (Hin : forall b a, (b < Self.q self + Self.q self * Self.p self)%nat ->
                            (a < N)%nat -> (b * N + a < size)%nat).
  { intros b a Hb Ha. unfold size.
    replace (N * Self.q self * (Self.p self + 1))%nat
      with ((Self.q self + Self.q self * Self.p self) * N)%nat by lia.
    assert (S b * N <= (Self.q self + Self.q self * Self.p self) * N)%nat
      by (apply Nat.mul_le_mono_r; lia).
    simpl in *. lia. }
  split; [|split; [apply has_shape_mx_tab|split; [|split]]].
  - clear Hin. subst N size. unfold _CB_matrix.
    set (size := (length time * Self.q self * (Self.p self + 1))%nat).
    change (zeros size size, 0%nat)
      with (mx_tab size size (block_diag_entry (length time) (firstn 0 Kn) 0),
            (0 * length time)%nat).
    rewrite (@node_loop v nodes time Kn size Hnodes (Self.q self) 0%nat)
      by (unfold size; nia).
    cbn [bind]. rewrite Hweight. cbn [bind].
    rewrite Hqp, Nat.add_0_l, <- HlenKn, firstn_all.
    replace (block_diag_entry (length time) Kn 0)
      with (block_diag_entry (length time) (Kn ++ repeat Kw 0) 0)
      by (simpl; rewrite app_nil_r; reflexivity).
    replace (length Kn * length time)%nat
      with ((length Kn + 0) * length time)%nat by lia.
    rewrite (@weight_loop time size Kw Kn (length Kn * Self.p self) HKw 0%nat 0%nat)
      by (unfold size; rewrite HlenKn; nia).
    reflexivity.
  - intros b a c Hb Ha Hc.
    rewrite get_mx_tab by (apply Hin; lia).
    rewrite (@block_diag_entry_inside N _ 0%nat b a c)
      by (try assumption; rewrite length_app, repeat_length; lia).
    rewrite app_nth1 by lia. reflexivity.
  - intros b a c Hb Ha Hc.
    rewrite get_mx_tab by (apply Hin; lia).
    rewrite (@block_diag_entry_inside N _ 0%nat b a c)
      by (try assumption; rewrite length_app, repeat_length; lia).
    rewrite app_nth2 by lia. rewrite nth_repeat_lt by lia. reflexivity.
  - intros b b' a c Hb Hb' Hne Ha Hc.
    rewrite get_mx_tab by (apply Hin; lia).
    apply (@block_diag_entry_outside N _ 0%nat b b' a c); assumption.
Qed.

Lemma CB_matrix_block_diagonal_witness :
  exists CB,
    _CB_matrix npvi example_engine example_nodes example_weight example_time
    = Ok CB
    /\ has_shape 8 8 CB
    /\ (forall b a c,
           (b < 2)%nat -> (a < 2)%nat -> (c < 2)%nat ->
           get CB (b * 2 + a) (b * 2 + c) = get (nth b example_Kn []) a c)
    /\ (forall b a c,
           (2 <= b < 2 + 2 * 1)%nat -> (a < 2)%nat -> (c < 2)%nat ->
           get CB (b * 2 + a) (b * 2 + c) = get example_Kw a c)
    /\ (forall b b' a c,
           (b < 2 + 2 * 1)%nat -> (b' < 2 + 2 * 1)%nat -> b <> b' ->
           (a < 2)%nat -> (c < 2)%nat ->
           get CB (b * 2 + a) (b' * 2 + c) = 0).
Proof.
  apply (@CB_matrix_block_diagonal npvi example_engine example_nodes
           example_weight example_time example_Kn example_Kw).
  - reflexivity.
  - reflexivity.
  - repeat constructor; vm_compute; reflexivity.
  - split; [vm_compute; reflexivity|]. repeat constructor.
Defined.

(** ** Prediction-time kernel evaluation *)

(** A white-noise kernel yields zeros against the training times. *)
Lemma predictKernelMatrix_white_noise (self : inference) (kernel : kernel)
      (time : query) :
  is_covWN kernel = true ->
  _predictKernelMatrix self kernel time
  = Ok (Vec (map (fun _ => 0) (Self.time self))).
Proof.
  intros Hwn. unfold _predictKernelMatrix.
  assert (Hlp : is_covL_or_covP kernel = false).
  { unfold is_covL_or_covP, is_covWN in *. destruct (kclass kernel);
      (reflexivity || discriminate). }
  rewrite Hlp, Hwn. simpl. rewrite map_map. reflexivity.
Qed.

(** C8, evaluated on the code.  For a Linear or Polynomial kernel the
    value computed from the two raw time vectors is assigned to [K] and
    then replaced: the function goes on to build the lag array and
    returns (or raises) whatever [kernel(r)] gives on it. *)
Theorem predictKernelMatrix_nonstationary_overwritten
        (self : inference) (kernel : kernel) (time : query) (raw : array) :
  is_covL_or_covP kernel = true ->
  call_t1_t2 kernel (to_array time) (Mat (row (Self.time self))) = Ok raw ->
  _predictKernelMatrix self kernel time
  = (r <- predict_lag self time ;; call_r kernel r).
Proof.
  intros Hlp Hraw. unfold _predictKernelMatrix.
  assert (Hwn : is_covWN kernel = false).
  { unfold is_covL_or_covP, is_covWN in *. destruct (kclass kernel);
      (reflexivity || discriminate). }
  rewrite Hlp, Hraw, Hwn. cbn [bind]. fold (predict_lag self time).
  destruct (predict_lag self time) as [r|e]; [|reflexivity].
  cbn [bind]. destruct (call_r kernel r); reflexivity.
Qed.

Lemma predictKernelMatrix_nonstationary_overwritten_witness :
  call_t1_t2 (linear_kernel 0) (Scalar 3) (Mat (row (Self.time example_engine)))
  = Ok (Mat [[0; 3]])
  /\ _predictKernelMatrix example_engine (linear_kernel 0) (One 3)
     = (r <- predict_lag example_engine (One 3) ;; call_r (linear_kernel 0) r)
  /\ _predictKernelMatrix example_engine (linear_kernel 0) (One 3)
     = Raise missing_arguments.
Proof.
  split; [vm_compute; reflexivity|].
  split; [|vm_compute; reflexivity].
  apply (@predictKernelMatrix_nonstationary_overwritten
           example_engine (linear_kernel 0) (One 3) (Mat [[0; 3]])).
  - reflexivity.
  - vm_compute. reflexivity.
Defined.

(** ** The constructor *)

(** C9, evaluated on the code.  Two outputs declared through [means],
    three data arrays supplied, two observation times: the constructor
    fails inside [reshape], before either of its own checks runs. *)
Theorem init_three_arrays_fails_in_reshape :
  __init__ example_nodes example_weight [None; None] [0; 0] example_time
           [[1; 2]; [1 # 10; 1 # 10]; [3; 4]]
  = Raise (ValueError "cannot reshape array").
Proof. vm_compute. reflexivity. Qed.

(** A means list of the wrong length does reach the first check. *)
Lemma init_wrong_means_fails_assertion :
  __init__ example_nodes example_weight [None; None; None] [0; 0] example_time
           [[1; 2]; [1 # 10; 1 # 10]; [3; 4]; [1 # 10; 1 # 10]]
  = Raise (AssertionError
             "The numbers of means should be equal to the number of components").
Proof. vm_compute. reflexivity. Qed.

Lemma last_index_length (args : list vector) (i : nat) :
  last_index args = Ok i -> length args = S i.
Proof.
  destruct args as [|a rest]; simpl; intros H; [discriminate|].
  inversion H. reflexivity.
Qed.

(** Whatever the failure, a mismatched call never yields an engine. *)
Lemma init_rejects_mismatch (nodes : list kernel) (weight : kernel)
      (means : list mean_function) (jitters time : vector)
      (args : list vector) (self : inference) :
  __init__ nodes weight means jitters time args = Ok self ->
  length args = (2 * length means)%nat.
Proof.
  unfold __init__.
  destruct (split_args 0 args) as [ys yerrs].
  destruct (array2 ys) as [ys_arr|]; [|discriminate]. cbn [bind].
  destruct (reshape2 _ _ (concat ys_arr)); [|discriminate]. cbn [bind].
  destruct (array2 yerrs) as [yerrs_arr|]; [|discriminate]. cbn [bind].
  destruct (reshape2 _ _ (concat yerrs_arr)); [|discriminate]. cbn [bind].
  unfold assert.
  destruct (Nat.eqb_spec (length means) (length args / 2)) as [Hm|];
    [|discriminate].
  cbn [bind].
  destruct (last_index args) as [i|] eqn:Hi; [|discriminate]. cbn [bind].
  apply last_index_length in Hi.
  destruct (Qeq_bool _ _) eqn:Hq; [|discriminate].
  intros _. apply Qeq_bool_eq in Hq.
  assert (Hz : (Z.of_nat i + 1 = 2 * Z.of_nat (length args / 2))%Z).
  { assert (H2 : inject_Z (Z.of_nat i) + 1
                 == 2 * inject_Z (Z.of_nat (length args / 2))).
    { rewrite <- Hq. field. }
    unfold Qeq in H2. cbn [Qnum Qden Qplus Qmult inject_Z] in H2. lia. }
  lia.
Qed.

(** What a successful construction records. *)
Lemma init_fields (nodes : list kernel) (weight : kernel)
      (means : list mean_function) (jitters time : vector)
      (args : list vector) (self : inference) :
  __init__ nodes weight means jitters time args = Ok self ->
  Self.q self = length nodes
  /\ Self.p self = (length args / 2)%nat
  /\ Self.qp self = (Self.q self * Self.p self)%nat
  /\ Self.N self = length time
  /\ Self.time self = time
  /\ has_shape (Self.p self) (Self.N self) (Self.y self)
  /\ has_shape (Self.p self) (Self.N self) (Self.yerr self).
Proof.
  unfold __init__.
  destruct (split_args 0 args) as [ys yerrs].
  destruct (array2 ys) as [ys_arr|]; [|discriminate]. cbn [bind].
  unfold reshape2.
  destruct (length (concat ys_arr) =? _); [|discriminate]. cbn [bind].
  destruct (array2 yerrs) as [yerrs_arr|]; [|discriminate]. cbn [bind].
  destruct (length (concat yerrs_arr) =? _); [|discriminate]. cbn [bind].
  destruct (assert _ _); [|discriminate]. cbn [bind].
  destruct (last_index args); [|discriminate]. cbn [bind].
  destruct (assert _ _); [|discriminate]. cbn [bind].
  intros H. inversion H; subst. cbn.
  repeat split; try reflexivity; apply has_shape_mx_tab.
Qed.

Lemma split_args_values (args : list vector) :
  forall i len,
    Forall (fun a => length a = len) args ->
    Forall (fun a => length a = len) (fst (split_args i args))
    /\ length (fst (split_args i args))
       = (if Nat.even i then (length args + 1) / 2 else length args / 2)%nat.
Proof.
  induction args as [|a args IH]; intros i len Hall.
  - split; [constructor|]. simpl. destruct (Nat.even i); reflexivity.
  - inversion Hall as [|? ? Ha Hrest]; subst.
    destruct (IH (S i) (length a) Hrest) as [IHall IHlen].
    cbn [split_args]. destruct (split_args (S i) args) as [ys yerrs].
    cbn [fst] in *. rewrite Nat.even_succ in IHlen.
    destruct (Nat.even i) eqn:Hev.
    + rewrite <- Nat.negb_even, Hev in IHlen. cbn [negb] in IHlen.
      cbn [fst]. split; [constructor; [reflexivity|exact IHall]|].
      cbn [length]. rewrite IHlen.
      replace (S (length args) + 1)%nat with (length args + 1 * 2)%nat by lia.
      rewrite Nat.div_add by lia. lia.
    + rewrite <- Nat.negb_even, Hev in IHlen. cbn [negb] in IHlen.
      cbn [fst]. split; [exact IHall|].
      rewrite IHlen. cbn [length].
      replace (S (length args)) with (length args + 1)%nat by lia.
      reflexivity.
Qed.

Lemma same_length_uniform (xs : list vector) (len : nat) :
  Forall (fun a => length a = len) xs -> same_length xs = true.
Proof.
  intros H. destruct xs as [|x xs]; [reflexivity|].
  inversion H as [|? ? Hx Hxs]; subst. simpl.
  apply forallb_forall. intros a Ha.
  rewrite Forall_forall in Hxs. rewrite (Hxs a Ha). apply Nat.eqb_refl.
Qed.

Lemma length_concat_uniform (xs : list vector) (len : nat) :
  Forall (fun a => length a = len) xs ->
  length (concat xs) = (length xs * len)%nat.
Proof.
  induction 1 as [|x xs Hx _ IH]; [reflexivity|].
  simpl. rewrite length_app, IH, Hx. reflexivity.
Qed.

(** The failure of C9 is systematic: with an odd number of data arrays,
    all as long as a non-empty time vector, the constructor always stops
    in [reshape]. *)
Lemma init_odd_data_fails_in_reshape (nodes : list kernel) (weight : kernel)
      (means : list mean_function) (jitters time : vector)
      (args : list vector) :
  Nat.odd (length args) = true ->
  (0 < length time)%nat ->
  Forall (fun a => length a = length time) args ->
  __init__ nodes weight means jitters time args
  = Raise (ValueError "cannot reshape array").
Proof.
  intros Hodd Hpos Hall. unfold __init__.
  destruct (split_args_values 0 Hall) as [Hys Hlen].
  destruct (split_args 0 args) as [ys yerrs]. cbn [fst] in *.
  unfold array2. rewrite (same_length_uniform Hys). cbn [bind].
  unfold reshape2. rewrite (length_concat_uniform Hys), Hlen. cbn [Nat.even].
  assert (Hne : ((length args + 1) / 2 * length time
                 =? length args / 2 * length time) = false).
  { apply Nat.eqb_neq.
    apply Nat.odd_spec in Hodd. destruct Hodd as [m Hm].
    rewrite Hm.
    replace (2 * m + 1 + 1)%nat with ((m + 1) * 2)%nat by lia.
    rewrite Nat.div_mul by lia.
    replace (2 * m + 1)%nat with (1 + m * 2)%nat by lia.
    rewrite Nat.div_add by lia. simpl. nia. }
  rewrite Hne. reflexivity.
Qed.

(** ** Reconstructing the outputs *)

(** C10.  Whenever the contraction of the weights with the nodes and
    its reshape to p x N go through, [get_y(n, w, time)] with [means]
    left as [None], or given any falsy value, returns [time] itself; the
    contraction has been computed and is dropped. *)
Theorem get_y_without_means
        (einsum_ij_jk_ik : ndarray -> ndarray -> result ndarray)
        (self : inference) (n w : ndarray) (time : vector)
        (means : py_means) (prod : ndarray) :
  einsum_ij_jk_ik w n = Ok prod ->
  length (data prod) = (Self.p self * length time)%nat ->
  truth means = Ok false ->
  get_y einsum_ij_jk_ik self n w time means = Ok (Vec time).
Proof.
  intros Hprod Hsize Hfalsy. unfold get_y.
  rewrite Hprod. cbn [bind]. unfold reshape2.
  rewrite Hsize, Nat.eqb_refl. cbn [bind].
  rewrite Hfalsy. reflexivity.
Qed.

Lemma get_y_without_means_witness :
  get_y einsum_rank3 example_engine
        (NdArray [1%nat; 1%nat; 2%nat] [3; 4])
        (NdArray [1%nat; 1%nat; 2%nat] [5; 6])
        [0; 1] PyNone
  = Ok (Vec [0; 1]).
Proof.
  apply (@get_y_without_means einsum_rank3 example_engine
           (NdArray [1%nat; 1%nat; 2%nat] [3; 4])
           (NdArray [1%nat; 1%nat; 2%nat] [5; 6])
           [0; 1] PyNone (NdArray [1%nat; 1%nat; 2%nat] [15; 24])).
  - vm_compute. reflexivity.
  - reflexivity.
  - reflexivity.
Defined.

(** The contraction is evaluated before [means] is looked at: its
    exception is the call's exception. *)
Lemma get_y_contraction_runs_first
      (einsum_ij_jk_ik : ndarray -> ndarray -> result ndarray)
      (self : inference) (n w : ndarray) (time : vector)
      (means : py_means) (e : exn) :
  einsum_ij_jk_ik w n = Raise e ->
  get_y einsum_ij_jk_ik self n w time means = Raise e.
Proof. intros H. unfold get_y. rewrite H. reflexivity. Qed.

(** So is the reshape to p x N: a product with any other number of
    entries ends the call, whatever [means] is. *)
Lemma get_y_reshape_runs_first
      (einsum_ij_jk_ik : ndarray -> ndarray -> result ndarray)
      (self : inference) (n w : ndarray) (time : vector)
      (means : py_means) (prod : ndarray) :
  einsum_ij_jk_ik w n = Ok prod ->
  length (data prod) <> (Self.p self * length time)%nat ->
  get_y einsum_ij_jk_ik self n w time means
  = Raise (ValueError "cannot reshape array").
Proof.
  intros Hprod Hsize. unfold get_y. rewrite Hprod. cbn [bind].
  unfold reshape2. apply Nat.eqb_neq in Hsize. rewrite Hsize. reflexivity.
Qed.

Lemma truth_none : truth PyNone = Ok false.
Proof. reflexivity. Qed.

Lemma truth_empty_list : truth (PyList []) = Ok false.
Proof. reflexivity. Qed.

(** ** The error term of the mean-field engine *)

(** C3, evaluated on the code.  In the prelude shared by
    [_updateSigmaMu_new] and [_expectedLogLike_new] the aggregate of
    jitters and measurement errors is computed and then overwritten:
    [error_term] is 1 for every engine and every jitter vector, so the
    expected log-likelihood does not depend on the jitters.  On an engine
    with one output, error 3 and jitter 4 the aggregate is 7. *)
Theorem error_term_is_one :
  (forall (sqrt : Q -> Q) (self : inference) (jitters : vector),
      Mfi_old.error_term sqrt self jitters = 1)
  /\ (forall (sqrt : Q -> Q) (self : inference) (nodes weight : list kernel)
             (means : list mean_function) (jitters jitters' : vector)
             (sigma_f : list matrix) (mu_f : ndarray)
             (sigma_w : list (list matrix)) (mu_w : ndarray),
         Mfi_old._expectedLogLike_new sqrt self nodes weight means jitters
                                      sigma_f mu_f sigma_w mu_w
         = Mfi_old._expectedLogLike_new sqrt self nodes weight means jitters'
                                        sigma_f mu_f sigma_w mu_w)
  /\ Mfi_old.noise_aggregate sqrt_exact noisy_engine [4] == 7
  /\ Mfi_old.error_term sqrt_exact noisy_engine [4] = 1.
Proof.
  split; [reflexivity|].
  split; [reflexivity|].
  split; [vm_compute; reflexivity|reflexivity].
Qed.

(** ** The loop of the mixture engine *)

Section MixtureLoop.

Variable _expectedLogJoint :
  inference -> list kernel -> list kernel -> list mean_function -> vector ->
  list ndarray -> list ndarray -> vector -> nat -> result Q.
Variable _entropy :
  inference -> list ndarray -> list ndarray -> vector -> nat -> result Q.
Variable minimize : Q -> vector -> result vector.
Variable randn : nat -> nat -> list vector.

Variable self : inference.
Variables nodes weight : list kernel.
Variable means : list mean_function.
Variable jitters : vector.
Variables muF muW : list ndarray.
Variables sigma mu : vector.
Variable k : nat.
Variable iterations : Z.

Lemma npvi_while_never_returns (fuel : nat) :
  forall (ExpLogJoint : option Q) (value : Q),
    (0 < iterations)%Z \/ ExpLogJoint = None ->
    snd (Npvi.npvi_while _expectedLogJoint _entropy minimize fuel self nodes
           weight means jitters muF muW sigma mu k 0 iterations ExpLogJoint)
    <> Finished (Ok value).
Proof.
  induction fuel as [|fuel IH]; intros ExpLogJoint value Hcase.
  - discriminate.
  - cbn [Npvi.npvi_while].
    destruct (Z.ltb_spec 0 iterations) as [Hpos|Hneg].
    + destruct (joint <- _ ;; _) as [[joint ent]|e]; [|discriminate].
      specialize (IH (Some joint) value (or_introl Hpos)).
      destruct (Npvi.npvi_while _ _ _ _ _ _ _ _ _ _ _ _ _ _ _ _ _).
      exact IH.
    + destruct Hcase as [Hpos| ->]; [lia|]. discriminate.
Qed.

Lemma npvi_while_no_budget (fuel : nat) :
  (iterations <= 0)%Z ->
  Npvi.npvi_while _expectedLogJoint _entropy minimize (S fuel) self nodes
    weight means jitters muF muW sigma mu k 0 iterations None
  = ([], Finished (Raise (UnboundLocalError "ExpLogJoint"))).
Proof.
  intros Hneg. cbn [Npvi.npvi_while].
  destruct (Z.ltb_spec 0 iterations); [lia|reflexivity].
Qed.

(** With a positive budget and routines that return, the loop is
    still turning however long it is given. *)
Lemma npvi_while_diverges (fuel : nat) :
  forall (ExpLogJoint : option Q),
    (0 < iterations)%Z ->
    (exists joint,
        _expectedLogJoint self nodes weight means jitters muF muW sigma k
        = Ok joint) ->
    (exists ent, _entropy self muF muW sigma k = Ok ent) ->
    (forall ELBO, exists res, minimize ELBO mu = Ok res) ->
    snd (Npvi.npvi_while _expectedLogJoint _entropy minimize fuel self nodes
           weight means jitters muF muW sigma mu k 0 iterations ExpLogJoint)
    = StillLooping.
Proof.
  induction fuel as [|fuel IH];
    intros ExpLogJoint Hpos [joint Hjoint] [ent Hent] Hmin.
  - reflexivity.
  - cbn [Npvi.npvi_while].
    destruct (Z.ltb_spec 0 iterations) as [_|Hneg]; [|lia].
    rewrite Hjoint. cbn [bind]. rewrite Hent. cbn [bind].
    destruct (Hmin (joint + ent)) as [res Hres]. rewrite Hres. cbn [bind].
    specialize (IH (Some joint) Hpos (ex_intro _ joint Hjoint)
                   (ex_intro _ ent Hent) Hmin).
    destruct (Npvi.npvi_while _ _ _ _ _ _ _ _ _ _ _ _ _ _ _ _ _).
    exact IH.
Qed.

End MixtureLoop.

(** C7, evaluated on the code.  Under no input, oracle behaviour or
    amount of running time does the mixture engine's
    [EvidenceLowerBound] return a value: with a positive iteration
    budget the loop never advances [iterNumber], and the [return] after
    it names [ExpLogJoint], which is unbound when the budget is not
    positive. *)
Theorem npvi_EvidenceLowerBound_never_returns
        (_expectedLogJoint :
           inference -> list kernel -> list kernel -> list mean_function ->
           vector -> list ndarray -> list ndarray -> vector -> nat -> result Q)
        (_entropy :
           inference -> list ndarray -> list ndarray -> vector -> nat -> result Q)
        (minimize : Q -> vector -> result vector)
        (randn : nat -> nat -> list vector)
        (fuel : nat) (self : inference) (nodes weight : list kernel)
        (means : list mean_function) (jitters time : vector) (k : nat)
        (iterations : Z) (prints plots : bool) (value : Q) :
  snd (Npvi.EvidenceLowerBound _expectedLogJoint _entropy minimize randn fuel
         self nodes weight means jitters time k iterations prints plots)
  <> Finished (Ok value).
Proof.
  unfold Npvi.EvidenceLowerBound.
  destruct (for_each _ _ _) as [[[sigma muF] muW]|e]; [|discriminate].
  pose proof (@npvi_while_never_returns _expectedLogJoint _entropy minimize
                self nodes weight means jitters muF muW sigma
                (concat (map data muF) ++ concat (map data muW))
                k iterations fuel None value (or_intror eq_refl)) as H.
  destruct (Npvi.npvi_while _ _ _ _ _ _ _ _ _ _ _ _ _ _ _ _ _).
  exact H.
Qed.

(** ** The loop of the mean-field engine *)

Lemma converged_iff (criteria : Q) :
  Mfi_old.converged criteria = true
  <-> criteria < 1 # 10000000000 /\ ~ criteria == 0.
Proof.
  unfold Mfi_old.converged, Qltb.
  rewrite andb_true_iff, !negb_true_iff. split.
  - intros [Hlt Hne]. split.
    + apply Qnot_le_lt. intros Hle. apply Qle_bool_iff in Hle. congruence.
    + intros Heq. apply Qeq_bool_iff in Heq. congruence.
  - intros [Hlt Hne]. split.
    + destruct (Qle_bool (1 # 10000000000) criteria) eqn:E; [|reflexivity].
      apply Qle_bool_iff in E. exfalso. apply (Qlt_not_le _ _ Hlt E).
    + destruct (Qeq_bool criteria 0) eqn:E; [|reflexivity].
      apply Qeq_bool_iff in E. contradiction.
Qed.

(** Peels one [bind] off a hypothesis about a successful run. *)
Ltac peel H :=
  match type of H with
  | bind ?m _ = Ok _ =>
      let x := fresh "x" in
      let e := fresh "e" in
      destruct m as [x|e]; cbn [bind] in H; [|discriminate H];
      repeat match goal with
             | p : (_ * _)%type |- _ => destruct p
             end
  end.

Section MeanFieldLoop.

Variable sqrt : Q -> Q.
Variable _updateSigmaMu_new :
  inference -> list kernel -> list kernel -> list mean_function -> vector ->
  vector -> ndarray -> ndarray -> ndarray -> ndarray ->
  result (list matrix * ndarray * list (list matrix) * ndarray).
Variable _entropy : inference -> list matrix -> list (list matrix) -> result Q.
Variable _expectedLogPrior :
  inference -> list kernel -> list kernel -> list matrix -> ndarray ->
  list (list matrix) -> ndarray -> result Q.

Variable self : inference.
Variables nodes weight : list kernel.
Variable means : list mean_function.
Variables jitters time : vector.
Variables prints plots : bool.

Local Abbreviation update :=
  (Mfi_old.mf_update sqrt _updateSigmaMu_new _entropy _expectedLogPrior
                     self nodes weight means jitters time prints).
Local Abbreviation loop :=
  (Mfi_old.mf_while sqrt _updateSigmaMu_new _entropy _expectedLogPrior
                    self nodes weight means jitters time prints plots).
Local Abbreviation reaches :=
  (Mfi_old.reaches sqrt _updateSigmaMu_new _entropy _expectedLogPrior
                   self nodes weight means jitters time prints).

Lemma mf_update_records (st st' : Mfi_old.mf_state) (out : list printed)
      (sum_ELB : Q) :
  update st = Ok (out, st', sum_ELB) ->
  Mfi_old.sum_ELB st' = Some sum_ELB
  /\ Mfi_old.ELB st' = Mfi_old.ELB st ++ [sum_ELB].
Proof.
  unfold Mfi_old.mf_update. intros H.
  do 12 peel H.
  inversion H; subst. split; reflexivity.
Qed.

Variable iterations : Z.
Variable st0 : Mfi_old.mf_state.

Hypothesis updates_succeed :
  forall n st, (Z.of_nat n < iterations)%Z -> reaches st0 n st ->
               exists r, update st = Ok r.

Lemma mf_while_outcome (remaining : nat) :
  forall (n : nat) (st : Mfi_old.mf_state),
    (0 < remaining)%nat ->
    (Z.of_nat n + Z.of_nat remaining = iterations)%Z ->
    reaches st0 n st ->
    exists m stm out stm' sum_ELB pre,
      (Z.of_nat m < iterations)%Z
      /\ reaches st0 m stm
      /\ update stm = Ok (out, stm', sum_ELB)
      /\ Mfi_old.ELB stm' = Mfi_old.ELB stm ++ [sum_ELB]
      /\ ((Mfi_old.converged
             (Mfi_old.stopping_criteria (Mfi_old.ELB stm') sum_ELB) = true
           /\ loop remaining (Z.of_nat n) st
              = (pre ++ [MsgIterations (Z.of_nat m)],
                 Ok (sum_ELB, Mfi_old.muF stm', Mfi_old.muW stm')))
          \/ (Mfi_old.converged
                (Mfi_old.stopping_criteria (Mfi_old.ELB stm') sum_ELB) = false
              /\ (Z.of_nat m + 1 = iterations)%Z
              /\ loop remaining (Z.of_nat n) st
                 = (pre ++ [MsgIterations iterations],
                    Ok (sum_ELB, Mfi_old.muF stm', Mfi_old.muW stm')))).
Proof.
  induction remaining as [|remaining IH]; intros n st Hpos Hbudget Hreach;
    [lia|].
  assert (Hlt : (Z.of_nat n < iterations)%Z) by lia.
  destruct (updates_succeed Hlt Hreach) as [[[out st'] sum_ELB] Hupd].
  destruct (@mf_update_records _ _ _ _ Hupd) as [Hsum HELB].
  cbn [Mfi_old.mf_while]. rewrite Hupd.
  destruct (Mfi_old.converged
              (Mfi_old.stopping_criteria (Mfi_old.ELB st') sum_ELB)) eqn:Hconv.
  - exists n, st, out, st', sum_ELB.
    exists (out ++ (if prints then [MsgConverged sum_ELB (Z.of_nat n)] else [])
                ++ (if plots then [Plot (tl (Mfi_old.ELB st'))] else [])).
    split; [lia|]. split; [exact Hreach|]. split; [exact Hupd|].
    split; [exact HELB|]. left. split; [exact Hconv|].
    unfold Mfi_old.mf_return. rewrite Hsum.
    rewrite <- !app_assoc. reflexivity.
  - assert (Hnext : reaches st0 (S n) st')
      by (eapply Mfi_old.reaches_next; eassumption).
    destruct remaining as [|remaining].
    + exists n, st, out, st', sum_ELB.
      exists (out ++ (if plots then [Plot (tl (Mfi_old.ELB st'))] else [])).
      split; [lia|]. split; [exact Hreach|]. split; [exact Hupd|].
      split; [exact HELB|]. right. split; [exact Hconv|]. split; [lia|].
      cbn [Mfi_old.mf_while]. unfold Mfi_old.mf_return. rewrite Hsum.
      replace (Z.of_nat n + 1)%Z with iterations by lia.
      rewrite <- app_assoc. reflexivity.
    + assert (Hrem : (0 < S remaining)%nat) by lia.
      assert (Hbud : (Z.of_nat (S n) + Z.of_nat (S remaining) = iterations)%Z)
        by lia.
      destruct (IH (S n) st' Hrem Hbud Hnext)
        as [m [stm [outm [stm' [e [pre [Hm [Hrm [Hum [HE Hcases]]]]]]]]]].
      exists m, stm, outm, stm', e, (out ++ pre).
      split; [exact Hm|]. split; [exact Hrm|]. split; [exact Hum|].
      split; [exact HE|].
      replace (Z.of_nat n + 1)%Z with (Z.of_nat (S n)) by lia.
      destruct Hcases as [[Hc Hrun]|[Hc [Hlast Hrun]]].
      * left. split; [exact Hc|]. rewrite Hrun, <- app_assoc. reflexivity.
      * right. split; [exact Hc|]. split; [exact Hlast|].
        rewrite Hrun, <- app_assoc. reflexivity.
Qed.

End MeanFieldLoop.

Lemma mf_init_record
      (randn rand : nat -> vector) (seeded_rand : Z -> nat -> vector)
      (self : inference) (st0 : Mfi_old.mf_state) :
  Mfi_old.mf_init randn rand seeded_rand self = Ok st0 ->
  Mfi_old.ELB st0 = [0] /\ Mfi_old.sum_ELB st0 = None.
Proof.
  unfold Mfi_old.mf_init. intros H.
  do 4 peel H.
  inversion H; subst. split; reflexivity.
Qed.

(** The stopping criterion written out: the record splits into an
    older part and its last ten entries (all of them while it holds
    fewer), and the criterion is the absolute difference between the
    arithmetic mean of those entries and the current ELBO. *)
Lemma stopping_criteria_last_ten (ELB : list Q) (sum_ELB : Q) :
  exists older recent,
    ELB = older ++ recent
    /\ length recent = Nat.min 10 (length ELB)
    /\ Mfi_old.stopping_criteria ELB sum_ELB
       = Qabs (fold_right Qplus 0 recent / inject_Z (Z.of_nat (length recent))
               - sum_ELB).
Proof.
  exists (firstn (length ELB - 10) ELB), (skipn (length ELB - 10) ELB).
  split; [symmetry; apply firstn_skipn|].
  split; [rewrite length_skipn; lia|reflexivity].
Qed.

(** A state the loop is in after one more iteration that did not stop
    it: the ELBO of that iteration failed the written-out test. *)
Lemma reaches_criterion_failed
      (sqrt : Q -> Q)
      (_updateSigmaMu_new :
         inference -> list kernel -> list kernel -> list mean_function ->
         vector -> vector -> ndarray -> ndarray -> ndarray -> ndarray ->
         result (list matrix * ndarray * list (list matrix) * ndarray))
      (_entropy : inference -> list matrix -> list (list matrix) -> result Q)
      (_expectedLogPrior :
         inference -> list kernel -> list kernel -> list matrix -> ndarray ->
         list (list matrix) -> ndarray -> result Q)
      (self : inference) (nodes weight : list kernel)
      (means : list mean_function) (jitters time : vector)
      (prints : bool) (st0 st : Mfi_old.mf_state) (n : nat) :
  Mfi_old.reaches sqrt _updateSigmaMu_new _entropy _expectedLogPrior
                  self nodes weight means jitters time prints st0 (S n) st ->
  exists sum_ELB older recent,
    Mfi_old.sum_ELB st = Some sum_ELB
    /\ Mfi_old.ELB st = older ++ recent
    /\ length recent = Nat.min 10 (length (Mfi_old.ELB st))
    /\ ~ (Qabs (fold_right Qplus 0 recent / inject_Z (Z.of_nat (length recent))
                - sum_ELB) < 1 # 10000000000
          /\ ~ Qabs (fold_right Qplus 0 recent
                     / inject_Z (Z.of_nat (length recent)) - sum_ELB) == 0).
Proof.
  intros Hreach. inversion Hreach as [|n' stp st' out e _ Hupd Hconv]; subst.
  destruct (@mf_update_records _ _ _ _ _ _ _ _ _ _ _ _ _ _ _ Hupd)
    as [Hsum _].
  destruct (stopping_criteria_last_ten (Mfi_old.ELB st) e)
    as [older [recent [Hsplit [Hlen Hcrit]]]].
  exists e, older, recent.
  split; [exact Hsum|]. split; [exact Hsplit|]. split; [exact Hlen|].
  rewrite <- Hcrit. intros Hmet. apply converged_iff in Hmet. congruence.
Qed.



(** Without a positive budget no iteration runs and the final [return]
    finds [sum_ELB] unbound. *)
Lemma mean_field_empty_budget
      (sqrt : Q -> Q)
      (_updateSigmaMu_new :
         inference -> list kernel -> list kernel -> list mean_function ->
         vector -> vector -> ndarray -> ndarray -> ndarray -> ndarray ->
         result (list matrix * ndarray * list (list matrix) * ndarray))
      (_entropy : inference -> list matrix -> list (list matrix) -> result Q)
      (_expectedLogPrior :
         inference -> list kernel -> list kernel -> list matrix -> ndarray ->
         list (list matrix) -> ndarray -> result Q)
      (randn rand : nat -> vector) (seeded_rand : Z -> nat -> vector)
      (self : inference) (nodes weight : list kernel)
      (means : list mean_function) (jitters time : vector)
      (iterations : Z) (prints plots : bool) (st0 : Mfi_old.mf_state) :
  (iterations <= 0)%Z ->
  Mfi_old.mf_init randn rand seeded_rand self = Ok st0 ->
  snd (Mfi_old.EvidenceLowerBound
         sqrt _updateSigmaMu_new _entropy _expectedLogPrior
         randn rand seeded_rand
         self nodes weight means jitters time iterations prints plots)
  = Raise (UnboundLocalError "sum_ELB").
Proof.
  intros Hneg Hinit. unfold Mfi_old.EvidenceLowerBound. rewrite Hinit.
  replace (Z.to_nat iterations) with 0%nat by lia.
  cbn [Mfi_old.mf_while snd]. unfold Mfi_old.mf_return.
  rewrite (proj2 (@mf_init_record _ _ _ _ _ Hinit)). reflexivity.
Qed.

(** * Further properties of the engine *)

(** ** Splitting the latent vector *)

Lemma fhat_and_w_value (self : inference) (u : vector) :
  length u = (Self.q self * Self.N self * (Self.p self + 1))%nat ->
  _fhat_and_w self u
  = Ok (NdArray [1%nat; Self.q self; Self.N self]
                (firstn (Self.q self * Self.N self) u),
        NdArray [Self.p self; Self.q self; Self.N self]
                (skipn (Self.q self * Self.N self) u)).
Proof.
  intros Hlen. unfold _fhat_and_w, reshape.
  assert (H1 : length (firstn (Self.q self * Self.N self) u)
               = fold_right Nat.mul 1%nat [1%nat; Self.q self; Self.N self]).
  { rewrite length_firstn. simpl. nia. }
  assert (H2 : length (skipn (Self.q self * Self.N self) u)
               = fold_right Nat.mul 1%nat [Self.p self; Self.q self; Self.N self]).
  { rewrite length_skipn. simpl. nia. }
  rewrite H1, Nat.eqb_refl. cbn [bind]. rewrite H2, Nat.eqb_refl. reflexivity.
Qed.

(** [_fhat_and_w] accepts exactly the vectors of length [q*N*(p+1)],
    [N] being the engine's own [self.N]; the node tensor it returns has
    shape (1, q, N), the weight tensor (p, q, N), and their entries, nodes
    first, are the vector again. *)
Theorem fhat_and_w_round_trip (self : inference) (u : vector) :
  length u = (Self.q self * Self.N self * (Self.p self + 1))%nat ->
  exists f w,
    _fhat_and_w self u = Ok (f, w)
    /\ shape f = [1%nat; Self.q self; Self.N self]
    /\ shape w = [Self.p self; Self.q self; Self.N self]
    /\ data f ++ data w = u.
Proof.
  intros Hlen. rewrite (fhat_and_w_value self u Hlen).
  do 2 eexists. split; [reflexivity|].
  split; [reflexivity|split; [reflexivity|apply firstn_skipn]].
Qed.

Lemma fhat_and_w_round_trip_witness :
  exists f w,
    _fhat_and_w example_engine [1; 2; 3; 4; 5; 6; 7; 8] = Ok (f, w)
    /\ shape f = [1%nat; 2%nat; 2%nat]
    /\ shape w = [1%nat; 2%nat; 2%nat]
    /\ data f ++ data w = [1; 2; 3; 4; 5; 6; 7; 8].
Proof.
  apply (@fhat_and_w_round_trip example_engine [1; 2; 3; 4; 5; 6; 7; 8]).
  reflexivity.
Defined.

(** Any other length is refused by one of the two reshapes. *)
Theorem fhat_and_w_wrong_length (self : inference) (u : vector) :
  length u <> (Self.q self * Self.N self * (Self.p self + 1))%nat ->
  _fhat_and_w self u = Raise (ValueError "cannot reshape array").
Proof.
  intros Hlen. unfold _fhat_and_w, reshape.
  destruct (Nat.eqb_spec (length (firstn (Self.q self * Self.N self) u))
                         (fold_right Nat.mul 1%nat [1%nat; Self.q self; Self.N self]))
    as [H1|H1]; [|reflexivity].
  cbn [bind].
  destruct (Nat.eqb_spec (length (skipn (Self.q self * Self.N self) u))
                         (fold_right Nat.mul 1%nat [Self.p self; Self.q self; Self.N self]))
    as [H2|H2]; [|reflexivity].
  exfalso. apply Hlen.
  rewrite length_firstn in H1. rewrite length_skipn in H2. simpl in H1, H2. nia.
Qed.

Lemma fhat_and_w_wrong_length_witness :
  _fhat_and_w example_engine [1; 2; 3] = Raise (ValueError "cannot reshape array").
Proof.
  apply (@fhat_and_w_wrong_length example_engine [1; 2; 3]).
  simpl. lia.
Defined.

(** ** The constructor, continued *)

Lemma split_args_nth (args : list vector) :
  forall (i k : nat) (d : vector),
    nth k (fst (split_args i args)) d
    = nth (2 * k + (if Nat.even i then 0 else 1)) args d
    /\ nth k (snd (split_args i args)) d
       = nth (2 * k + (if Nat.even i then 1 else 0)) args d.
Proof.
  induction args as [|a args IH]; intros i k d.
  - simpl. destruct k; destruct (Nat.even i); split; reflexivity.
  - cbn [split_args].
    destruct (IH (S i) k d) as [IHf IHs].
    destruct (IH (S i) (pred k) d) as [IHf' IHs'].
    destruct (split_args (S i) args) as [ys yerrs]. cbn [fst snd] in *.
    rewrite Nat.even_succ, <- Nat.negb_even in IHf, IHs, IHf', IHs'.
    destruct (Nat.even i); cbn [negb fst snd] in *.
    + split.
      * destruct k as [|k]; [reflexivity|].
        cbn [nth pred] in *. rewrite IHf'.
        replace (2 * S k + 0)%nat with (S (2 * k + 1)) by lia. reflexivity.
      * rewrite IHs. replace (2 * k + 1)%nat with (S (2 * k + 0)) by lia.
        reflexivity.
    + split.
      * rewrite IHf. replace (2 * k + 1)%nat with (S (2 * k + 0)) by lia.
        reflexivity.
      * destruct k as [|k]; [reflexivity|].
        cbn [nth pred] in *. rewrite IHs'.
        replace (2 * S k + 0)%nat with (S (2 * k + 1)) by lia. reflexivity.
Qed.

Lemma split_args_errors (args : list vector) :
  forall i len,
    Forall (fun a => length a = len) args ->
    Forall (fun a => length a = len) (snd (split_args i args))
    /\ length (snd (split_args i args))
       = (if Nat.even i then length args / 2 else (length args + 1) / 2)%nat.
Proof.
  induction args as [|a args IH]; intros i len Hall.
  - split; [constructor|]. simpl. destruct (Nat.even i); reflexivity.
  - inversion Hall as [|? ? Ha Hrest]; subst.
    destruct (IH (S i) (length a) Hrest) as [IHall IHlen].
    cbn [split_args]. destruct (split_args (S i) args) as [ys yerrs].
    cbn [snd] in *. rewrite Nat.even_succ in IHlen.
    destruct (Nat.even i) eqn:Hev.
    + rewrite <- Nat.negb_even, Hev in IHlen. cbn [negb] in IHlen.
      cbn [snd]. split; [exact IHall|].
      rewrite IHlen. cbn [length].
      replace (S (length args)) with (length args + 1)%nat by lia.
      reflexivity.
    + rewrite <- Nat.negb_even, Hev in IHlen. cbn [negb] in IHlen.
      cbn [snd]. split; [constructor; [reflexivity|exact IHall]|].
      cbn [length]. rewrite IHlen.
      replace (S (length args) + 1)%nat with (length args + 1 * 2)%nat by lia.
      rewrite Nat.div_add by lia. lia.
Qed.

Lemma nth_concat_uniform (xs : list vector) (len : nat) :
  Forall (fun a => length a = len) xs ->
  forall i j, (j < len)%nat ->
    nth (i * len + j) (concat xs) 0 = nth j (nth i xs []) 0.
Proof.
  induction 1 as [|x xs Hx _ IH]; intros i j Hj.
  - simpl. destruct (i * len + j)%nat; destruct i; destruct j; reflexivity.
  - destruct i as [|i]; cbn [concat nth].
    + rewrite app_nth1 by (simpl; lia). reflexivity.
    + rewrite app_nth2 by (simpl; lia).
      replace (S i * len + j - length x)%nat with (i * len + j)%nat
        by (simpl; lia).
      apply IH. exact Hj.
Qed.

(** The constructor on well-formed input: [2p] data arrays ([p >= 1]),
    each as long as [time], and [p] mean functions.  The call returns,
    row [i] of [self.y] is the array at position [2i] and row [i] of
    [self.yerr] the one at position [2i+1]. *)
Theorem init_accepts_paired_data (nodes : list kernel) (weight : kernel)
      (means : list mean_function) (jitters time : vector)
      (args : list vector) (p : nat) :
  (0 < p)%nat ->
  length args = (2 * p)%nat ->
  length means = p ->
  Forall (fun a => length a = length time) args ->
  exists self,
    __init__ nodes weight means jitters time args = Ok self
    /\ Self.p self = p
    /\ Self.q self = length nodes
    /\ Self.N self = length time
    /\ Self.tt self = tile time p
    /\ has_shape p (length time) (Self.y self)
    /\ has_shape p (length time) (Self.yerr self)
    /\ forall i j, (i < p)%nat -> (j < length time)%nat ->
         get (Self.y self) i j = nth j (nth (2 * i) args []) 0
         /\ get (Self.yerr self) i j = nth j (nth (2 * i + 1) args []) 0.
Proof.
  intros Hp Hargs Hmeans Hall.
  assert (Hdiv : (length args / 2 = p)%nat).
  { rewrite Hargs, Nat.mul_comm. apply Nat.div_mul. lia. }
  assert (Hdiv' : ((length args + 1) / 2 = p)%nat).
  { rewrite Hargs. replace (2 * p + 1)%nat with (1 + p * 2)%nat by lia.
    rewrite Nat.div_add by lia. reflexivity. }
  unfold __init__.
  destruct (split_args_values 0 Hall) as [Hys Hlys].
  destruct (split_args_errors 0 Hall) as [Hes Hles].
  pose proof (split_args_nth args 0) as Hnth.
  destruct (split_args 0 args) as [ys yerrs]. cbn [fst snd Nat.even] in *.
  unfold array2.
  rewrite (same_length_uniform Hys), (same_length_uniform Hes). cbn [bind].
  unfold reshape2.
  rewrite (length_concat_uniform Hys), (length_concat_uniform Hes).
  rewrite Hlys, Hles, Hdiv, Hdiv', Nat.eqb_refl. cbn [bind].
  unfold assert. rewrite Hmeans, Nat.eqb_refl. cbn [bind].
  destruct args as [|a rest]; [simpl in Hargs; lia|].
  cbn [last_index bind].
  assert (Hq : Qeq_bool ((inject_Z (Z.of_nat (length rest)) + 1) / 2)
                        (inject_Z (Z.of_nat p)) = true).
  { apply Qeq_eq_bool. cbn [length] in Hargs.
    assert (Hr : length rest = (2 * p - 1)%nat) by lia. rewrite Hr.
    unfold Qeq, Qdiv. cbn [Qnum Qden Qplus Qmult Qinv inject_Z]. lia. }
  rewrite Hq. cbn [bind].
  eexists. split; [reflexivity|].
  cbn [Self.p Self.q Self.N Self.tt Self.y Self.yerr].
  repeat split; try apply has_shape_mx_tab.
  - rewrite get_mx_tab by assumption.
    rewrite (nth_concat_uniform Hys) by assumption.
    rewrite (proj1 (Hnth i [])). f_equal. f_equal. lia.
  - rewrite get_mx_tab by assumption.
    rewrite (nth_concat_uniform Hes) by assumption.
    rewrite (proj2 (Hnth i [])). reflexivity.
Qed.

Lemma init_accepts_paired_data_witness :
  exists self,
    __init__ example_nodes example_weight [None] [0] example_time example_args
    = Ok self
    /\ Self.p self = 1%nat
    /\ Self.q self = length example_nodes
    /\ Self.N self = length example_time
    /\ Self.tt self = tile example_time 1
    /\ has_shape 1 (length example_time) (Self.y self)
    /\ has_shape 1 (length example_time) (Self.yerr self)
    /\ forall i j, (i < 1)%nat -> (j < length example_time)%nat ->
         get (Self.y self) i j = nth j (nth (2 * i) example_args []) 0
         /\ get (Self.yerr self) i j = nth j (nth (2 * i + 1) example_args []) 0.
Proof.
  apply (@init_accepts_paired_data example_nodes example_weight [None] [0]
           example_time example_args 1).
  - lia.
  - reflexivity.
  - reflexivity.
  - repeat constructor.
Defined.

(** The constructor called without any data array.  The two reshapes go
    through on empty arrays; a non-empty [means] fails the first check,
    and an empty one reaches the second check, whose loop variable [i]
    was never bound. *)
Theorem init_without_data (nodes : list kernel) (weight : kernel)
      (means : list mean_function) (jitters time : vector) :
  __init__ nodes weight means jitters time []
  = match means with
    | [] => Raise (UnboundLocalError "i")
    | _ :: _ =>
        Raise (AssertionError
                 "The numbers of means should be equal to the number of components")
    end.
Proof.
  unfold __init__. cbn [split_args array2 same_length bind concat length].
  unfold reshape2. cbn.
  destruct means; reflexivity.
Qed.

(** A call that returns an engine was given exactly two data arrays per
    mean function, and at least one pair: nothing is dropped silently. *)
Theorem init_success_counts (nodes : list kernel) (weight : kernel)
      (means : list mean_function) (jitters time : vector)
      (args : list vector) (self : inference) :
  __init__ nodes weight means jitters time args = Ok self ->
  length args = (2 * length means)%nat
  /\ (0 < length means)%nat
  /\ Self.p self = length means
  /\ Self.qp self = (length nodes * length means)%nat
  /\ Self.N self = length time
  /\ has_shape (length means) (length time) (Self.y self)
  /\ has_shape (length means) (length time) (Self.yerr self).
Proof.
  intros H.
  pose proof (init_rejects_mismatch _ _ _ _ _ _ H) as Hlen.
  destruct (init_fields _ _ _ _ _ _ H) as [Hq [Hp [Hqp [HN [_ [Hy Hyerr]]]]]].
  assert (Hpm : Self.p self = length means).
  { rewrite Hp, Hlen, Nat.mul_comm. apply Nat.div_mul. lia. }
  rewrite Hpm, HN in Hy, Hyerr. rewrite Hq, Hpm in Hqp.
  assert (Hpos : (0 < length means)%nat).
  { destruct args as [|a rest].
    - unfold __init__, reshape2 in H. cbn in H. destruct means; discriminate.
    - simpl in Hlen. lia. }
  tauto.
Qed.

Lemma init_success_counts_witness :
  length example_args = (2 * length [@None (vector -> result vector)])%nat
  /\ (0 < length [@None (vector -> result vector)])%nat
  /\ Self.p example_engine = length [@None (vector -> result vector)]
  /\ Self.qp example_engine
     = (length example_nodes * length [@None (vector -> result vector)])%nat
  /\ Self.N example_engine = length example_time
  /\ has_shape (length [@None (vector -> result vector)]) (length example_time)
               (Self.y example_engine)
  /\ has_shape (length [@None (vector -> result vector)]) (length example_time)
               (Self.yerr example_engine).
Proof.
  apply (@init_success_counts example_nodes example_weight [None] [0]
           example_time example_args example_engine).
  vm_compute. reflexivity.
Defined.

Lemma init_odd_data_fails_in_reshape_witness :
  __init__ example_nodes example_weight [None] [0] example_time
           [[1; 2]; [1 # 10; 1 # 10]; [3; 4]]
  = Raise (ValueError "cannot reshape array").
Proof.
  apply init_odd_data_fails_in_reshape.
  - reflexivity.
  - simpl. lia.
  - repeat constructor.
Defined.

(** ** Mean functions *)

Lemma set_slice_block (N i : nat) (v m : vector) :
  length v = N ->
  ((i + 1) * N <= length m)%nat ->
  set_slice (i * N) ((i + 1) * N) v m
  = Ok (map (fun k => if (i * N <=? k) && (k <? i * N + N)
                      then nth (bidx N (k - i * N)) v 0
                      else nth k m 0)
            (seq 0 (length m))).
Proof.
  intros Hv Hfit. unfold set_slice, slice_len.
  rewrite !Nat.min_l by lia.
  replace ((i + 1) * N - i * N)%nat with N by lia.
  rewrite Hv, Nat.eqb_refl. reflexivity.
Qed.

Lemma set_slice_length (lo hi : nat) (v m m' : vector) :
  set_slice lo hi v m = Ok m' -> length m' = length m.
Proof.
  unfold set_slice. destruct (_ || _); [|discriminate].
  intros H. inversion H. rewrite length_map, length_seq. reflexivity.
Qed.

Lemma mean_loop_length (N : nat) (t : vector) (ims : list (nat * mean_function)) :
  forall m m', for_each ims (mean_step N t) m = Ok m' -> length m' = length m.
Proof.
  induction ims as [|[i mf] ims IH]; intros m m' H.
  - inversion H. reflexivity.
  - cbn [for_each] in H. unfold mean_step at 1 in H. cbn [fst snd] in H.
    destruct mf as [f|]; cbn [bind] in H.
    + destruct (f t) as [v|]; [|discriminate]. cbn [bind] in H.
      destruct (set_slice _ _ v m) as [m1|] eqn:Hs; [|discriminate].
      cbn [bind] in H. rewrite (IH _ _ H). exact (set_slice_length _ _ _ _ Hs).
    + exact (IH _ _ H).
Qed.

Lemma length_tile (t : vector) (n : nat) : length (tile t n) = (n * length t)%nat.
Proof.
  unfold tile. induction n as [|n IH]; [reflexivity|].
  cbn [repeat concat]. rewrite length_app, IH. simpl. reflexivity.
Qed.

(** Whatever the mean functions return, a call of [_mean] that returns
    yields a vector as long as the extended time [np.tile(time, p)]. *)
Theorem mean_length (self : inference) (means : list mean_function)
        (time m : vector) :
  _mean self means (Some time) = Ok m ->
  length m = (Self.p self * length time)%nat.
Proof.
  unfold _mean. intros H. apply mean_loop_length in H.
  rewrite H, length_map. apply length_tile.
Qed.

Lemma mean_length_witness :
  length [0; 0] = (Self.p example_engine * length example_time)%nat.
Proof.
  apply (@mean_length example_engine [None] example_time [0; 0]).
  reflexivity.
Defined.

Lemma mean_loop (P N : nat) (t : vector) (ms : list mean_function) :
  (forall i f, nth_error ms i = Some (Some f) ->
     exists v, f t = Ok v /\ length v = N) ->
  forall s m,
    length m = (P * N)%nat ->
    (s + length ms <= P)%nat ->
    exists m',
      for_each (combine (seq s (length ms)) ms) (mean_step N t) m = Ok m'
      /\ length m' = (P * N)%nat
      /\ forall i j, (j < N)%nat -> (i < P)%nat ->
           nth (i * N + j) m' 0
           = match nth_error ms (i - s) with
             | Some (Some f) =>
                 if s <=? i
                 then match f t with Ok v => nth j v 0 | Raise _ => 0 end
                 else nth (i * N + j) m 0
             | _ => nth (i * N + j) m 0
             end.
Proof.
  induction ms as [|mf ms IH]; intros Hf s m Hm Hs.
  - exists m. split; [reflexivity|]. split; [exact Hm|].
    intros i j _ _. destruct (i - s)%nat; reflexivity.
  - cbn [length seq combine for_each].
    assert (Hf' : forall i f, nth_error ms i = Some (Some f) ->
                    exists v, f t = Ok v /\ length v = N).
    { intros i f Hi. apply (Hf (S i) f). exact Hi. }
    cbn [length] in Hs.
    unfold mean_step at 1. cbn [fst snd].
    destruct mf as [f|].
    + destruct (Hf 0%nat f eq_refl) as [v [Hv Hlen]].
      rewrite Hv. cbn [bind].
      rewrite (set_slice_block s v m Hlen) by (rewrite Hm; nia).
      cbn [bind].
      match goal with |- context [for_each _ _ ?m1] => set (m1' := m1) end.
      assert (Hm1 : length m1' = (P * N)%nat).
      { unfold m1'. rewrite length_map, length_seq. exact Hm. }
      destruct (IH Hf' (S s) m1' Hm1 ltac:(lia)) as [m' [Hrun [Hlen' Hent]]].
      exists m'. split; [exact Hrun|]. split; [exact Hlen'|].
      intros i j Hj Hi. rewrite (Hent i j Hj Hi).
      assert (Hm1e : nth (i * N + j) m1' 0
                     = if i =? s then nth j v 0 else nth (i * N + j) m 0).
      { unfold m1'. rewrite nth_map_seq by (rewrite Hm; nia).
        destruct (Nat.eqb_spec i s) as [->|Hne].
        - replace ((s * N <=? s * N + j) && (s * N + j <? s * N + N)) with true
            by (symmetry; apply andb_true_intro; split;
                [apply Nat.leb_le|apply Nat.ltb_lt]; lia).
          replace (s * N + j - s * N)%nat with j by lia.
          rewrite bidx_in_range by exact Hj. reflexivity.
        - replace ((s * N <=? i * N + j) && (i * N + j <? s * N + N)) with false;
            [reflexivity|].
          symmetry. apply andb_false_iff.
          destruct (Nat.lt_ge_cases i s).
          + left. apply Nat.leb_gt. nia.
          + right. apply Nat.ltb_ge. nia. }
      destruct (Nat.lt_trichotomy i s) as [Hlt|[->|Hgt]].
      * replace (i - S s)%nat with 0%nat by lia.
        replace (i - s)%nat with 0%nat by lia.
        cbn [nth_error]. rewrite Hv.
        replace (s <=? i) with false by (symmetry; apply Nat.leb_gt; lia).
        rewrite Hm1e.
        replace (i =? s) with false by (symmetry; apply Nat.eqb_neq; lia).
        destruct ms as [|[g|] ms']; cbn [nth_error]; try reflexivity.
        replace (S s <=? i) with false by (symmetry; apply Nat.leb_gt; lia).
        reflexivity.
      * replace (s - S s)%nat with 0%nat by lia.
        rewrite Nat.sub_diag. cbn [nth_error]. rewrite Hv, Nat.leb_refl.
        rewrite Hm1e, Nat.eqb_refl.
        destruct ms as [|[g|] ms']; cbn [nth_error]; try reflexivity.
        replace (S s <=? s) with false by (symmetry; apply Nat.leb_gt; lia).
        reflexivity.
      * replace (i - s)%nat with (S (i - S s)) by lia. cbn [nth_error].
        rewrite Hm1e.
        replace (i =? s) with false by (symmetry; apply Nat.eqb_neq; lia).
        replace (S s <=? i) with true by (symmetry; apply Nat.leb_le; lia).
        replace (s <=? i) with true by (symmetry; apply Nat.leb_le; lia).
        reflexivity.
    + cbn [bind].
      destruct (IH Hf' (S s) m Hm ltac:(lia)) as [m' [Hrun [Hlen' Hent]]].
      exists m'. split; [exact Hrun|]. split; [exact Hlen'|].
      intros i j Hj Hi. rewrite (Hent i j Hj Hi).
      destruct (Nat.lt_trichotomy i s) as [Hlt|[->|Hgt]].
      * replace (i - S s)%nat with 0%nat by lia.
        replace (i - s)%nat with 0%nat by lia. cbn [nth_error].
        destruct ms as [|[g|] ms']; cbn [nth_error]; try reflexivity.
        replace (S s <=? i) with false by (symmetry; apply Nat.leb_gt; lia).
        reflexivity.
      * replace (s - S s)%nat with 0%nat by lia.
        rewrite Nat.sub_diag. cbn [nth_error].
        destruct ms as [|[g|] ms']; cbn [nth_error]; try reflexivity.
        replace (S s <=? s) with false by (symmetry; apply Nat.leb_gt; lia).
        reflexivity.
      * replace (i - s)%nat with (S (i - S s)) by lia. cbn [nth_error].
        replace (S s <=? i) with true by (symmetry; apply Nat.leb_le; lia).
        replace (s <=? i) with true by (symmetry; apply Nat.leb_le; lia).
        reflexivity.
Qed.

Lemma nth_zeros {A : Type} (xs : list A) (k : nat) :
  nth k (map (fun _ => 0) xs) 0 = 0.
Proof.
  revert k. induction xs as [|x xs IH]; intros [|k]; simpl; auto.
Qed.

Lemma astype_zero (dt : dtype) : astype dt 0 = 0.
Proof. destruct dt; reflexivity. Qed.

Lemma mean_as_float_loop (N : nat) (t : vector)
      (ims : list (nat * mean_function)) :
  forall m,
    for_each ims (mean_step_as float64 N t) m = for_each ims (mean_step N t) m.
Proof.
  induction ims as [|[i mf] ims IH]; intros m; [reflexivity|].
  cbn [for_each]. unfold mean_step_as at 1, mean_step at 1. cbn [fst snd].
  destruct mf as [f|]; [|cbn [bind]; apply IH].
  destruct (f t) as [v|e]; cbn [bind]; [|reflexivity].
  assert (Hid : map (astype float64) v = v).
  { rewrite <- (map_id v) at 2. apply map_ext. intros x. reflexivity. }
  rewrite Hid. destruct (set_slice _ _ v m); cbn [bind];
    [apply IH|reflexivity].
Qed.

Lemma mean_as_float (self : inference) (means : list mean_function)
      (time : option vector) :
  _mean_as float64 self means time = _mean self means time.
Proof.
  unfold _mean_as, _mean. destruct time; apply mean_as_float_loop.
Qed.

Lemma mean_as_converted_loop (dt : dtype) (N : nat) (t : vector)
      (ms : list mean_function) :
  forall s m,
    for_each (combine (seq s (length ms)) ms) (mean_step_as dt N t) m
    = for_each (combine (seq s (length (map (converted dt) ms)))
                        (map (converted dt) ms))
               (mean_step N t) m.
Proof.
  induction ms as [|mf ms IH]; intros s m; [reflexivity|].
  cbn [length map seq combine for_each].
  unfold mean_step_as at 1, mean_step at 1. cbn [fst snd].
  destruct mf as [f|]; cbn [converted]; [|cbn [bind]; apply IH].
  destruct (f t) as [v|e]; cbn [bind]; [|reflexivity].
  destruct (set_slice _ _ (map (astype dt) v) m); cbn [bind];
    [apply IH|reflexivity].
Qed.

(** The mean vector block by block, for a time array of element type
    [dt]: with at most [p] mean functions, each returning one value per
    time, block [i] of the result holds the values of the [i]-th mean
    function as stored into an array of that type (unchanged for floats,
    truncated toward zero for integers) and is zero where the entry is
    [None] or missing.  For floats the vector is the one [_mean]
    returns. *)
Theorem mean_blocks (dt : dtype) (self : inference)
        (means : list mean_function) (time : vector) :
  (length means <= Self.p self)%nat ->
  (forall i f, nth_error means i = Some (Some f) ->
     exists v, f time = Ok v /\ length v = length time) ->
  exists m,
    _mean_as dt self means (Some time) = Ok m
    /\ (dt = float64 -> _mean self means (Some time) = Ok m)
    /\ length m = (Self.p self * length time)%nat
    /\ (forall i f v j,
          nth_error means i = Some (Some f) -> f time = Ok v ->
          (j < length time)%nat ->
          nth (i * length time + j) m 0 = astype dt (nth j v 0))
    /\ (forall i j,
          (i < Self.p self)%nat -> nth i means None = None ->
          (j < length time)%nat ->
          nth (i * length time + j) m 0 = 0).
Proof.
  intros Hlen Hf.
  assert (Hz : length (map (fun _ : Q => 0) (tile time (Self.p self)))
               = (Self.p self * length time)%nat)
    by (rewrite length_map; apply length_tile).
  assert (Hf' : forall i f,
             nth_error (map (converted dt) means) i = Some (Some f) ->
             exists v, f time = Ok v /\ length v = length time).
  { intros i f Hi. rewrite nth_error_map in Hi.
    destruct (nth_error means i) as [[g|]|] eqn:Hg; try discriminate Hi.
    destruct (Hf i g Hg) as [v [Hv Hlv]].
    cbn [option_map converted] in Hi. inversion Hi; subst f.
    exists (map (astype dt) v). rewrite Hv. cbn [bind].
    split; [reflexivity|]. rewrite length_map. exact Hlv. }
  assert (Hfit : (0 + length (map (converted dt) means) <= Self.p self)%nat)
    by (rewrite length_map; simpl; exact Hlen).
  destruct (@mean_loop (Self.p self) (length time) time
              (map (converted dt) means) Hf' 0%nat _ Hz Hfit)
    as [m [Hrun [Hlm Hent]]].
  assert (Hrun' : _mean_as dt self means (Some time) = Ok m).
  { unfold _mean_as, enumerate. rewrite mean_as_converted_loop. exact Hrun. }
  exists m. split; [exact Hrun'|]. split.
  { intros ->. rewrite <- mean_as_float. exact Hrun'. }
  split; [exact Hlm|]. split.
  - intros i f v j Hi Hv Hj.
    assert (Hip : (i < Self.p self)%nat).
    { apply Nat.lt_le_trans with (length means); [|exact Hlen].
      apply nth_error_Some. rewrite Hi. discriminate. }
    rewrite (Hent i j Hj Hip), Nat.sub_0_r, nth_error_map, Hi.
    cbn [option_map converted Nat.leb]. rewrite Hv. cbn [bind].
    rewrite <- (astype_zero dt) at 1. apply map_nth.
  - intros i j Hi Hnone Hj.
    rewrite (Hent i j Hj Hi), Nat.sub_0_r, nth_error_map.
    destruct (nth_error means i) as [[f|]|] eqn:Hn;
      cbn [option_map converted]; try apply nth_zeros.
    rewrite (nth_error_nth _ _ _ Hn) in Hnone. discriminate.
Qed.

Lemma mean_blocks_witness :
  exists m,
    _mean_as int64 example_engine [Some (linear_mean (1 # 2) (1 # 4))]
             (Some [0; 1; 2])
    = Ok m
    /\ (int64 = float64 ->
        _mean example_engine [Some (linear_mean (1 # 2) (1 # 4))]
              (Some [0; 1; 2])
        = Ok m)
    /\ length m = (Self.p example_engine * length [0; 1; 2])%nat
    /\ (forall i f v j,
          nth_error [Some (linear_mean (1 # 2) (1 # 4))] i = Some (Some f) ->
          f [0; 1; 2] = Ok v ->
          (j < length [0; 1; 2])%nat ->
          nth (i * length [0; 1; 2] + j) m 0 = astype int64 (nth j v 0))
    /\ (forall i j,
          (i < Self.p example_engine)%nat ->
          nth i [Some (linear_mean (1 # 2) (1 # 4))] None = None ->
          (j < length [0; 1; 2])%nat ->
          nth (i * length [0; 1; 2] + j) m 0 = 0).
Proof.
  apply (@mean_blocks int64 example_engine
           [Some (linear_mean (1 # 2) (1 # 4))] [0; 1; 2]).
  - simpl. lia.
  - intros [|[|i]] f H; try discriminate.
    inversion H. eexists. split; reflexivity.
Defined.

(** On integer times 0, 1, 2 the mean [t/2 + 1/4] is stored as 0, 0, 1;
    on float times it is kept. *)
Lemma mean_integer_times_truncated :
  _mean_as int64 example_engine [Some (linear_mean (1 # 2) (1 # 4))]
           (Some [0; 1; 2])
  = Ok [0; 0; 1]
  /\ _mean_as float64 example_engine [Some (linear_mean (1 # 2) (1 # 4))]
              (Some [0; 1; 2])
     = _mean example_engine [Some (linear_mean (1 # 2) (1 # 4))]
             (Some [0; 1; 2]).
Proof. split; [vm_compute; reflexivity|apply mean_as_float]. Qed.

Lemma init_extended_time (nodes : list kernel) (weight : kernel)
      (means : list mean_function) (jitters time : vector)
      (args : list vector) (self : inference) :
  __init__ nodes weight means jitters time args = Ok self ->
  Self.tt self = tile (Self.time self) (Self.p self).
Proof.
  unfold __init__.
  destruct (split_args 0 args) as [ys yerrs].
  destruct (array2 ys) as [ys_arr|]; [|discriminate]. cbn [bind].
  unfold reshape2.
  destruct (length (concat ys_arr) =? _); [|discriminate]. cbn [bind].
  destruct (array2 yerrs) as [yerrs_arr|]; [|discriminate]. cbn [bind].
  destruct (length (concat yerrs_arr) =? _); [|discriminate]. cbn [bind].
  destruct (assert _ _); [|discriminate]. cbn [bind].
  destruct (last_index args); [|discriminate]. cbn [bind].
  destruct (assert _ _); [|discriminate]. cbn [bind].
  intros H. inversion H; subst. reflexivity.
Qed.

(** On an engine built by the constructor, leaving [time] out of
    [_mean] is the same as passing the engine's own time vector: the two
    branches of the method agree, exceptions included. *)
Theorem mean_default_time (nodes : list kernel) (weight : kernel)
      (means : list mean_function) (jitters time : vector)
      (args : list vector) (self : inference) (ms : list mean_function) :
  __init__ nodes weight means jitters time args = Ok self ->
  _mean self ms None = _mean self ms (Some (Self.time self)).
Proof.
  intros H. unfold _mean. rewrite (init_extended_time _ _ _ _ _ _ H).
  reflexivity.
Qed.

Lemma mean_default_time_witness :
  _mean example_engine [Some (linear_mean 2 1)] None
  = _mean example_engine [Some (linear_mean 2 1)] (Some (Self.time example_engine)).
Proof.
  apply (@mean_default_time example_nodes example_weight [None] [0]
           example_time example_args example_engine [Some (linear_mean 2 1)]).
  vm_compute. reflexivity.
Defined.

(** ** Reconstructing the outputs, continued *)

Lemma view2_add_vec (Y : matrix) (m : vector) (r : array) :
  add (Mat Y) (Vec m) = Ok r ->
  bdim (cols Y) (length m) <> None.
Proof.
  unfold add, elementwise, broadcast2. cbn [view2 rows cols length hd].
  intros H Hn. rewrite Hn in H.
  destruct (bdim _ 1); cbn [bind] in H; discriminate H.
Qed.

(** With two or more outputs and two or more times the sum of the
    p x N contraction with the mean vector of length p*N cannot be
    formed: whenever [get_y] returns on such an engine, [means] was falsy
    and the value returned is [time]. *)
Theorem get_y_mean_sum_never_returns
        (einsum_ij_jk_ik : ndarray -> ndarray -> result ndarray)
        (self : inference) (n w : ndarray) (time : vector)
        (means : py_means) (r : array) :
  (2 <= Self.p self)%nat ->
  (2 <= length time)%nat ->
  get_y einsum_ij_jk_ik self n w time means = Ok r ->
  truth means = Ok false /\ r = Vec time.
Proof.
  intros Hp HN. unfold get_y.
  destruct (einsum_ij_jk_ik w n) as [prod|]; [|discriminate]. cbn [bind].
  unfold reshape2.
  destruct (length (data prod) =? _); [|discriminate]. cbn [bind].
  destruct (truth means) as [[|]|]; [| |discriminate]; cbn [bind].
  - destruct (means_list means) as [ms|]; [|discriminate]. cbn [bind].
    destruct (_mean self ms (Some time)) as [m|] eqn:Hm; [|discriminate].
    cbn [bind]. intros Hadd. exfalso.
    apply view2_add_vec in Hadd. apply Hadd.
    rewrite cols_mx_tab by lia. rewrite (mean_loop_length _ _ _ _ Hm).
    rewrite length_map, length_tile.
    unfold bdim.
    replace (length time =? Self.p self * length time) with false
      by (symmetry; apply Nat.eqb_neq; nia).
    replace (length time =? 1) with false
      by (symmetry; apply Nat.eqb_neq; lia).
    replace (Self.p self * length time =? 1) with false
      by (symmetry; apply Nat.eqb_neq; nia).
    reflexivity.
  - intros H. inversion H. split; reflexivity.
Qed.

Lemma get_y_mean_sum_never_returns_witness :
  truth (PyList []) = Ok false /\ Vec example_time = Vec example_time.
Proof.
  apply (@get_y_mean_sum_never_returns einsum_rank3 two_output_engine
           (NdArray [1%nat; 1%nat; 2%nat] [3; 4])
           (NdArray [2%nat; 1%nat; 2%nat] [5; 6; 7; 8])
           example_time (PyList []) (Vec example_time)).
  - simpl. lia.
  - simpl. lia.
  - vm_compute. reflexivity.
Defined.

(** With a single output the sum is formed: entry [j] of the row
    returned is the contraction's entry [j] plus the mean at time [j]. *)
Theorem get_y_single_output
        (einsum_ij_jk_ik : ndarray -> ndarray -> result ndarray)
        (self : inference) (n w : ndarray) (time : vector)
        (means : py_means) (prod : ndarray) (ms : list mean_function)
        (m : vector) :
  Self.p self = 1%nat ->
  einsum_ij_jk_ik w n = Ok prod ->
  length (data prod) = length time ->
  truth means = Ok true ->
  means_list means = Ok ms ->
  _mean self ms (Some time) = Ok m ->
  exists Y,
    get_y einsum_ij_jk_ik self n w time means = Ok (Mat Y)
    /\ has_shape 1 (length time) Y
    /\ forall j, (j < length time)%nat ->
         get Y 0 j = nth j (data prod) 0 + nth j m 0.
Proof.
  intros Hp Hprod Hsize Htruth Hms Hm. unfold get_y.
  rewrite Hprod. cbn [bind]. unfold reshape2.
  rewrite Hp, Hsize, Nat.mul_1_l, Nat.eqb_refl. cbn [bind].
  rewrite Htruth. cbn [bind]. rewrite Hms. cbn [bind].
  rewrite Hm. cbn [bind].
  assert (Hlm : length m = length time).
  { rewrite (mean_loop_length _ _ _ _ Hm), length_map, length_tile, Hp. lia. }
  unfold add, elementwise, broadcast2. cbn [view2 rows cols length hd].
  rewrite rows_mx_tab, cols_mx_tab by lia.
  rewrite Hlm, !bdim_same. cbn [bind ndim Nat.max of_view2].
  eexists. split; [reflexivity|]. split; [apply has_shape_mx_tab|].
  intros j Hj. rewrite get_mx_tab by (assumption || lia).
  cbn [bidx Nat.eqb].
  destruct (Nat.eqb_spec (length time) 1) as [H1|H1].
  - assert (j = 0%nat) by lia. subst j.
    unfold bidx. rewrite H1. cbn [Nat.eqb].
    rewrite get_mx_tab by lia. reflexivity.
  - unfold bidx. apply Nat.eqb_neq in H1. rewrite H1.
    rewrite get_mx_tab by lia. reflexivity.
Qed.

Lemma get_y_single_output_witness :
  exists Y,
    get_y einsum_rank3 example_engine
          (NdArray [1%nat; 1%nat; 2%nat] [3; 4])
          (NdArray [1%nat; 1%nat; 2%nat] [5; 6])
          [0; 1] (PyList [Some (linear_mean 2 1)])
    = Ok (Mat Y)
    /\ has_shape 1 (length [0; 1]) Y
    /\ forall j, (j < length [0; 1])%nat ->
         get Y 0 j = nth j (data (NdArray [1%nat; 1%nat; 2%nat] [15; 24])) 0
                     + nth j [1; 3] 0.
Proof.
  apply (@get_y_single_output einsum_rank3 example_engine
           (NdArray [1%nat; 1%nat; 2%nat] [3; 4])
           (NdArray [1%nat; 1%nat; 2%nat] [5; 6])
           [0; 1] (PyList [Some (linear_mean 2 1)])
           (NdArray [1%nat; 1%nat; 2%nat] [15; 24])
           [Some (linear_mean 2 1)] [1; 3]).
  - reflexivity.
  - vm_compute. reflexivity.
  - reflexivity.
  - reflexivity.
  - reflexivity.
  - vm_compute. reflexivity.
Defined.

(** ** The stable Cholesky routine, for any factorisation *)

Section CholNuggetAny.

Variable cholesky : matrix -> result matrix.
Variable M : matrix.

Lemma retry_sound (remaining : nat) :
  forall (n : Z) (nugget : Q) (out : list printed) (L : matrix) (c : Q),
    retry cholesky remaining n nugget M = (out, Ok (L, c)) ->
    (0 < remaining)%nat
    /\ (length out <= remaining)%nat
    /\ exists U shifted,
         L = transpose U
         /\ add_nugget M c = Ok shifted
         /\ cholesky shifted = Ok U.
Proof.
  induction remaining as [|remaining IH]; intros n nugget out L c H.
  - discriminate H.
  - cbn [retry] in H.
    destruct (add_nugget M nugget) as [shifted|e] eqn:Hadd; cbn [bind] in H.
    + destruct (cholesky shifted) as [U|e] eqn:Hchol.
      * inversion H; subst. split; [lia|]. split; [simpl; lia|].
        exists U, shifted. repeat split; assumption.
      * destruct e; try discriminate H.
        destruct (retry cholesky remaining (n + 1) (nugget * 10) M)
          as [out' res] eqn:Hrec.
        inversion H; subst.
        destruct (IH _ _ _ _ _ Hrec) as [_ [Hlen Hfac]].
        split; [lia|]. split; [simpl; lia|]. exact Hfac.
    + destruct e; try discriminate H.
      destruct (retry cholesky remaining (n + 1) (nugget * 10) M)
        as [out' res] eqn:Hrec.
      inversion H; subst.
      destruct (IH _ _ _ _ _ Hrec) as [_ [Hlen Hfac]].
      split; [lia|]. split; [simpl; lia|]. exact Hfac.
Qed.

Lemma retry_failure (remaining : nat) :
  forall (n : Z) (nugget : Q) (out : list printed) (e : exn),
    retry cholesky remaining n nugget M = (out, Raise e) ->
    (e = still_not_pd /\ length out = remaining)
    \/ ((forall msg, e <> LinAlgError msg) /\ (length out <= remaining)%nat).
Proof.
  induction remaining as [|remaining IH]; intros n nugget out e H.
  - inversion H. left. split; reflexivity.
  - cbn [retry] in H.
    destruct (retry cholesky remaining (n + 1) (nugget * 10) M)
      as [out' res] eqn:Hr.
    assert (Hrec : (MsgRetry (n + 1) nugget :: out', res) = (out, Raise e) ->
               (e = still_not_pd /\ length out = S remaining)
               \/ ((forall msg, e <> LinAlgError msg)
                   /\ (length out <= S remaining)%nat)).
    { intros H'. inversion H'; subst.
      destruct (IH _ _ _ _ Hr) as [[He Hl]|[He Hl]].
      - left. split; [exact He|simpl; lia].
      - right. split; [exact He|simpl; lia]. }
    destruct (add_nugget M nugget) as [shifted|e0] eqn:Hadd; cbn [bind] in H.
    + destruct (cholesky shifted) as [U|e1] eqn:Hchol; [discriminate H|].
      destruct e1; try (inversion H; subst; right;
                        split; [intros msg' Hc; discriminate Hc|simpl; lia]).
      apply (Hrec H).
    + destruct e0; try (inversion H; subst; right;
                        split; [intros msg' Hc; discriminate Hc|simpl; lia]).
      apply (Hrec H).
Qed.

End CholNuggetAny.

(** Whatever the factorisation routine does, a pair [(L, nugget)]
    returned by [_cholNugget] is genuine: [L] is the transpose of a factor
    the routine produced, either for the matrix itself (and then nothing
    was printed) or, after a first [LinAlgError] and with a positive retry
    budget, for the matrix plus the returned nugget times the identity. *)
Theorem cholNugget_returns_a_factor
        (cholesky : matrix -> result matrix) (v : variant) (M : matrix)
        (maximum : Z) (out : list printed) (L : matrix) (nugget : Q) :
  _cholNugget cholesky v M maximum = (out, Ok (L, nugget)) ->
  exists U,
    L = transpose U
    /\ ((cholesky M = Ok U /\ out = [])
        \/ (exists msg shifted,
              cholesky M = Raise (LinAlgError msg)
              /\ (0 < maximum)%Z
              /\ add_nugget M nugget = Ok shifted
              /\ cholesky shifted = Ok U)).
Proof.
  unfold _cholNugget.
  destruct (cholesky M) as [U|e] eqn:Hdirect.
  - intros H. inversion H; subst. exists U. split; [reflexivity|].
    left. split; reflexivity.
  - destruct e; try discriminate.
    destruct (retry cholesky (Z.to_nat maximum) 0 _ M) as [out' res] eqn:Hr.
    intros H. inversion H; subst.
    destruct (retry_sound _ _ _ _ _ Hr) as [Hpos [_ [U [shifted [HL [Ha Hc]]]]]].
    exists U. split; [exact HL|]. right.
    exists msg, shifted. repeat split; try assumption. lia.
Qed.

Lemma cholNugget_returns_a_factor_witness :
  exists U,
    transpose [[3; 0]; [0; 3]] = transpose U
    /\ ((chol_exact [[-1; 0]; [0; -1]] = Ok U
         /\ Msg (banner npvi) :: retry_lines [[-1; 0]; [0; -1]] 7 = [])
        \/ (exists msg shifted,
              chol_exact [[-1; 0]; [0; -1]] = Raise (LinAlgError msg)
              /\ (0 < 10)%Z
              /\ add_nugget [[-1; 0]; [0; -1]]
                            (nugget_at [[-1; 0]; [0; -1]] 6)
                 = Ok shifted
              /\ chol_exact shifted = Ok U)).
Proof.
  apply (@cholNugget_returns_a_factor chol_exact npvi [[-1; 0]; [0; -1]] 10).
  vm_compute. reflexivity.
Defined.

(** How [_cholNugget] can fail, whatever the factorisation routine
    does: a [LinAlgError] of the routine never escapes.  The call ends
    either with its own terminal [LinAlgError], after the banner and
    exactly [maximum] retry lines, or with an exception of another class
    raised on the way, after at most that many lines. *)
Theorem cholNugget_failure_kinds
        (cholesky : matrix -> result matrix) (v : variant) (M : matrix)
        (maximum : Z) (out : list printed) (e : exn) :
  _cholNugget cholesky v M maximum = (out, Raise e) ->
  (e = still_not_pd /\ length out = S (Z.to_nat maximum))
  \/ ((forall msg, e <> LinAlgError msg)
      /\ (length out <= S (Z.to_nat maximum))%nat).
Proof.
  unfold _cholNugget.
  destruct (cholesky M) as [U|e0] eqn:Hdirect; [discriminate|].
  destruct e0;
    try (intros H; inversion H; subst; right;
         split; [intros msg' Hc; discriminate Hc|simpl; lia]).
  destruct (retry cholesky (Z.to_nat maximum) 0 _ M) as [out' res] eqn:Hr.
  intros H. inversion H; subst.
  destruct (@retry_failure _ _ _ _ _ _ _ Hr) as [[He Hl]|[He Hl]].
  - left. split; [exact He|simpl; lia].
  - right. split; [exact He|simpl; lia].
Qed.

Lemma cholNugget_failure_kinds_witness :
  (still_not_pd = still_not_pd
   /\ length (Msg (banner npvi) :: retry_lines [[-1; 0]; [0; -1]] 3)
      = S (Z.to_nat 3%Z))
  \/ ((forall msg, still_not_pd <> LinAlgError msg)
      /\ le (length (Msg (banner npvi) :: retry_lines [[-1; 0]; [0; -1]] 3))
            (S (Z.to_nat 3%Z))).
Proof.
  apply (@cholNugget_failure_kinds chol_exact npvi [[-1; 0]; [0; -1]] 3).
  vm_compute. reflexivity.
Defined.

(** ** Prediction-time kernel evaluation, continued *)

Lemma bdim_1_l (n : nat) : bdim 1 n = Some n.
Proof. unfold bdim. destruct (Nat.eqb_spec 1 n) as [<-|]; reflexivity. Qed.

Lemma bdim_1_r (n : nat) : bdim n 1 = Some n.
Proof. unfold bdim. destruct (Nat.eqb_spec n 1) as [->|]; reflexivity. Qed.

Lemma row_minus_row (x : Q) (time : vector) (a : array) :
  view2 a = [[x]] -> (ndim a <= 2)%nat ->
  sub a (Mat (row time)) = Ok (Mat (cross_lag [x] time)).
Proof.
  intros Hv Hr. unfold sub, elementwise, broadcast2. rewrite Hv.
  cbn [view2 row rows cols length hd].
  rewrite bdim_same, bdim_1_l. cbn [bind].
  cbn [ndim]. rewrite Nat.max_r by exact Hr.
  cbn [of_view2]. unfold cross_lag. cbn [length]. do 2 f_equal.
  apply mx_tab_ext. intros i j Hi Hj.
  assert (i = 0%nat) by lia. subst i.
  rewrite (bidx_in_range Hj). reflexivity.
Qed.

Lemma column_minus_row (ts time : vector) :
  (0 < length ts)%nat ->
  sub (Mat (column ts)) (Mat (row time)) = Ok (Mat (cross_lag ts time)).
Proof.
  intros Hpos. unfold sub, elementwise, broadcast2. simpl view2.
  assert (Hrc : rows (column ts) = length ts) by apply length_map.
  rewrite Hrc, cols_column by lia.
  change (rows (row time)) with 1%nat.
  change (cols (row time)) with (length time).
  rewrite bdim_1_r, bdim_1_l. simpl. do 2 f_equal.
  apply mx_tab_ext. intros i j Hi Hj.
  rewrite (bidx_in_range Hi), (bidx_in_range Hj).
  change (bidx 1 j) with 0%nat. change (bidx 1 i) with 0%nat.
  rewrite get_column by exact Hi. reflexivity.
Qed.

(** For a kernel that is neither Linear, Polynomial nor WhiteNoise the
    prediction matrix is the kernel evaluated on the lags between query
    and training times, one row per query time; a single time given as a
    number is treated like the array holding just that time. *)
Theorem predictKernelMatrix_cross_lag (self : inference) (kernel : kernel) :
  kclass kernel = covStationary ->
  (forall ts, ts <> [] ->
     _predictKernelMatrix self kernel (Many ts)
     = call_r kernel (Mat (cross_lag ts (Self.time self))))
  /\ (forall t,
        _predictKernelMatrix self kernel (One t)
        = _predictKernelMatrix self kernel (Many [t])).
Proof.
  intros Hk.
  assert (Hlp : is_covL_or_covP kernel = false)
    by (unfold is_covL_or_covP; rewrite Hk; reflexivity).
  assert (Hwn : is_covWN kernel = false)
    by (unfold is_covWN; rewrite Hk; reflexivity).
  assert (Hres : forall r : result array,
             (K <- (K <- r ;; Ok (Some K)) ;;
              match K with
              | Some K => Ok K
              | None => Raise (UnboundLocalError "K")
              end) = r).
  { intros [K|e]; reflexivity. }
  split.
  - intros ts Hne. unfold _predictKernelMatrix. rewrite Hlp, Hwn. cbn [bind].
    assert (Hlag : (if size (to_array (Many ts)) =? 1
                    then sub (to_array (Many ts)) (Mat (row (Self.time self)))
                    else c <- newaxis_col (Many ts) ;;
                         sub c (Mat (row (Self.time self))))
                   = Ok (Mat (cross_lag ts (Self.time self)))).
    { cbn [to_array size newaxis_col bind].
      destruct ts as [|x [|x' ts']]; [congruence| |].
      - cbn [length Nat.eqb]. apply (@row_minus_row x _ (Vec [x]));
          [reflexivity|cbn [ndim]; lia].
      - cbn [length Nat.eqb]. apply column_minus_row. simpl. lia. }
    rewrite Hlag. cbn [bind].
    destruct (call_r kernel _); reflexivity.
  - intros t. unfold _predictKernelMatrix. rewrite Hlp, Hwn. cbn [bind].
    cbn [to_array size length Nat.eqb].
    rewrite (@row_minus_row t _ (Scalar t)) by (reflexivity || (cbn [ndim]; lia)).
    rewrite (@row_minus_row t _ (Vec [t])) by (reflexivity || (cbn [ndim]; lia)).
    reflexivity.
Qed.

Lemma predictKernelMatrix_cross_lag_witness :
  (forall ts, ts <> [] ->
     _predictKernelMatrix example_engine (rational_kernel 1) (Many ts)
     = call_r (rational_kernel 1) (Mat (cross_lag ts (Self.time example_engine))))
  /\ (forall t,
        _predictKernelMatrix example_engine (rational_kernel 1) (One t)
        = _predictKernelMatrix example_engine (rational_kernel 1) (Many [t])).
Proof.
  apply (@predictKernelMatrix_cross_lag example_engine (rational_kernel 1)).
  reflexivity.
Defined.

(** ** The block-diagonal prior covariance, continued *)

Lemma for_each_app {A S : Type} (xs ys : list A) (body : S -> A -> result S)
      (acc : S) :
  for_each (xs ++ ys) body acc = bind (for_each xs body acc) (for_each ys body).
Proof.
  revert acc. induction xs as [|x xs IH]; intros acc; [reflexivity|].
  cbn [app for_each]. destruct (body acc x) as [acc'|e]; cbn [bind];
    [apply IH|reflexivity].
Qed.

Lemma for_each_ext {A S : Type} (xs : list A) (f g : S -> A -> result S) :
  (forall x acc, In x xs -> f acc x = g acc x) ->
  forall acc, for_each xs f acc = for_each xs g acc.
Proof.
  induction xs as [|x xs IH]; intros Hfg acc; [reflexivity|].
  cbn [for_each]. rewrite (Hfg x acc) by (left; reflexivity).
  destruct (g acc x) as [acc'|e]; cbn [bind]; [|reflexivity].
  apply IH. intros y acc0 Hy. apply Hfg. right. exact Hy.
Qed.

Lemma CB_matrix_value
      (v : variant) (self : inference) (nodes : list kernel)
      (weight : kernel) (time : vector) (Kn : list matrix) (Kw : matrix) :
  length nodes = Self.q self ->
  Self.qp self = (Self.q self * Self.p self)%nat ->
  Forall2 (evaluates_to v time) nodes Kn ->
  evaluates_to v time weight Kw ->
  _CB_matrix v self nodes weight time
  = Ok (mx_tab (length time * Self.q self * (Self.p self + 1))
               (length time * Self.q self * (Self.p self + 1))
               (block_diag_entry (length time)
                  (Kn ++ repeat Kw (Self.q self * Self.p self)) 0)).
Proof.
  intros Hq Hqp Hnodes [Hweight HKw].
  assert (HlenKn : length Kn = Self.q self).
  { rewrite <- Hq. symmetry. apply (Forall2_length Hnodes). }
  unfold _CB_matrix.
  set (size := (length time * Self.q self * (Self.p self + 1))%nat).
  change (zeros size size, 0%nat)
    with (mx_tab size size (block_diag_entry (length time) (firstn 0 Kn) 0),
          (0 * length time)%nat).
  rewrite (@node_loop v nodes time Kn size Hnodes (Self.q self) 0%nat)
    by (unfold size; nia).
  cbn [bind]. rewrite Hweight. cbn [bind].
  rewrite Hqp, Nat.add_0_l, <- HlenKn, firstn_all.
  replace (block_diag_entry (length time) Kn 0)
    with (block_diag_entry (length time) (Kn ++ repeat Kw 0) 0)
    by (simpl; rewrite app_nil_r; reflexivity).
  replace (length Kn * length time)%nat
    with ((length Kn + 0) * length time)%nat by lia.
  rewrite (@weight_loop time size Kw Kn (length Kn * Self.p self) HKw 0%nat 0%nat)
    by (unfold size; rewrite HlenKn; nia).
  reflexivity.
Qed.

Lemma block_diag_entry_symmetric (n : nat) (Ks : list matrix) :
  Forall symmetric Ks ->
  forall pos i j,
    block_diag_entry n Ks pos i j == block_diag_entry n Ks pos j i.
Proof.
  induction 1 as [|K Ks HK _ IH]; intros pos i j; [reflexivity|].
  cbn [block_diag_entry].
  assert (Hsw : in_block pos n j i = in_block pos n i j).
  { unfold in_block.
    destruct (pos <=? i), (i <? pos + n), (pos <=? j), (j <? pos + n);
      reflexivity. }
  rewrite Hsw. destruct (in_block pos n i j); [apply HK|apply IH].
Qed.

(** The prior covariance is symmetric as soon as every kernel matrix
    placed on its diagonal is. *)
Theorem CB_matrix_symmetric
        (v : variant) (self : inference) (nodes : list kernel)
        (weight : kernel) (time : vector) (Kn : list matrix) (Kw : matrix) :
  length nodes = Self.q self ->
  Self.qp self = (Self.q self * Self.p self)%nat ->
  Forall2 (evaluates_to v time) nodes Kn ->
  evaluates_to v time weight Kw ->
  Forall symmetric Kn ->
  symmetric Kw ->
  exists CB,
    _CB_matrix v self nodes weight time = Ok CB /\ symmetric CB.
Proof.
  intros Hq Hqp Hnodes Hweight HsKn HsKw.
  eexists. split; [apply (CB_matrix_value self Hq Hqp Hnodes Hweight)|].
  set (size := (length time * Self.q self * (Self.p self + 1))%nat).
  assert (Hall : Forall symmetric (Kn ++ repeat Kw (Self.q self * Self.p self))).
  { apply Forall_app. split; [exact HsKn|].
    apply Forall_forall. intros K HK. apply repeat_spec in HK. subst K.
    exact HsKw. }
  intros i j.
  destruct (Nat.lt_ge_cases i size) as [Hi|Hi];
    destruct (Nat.lt_ge_cases j size) as [Hj|Hj].
  - rewrite !get_mx_tab by assumption.
    apply (block_diag_entry_symmetric _ Hall).
  - rewrite !get_mx_tab_outside by (first [left; assumption|right; assumption]).
    reflexivity.
  - rewrite !get_mx_tab_outside by (first [left; assumption|right; assumption]).
    reflexivity.
  - rewrite !get_mx_tab_outside by (first [left; assumption|right; assumption]).
    reflexivity.
Qed.

Lemma symmetric_of_entries (n : nat) (M : matrix) :
  has_shape n n M ->
  (forall i j, (i < n)%nat -> (j < n)%nat -> get M i j == get M j i) ->
  symmetric M.
Proof.
  intros [Hr Hc] Hin i j.
  assert (Hout : forall a b, (n <= a)%nat \/ (n <= b)%nat -> get M a b = 0).
  { intros a b Hab. unfold get.
    destruct (Nat.lt_ge_cases a n) as [Ha|Ha].
    - apply nth_overflow. rewrite Forall_forall in Hc.
      rewrite (Hc (nth a M [])) by (apply nth_In; lia). lia.
    - rewrite (nth_overflow M) by lia. destruct b; reflexivity. }
  destruct (Nat.lt_ge_cases i n) as [Hi|Hi];
    destruct (Nat.lt_ge_cases j n) as [Hj|Hj].
  - apply Hin; assumption.
  - rewrite !Hout by (first [left; assumption|right; assumption]). reflexivity.
  - rewrite !Hout by (first [left; assumption|right; assumption]). reflexivity.
  - rewrite !Hout by (first [left; assumption|right; assumption]). reflexivity.
Qed.

Lemma CB_matrix_symmetric_witness :
  exists CB,
    _CB_matrix npvi example_engine example_nodes example_weight example_time
    = Ok CB
    /\ symmetric CB.
Proof.
  apply (@CB_matrix_symmetric npvi example_engine example_nodes
           example_weight example_time example_Kn example_Kw).
  - reflexivity.
  - reflexivity.
  - repeat constructor; vm_compute; reflexivity.
  - split; [vm_compute; reflexivity|]. repeat constructor.
  - repeat constructor;
      (apply (@symmetric_of_entries 2); [repeat constructor|];
       intros [|[|i]] [|[|j]] Hi Hj; try lia; vm_compute; reflexivity).
  - apply (@symmetric_of_entries 2); [repeat constructor|].
    intros [|[|i]] [|[|j]] Hi Hj; try lia; vm_compute; reflexivity.
Defined.

(** Fewer node kernels than the engine's [q]: the matrices of the
    kernels present are placed, then [nodes[i]] raises [IndexError]. *)
Theorem CB_matrix_too_few_nodes
        (v : variant) (self : inference) (nodes : list kernel)
        (weight : kernel) (time : vector) (Kn : list matrix) :
  (length nodes < Self.q self)%nat ->
  Forall2 (evaluates_to v time) nodes Kn ->
  _CB_matrix v self nodes weight time = Raise (IndexError "index out of range").
Proof.
  intros Hlt Hnodes. unfold _CB_matrix.
  set (size := (length time * Self.q self * (Self.p self + 1))%nat).
  assert (Hseq : seq 0 (Self.q self)
                 = seq 0 (length nodes)
                   ++ seq (0 + length nodes) (S (Self.q self - S (length nodes)))).
  { rewrite <- seq_app. f_equal. lia. }
  rewrite Hseq, for_each_app.
  change (zeros size size, 0%nat)
    with (mx_tab size size (block_diag_entry (length time) (firstn 0 Kn) 0),
          (0 * length time)%nat).
  rewrite (@node_loop v nodes time Kn size Hnodes (length nodes) 0%nat)
    by (unfold size; nia).
  cbn [bind seq for_each]. unfold place_node at 1.
  unfold getitem.
  replace (nth_error nodes (0 + length nodes)) with (@None kernel)
    by (symmetry; apply nth_error_None; lia).
  reflexivity.
Qed.

Lemma CB_matrix_too_few_nodes_witness :
  _CB_matrix npvi example_engine [rational_kernel 1] example_weight example_time
  = Raise (IndexError "index out of range").
Proof.
  apply (@CB_matrix_too_few_nodes npvi example_engine [rational_kernel 1]
           example_weight example_time
           [matrix_of (_kernelMatrix npvi (rational_kernel 1) example_time)]).
  - simpl. lia.
  - repeat constructor; vm_compute; reflexivity.
Defined.

(** Only the first [q] entries of [nodes] are ever looked at: kernels
    beyond them are neither evaluated nor placed. *)
Theorem CB_matrix_ignores_extra_nodes
        (v : variant) (self : inference) (nodes : list kernel)
        (weight : kernel) (time : vector) :
  _CB_matrix v self nodes weight time
  = _CB_matrix v self (firstn (Self.q self) nodes) weight time.
Proof.
  unfold _CB_matrix.
  rewrite (@for_each_ext _ _ (seq 0 (Self.q self))
             (place_node v nodes time)
             (place_node v (firstn (Self.q self) nodes) time));
    [reflexivity|].
  intros i [CB pos] Hi. apply in_seq in Hi.
  unfold place_node, getitem.
  rewrite nth_error_firstn.
  replace (i <? Self.q self) with true by (symmetry; apply Nat.ltb_lt; lia).
  reflexivity.
Qed.

(** ** Sampling from the prior *)

(** [u_to_fhatW] repeats the body of [_fhat_and_w] with [time.size] in
    place of [self.N]: on the engine's own number of times it is
    [_fhat_and_w] applied to a sample of [_sample_CB]; and whenever the
    sample has one entry per row of CB it is split, without failure, into
    a (1, q, T) node tensor and a (p, q, T) weight tensor whose entries,
    nodes first, are the sample. *)
Theorem u_to_fhatW_splits_sample
        (rvs : vector -> matrix -> result vector)
        (v : variant) (self : inference) (nodes : list kernel)
        (weight : kernel) (time : vector) (u : vector) :
  _sample_CB rvs v self nodes weight time = Ok u ->
  length u = (length time * Self.q self * (Self.p self + 1))%nat ->
  (exists f w,
     u_to_fhatW rvs v self nodes weight time = Ok (f, w)
     /\ shape f = [1%nat; Self.q self; length time]
     /\ shape w = [Self.p self; Self.q self; length time]
     /\ data f ++ data w = u)
  /\ (Self.N self = length time ->
      u_to_fhatW rvs v self nodes weight time = _fhat_and_w self u).
Proof.
  intros Hu Hlen. split.
  - unfold u_to_fhatW. rewrite Hu. cbn [bind]. unfold reshape.
    assert (H1 : length (firstn (Self.q self * length time) u)
                 = fold_right Nat.mul 1%nat [1%nat; Self.q self; length time]).
    { rewrite length_firstn. simpl. nia. }
    assert (H2 : length (skipn (Self.q self * length time) u)
                 = fold_right Nat.mul 1%nat
                              [Self.p self; Self.q self; length time]).
    { rewrite length_skipn. simpl. nia. }
    rewrite H1, Nat.eqb_refl. cbn [bind]. rewrite H2, Nat.eqb_refl.
    do 2 eexists. split; [reflexivity|].
    split; [reflexivity|split; [reflexivity|apply firstn_skipn]].
  - intros HN. unfold u_to_fhatW, _fhat_and_w. rewrite Hu, HN. reflexivity.
Qed.

Lemma u_to_fhatW_splits_sample_witness :
  (exists f w,
     u_to_fhatW mean_draw npvi example_engine example_nodes example_weight
                example_time
     = Ok (f, w)
     /\ shape f = [1%nat; Self.q example_engine; length example_time]
     /\ shape w = [Self.p example_engine; Self.q example_engine;
                   length example_time]
     /\ data f ++ data w = repeat 0 8)
  /\ (Self.N example_engine = length example_time ->
      u_to_fhatW mean_draw npvi example_engine example_nodes example_weight
                 example_time
      = _fhat_and_w example_engine (repeat 0 8)).
Proof.
  apply (@u_to_fhatW_splits_sample mean_draw npvi example_engine example_nodes
           example_weight example_time (repeat 0 8)).
  - vm_compute. reflexivity.
  - reflexivity.
Defined.

(** ** Initial mixture parameters *)

Lemma skipn_nth_error {A : Type} (xs : list A) :
  forall (s : nat) (x : A),
    nth_error xs s = Some x -> skipn s xs = x :: skipn (S s) xs.
Proof.
  induction xs as [|y xs IH]; intros [|s] x H; try discriminate.
  - inversion H. reflexivity.
  - cbn [skipn]. apply IH. exact H.
Qed.

Section UpdateMuFacts.

Variable self : inference.
Variable mu : list vector.

Hypothesis columns :
  Forall (fun col => length col
                     = (Self.q self * Self.N self * (Self.p self + 1))%nat) mu.

Local Abbreviation node_part :=
  (fun col : vector =>
     NdArray [1%nat; Self.q self; Self.N self]
             (firstn (Self.q self * Self.N self) col)).
Local Abbreviation weight_part :=
  (fun col : vector =>
     NdArray [Self.p self; Self.q self; Self.N self]
             (skipn (Self.q self * Self.N self) col)).

Lemma updateMu_loop (m : nat) :
  forall (s : nat) (sigma : vector) (muF muW : list ndarray),
    (s + m <= length mu)%nat ->
    for_each (seq s m)
      (fun (st : vector * list ndarray * list ndarray) i =>
         let '(sigma, muF, muW) := st in
         let sigma := sigma ++ [1] in
         col <- getitem mu i ;;
         '(meme, mumu) <- _fhat_and_w self col ;;
         Ok (sigma, muF ++ [meme], muW ++ [mumu]))
      (sigma, muF, muW)
    = Ok (sigma ++ repeat 1 m,
          muF ++ map node_part (firstn m (skipn s mu)),
          muW ++ map weight_part (firstn m (skipn s mu))).
Proof.
  induction m as [|m IH]; intros s sigma muF muW Hfit.
  - cbn [seq for_each firstn map repeat]. rewrite !app_nil_r. reflexivity.
  - cbn [seq for_each].
    destruct (nth_error mu s) as [col|] eqn:Hcol;
      [|apply nth_error_None in Hcol; lia].
    unfold getitem. rewrite Hcol. cbn [bind].
    assert (Hlen : length col
                   = (Self.q self * Self.N self * (Self.p self + 1))%nat).
    { rewrite Forall_forall in columns. apply columns.
      apply (nth_error_In _ _ Hcol). }
    rewrite (fhat_and_w_value self col Hlen). cbn [bind].
    rewrite IH by lia.
    rewrite (skipn_nth_error _ _ Hcol). cbn [firstn map repeat].
    rewrite <- !app_assoc. reflexivity.
Qed.

End UpdateMuFacts.

(** [_npvi_updateMu] on an engine whose [self.N] is the number of its
    times: whatever is drawn, every mixture component gets the width 1,
    and component [i] gets the node and weight tensors cut from column
    [i] of the draw; the call cannot fail in [reshape]. *)
Theorem npvi_updateMu_unit_widths
        (randn : nat -> nat -> list vector) (self : inference) (k : nat) :
  Self.N self = length (Self.time self) ->
  length (randn (length (Self.time self) * Self.q self * (Self.p self + 1))%nat k)
  = k ->
  Forall (fun col => length col
                     = (length (Self.time self) * Self.q self
                        * (Self.p self + 1))%nat)
         (randn (length (Self.time self) * Self.q self * (Self.p self + 1))%nat k) ->
  _npvi_updateMu randn self k
  = Ok (map (fun col => NdArray [1%nat; Self.q self; Self.N self]
                                (firstn (Self.q self * Self.N self) col))
            (randn (length (Self.time self) * Self.q self * (Self.p self + 1))%nat k),
        map (fun col => NdArray [Self.p self; Self.q self; Self.N self]
                                (skipn (Self.q self * Self.N self) col))
            (randn (length (Self.time self) * Self.q self * (Self.p self + 1))%nat k),
        repeat 1 k).
Proof.
  intros HN Hk Hcols. unfold _npvi_updateMu. cbv zeta.
  set (mu := randn _ k) in *.
  assert (Hcols' : Forall (fun col => length col
                     = (Self.q self * Self.N self * (Self.p self + 1))%nat) mu).
  { apply (Forall_impl _ (P := fun col => length col
             = (length (Self.time self) * Self.q self * (Self.p self + 1))%nat));
      [|exact Hcols].
    intros col Hc. rewrite Hc, HN. lia. }
  assert (Hfit : (0 + k <= length mu)%nat) by lia.
  pose proof (@updateMu_loop self mu Hcols' k 0%nat [] [] [] Hfit) as Hloop.
  match type of Hloop with
  | _ = ?rhs =>
      match goal with
      | |- bind ?X _ = _ => assert (Hx : X = rhs) by exact Hloop; rewrite Hx
      end
  end.
  cbn [bind skipn app]. rewrite <- Hk at 1 2. rewrite firstn_all. reflexivity.
Qed.

Lemma npvi_updateMu_unit_widths_witness :
  _npvi_updateMu counting_draw example_engine 2
  = Ok (map (fun col => NdArray [1%nat; Self.q example_engine; Self.N example_engine]
                                (firstn (Self.q example_engine
                                         * Self.N example_engine) col))
            (counting_draw 8 2),
        map (fun col => NdArray [Self.p example_engine; Self.q example_engine;
                                 Self.N example_engine]
                                (skipn (Self.q example_engine
                                        * Self.N example_engine) col))
            (counting_draw 8 2),
        repeat 1 2).
Proof.
  apply (@npvi_updateMu_unit_widths counting_draw example_engine 2).
  - reflexivity.
  - reflexivity.
  - repeat constructor.
Defined.

(** ** The entropy of the mixture *)

Lemma take_axis2_error (a : ndarray) (j : nat) (e : exn) :
  take_axis2 a j = Raise e -> exists msg, e = IndexError msg.
Proof.
  unfold take_axis2.
  destruct (shape a) as [|d0 [|d1 [|d2 [|d3 rest]]]];
    try (intros H; inversion H; eexists; reflexivity).
  destruct (j <? d2); [discriminate|].
  intros H; inversion H; eexists; reflexivity.
Qed.

(** The accumulator of [_entropy] starts as an array with two rows, so
    with at least one node the first [hstack] only accepts a mixture of
    exactly two components: for every other [k] the call raises, whatever
    the arrays handed in, and the exception is an [IndexError] of the
    slicing or a [ValueError] of [reshape] or [hstack]. *)
Theorem entropy_needs_two_components
        (log exp : Q -> Q) (self : inference) (muF muW : ndarray)
        (sigma : vector) (k : nat) :
  (0 < Self.q self)%nat ->
  k <> 2%nat ->
  exists e,
    Mixture._entropy log exp self muF muW sigma k = Raise e
    /\ ((exists msg, e = IndexError msg) \/ (exists msg, e = ValueError msg)).
Proof.
  intros Hq Hk. unfold Mixture._entropy.
  destruct (Self.q self) as [|q']; [lia|].
  cbn [seq for_each].
  destruct (take_axis2 muF 0) as [s|e] eqn:Hs; cbn [bind].
  - unfold reshape2.
    destruct (length (data s) =? k * Self.N self); cbn [bind].
    + unfold hstack. rewrite rows_mx_tab. cbn [rows length].
      replace (2 =? k) with false by (symmetry; apply Nat.eqb_neq; lia).
      cbn [bind]. eexists. split; [reflexivity|]. right. eexists. reflexivity.
    + eexists. split; [reflexivity|]. right. eexists. reflexivity.
  - exists e. split; [reflexivity|]. left. apply (take_axis2_error _ _ Hs).
Qed.

Lemma entropy_needs_two_components_witness :
  exists e,
    Mixture._entropy affine_log affine_exp example_engine
      (NdArray [3%nat; 1%nat; 2%nat; 2%nat] (repeat 1 12))
      (NdArray [3%nat; 1%nat; 2%nat; 2%nat] (repeat 1 12))
      [1; 1; 1] 3
    = Raise e
    /\ ((exists msg, e = IndexError msg) \/ (exists msg, e = ValueError msg)).
Proof.
  apply (@entropy_needs_two_components affine_log affine_exp example_engine
           (NdArray [3%nat; 1%nat; 2%nat; 2%nat] (repeat 1 12))
           (NdArray [3%nat; 1%nat; 2%nat; 2%nat] (repeat 1 12))
           [1; 1; 1] 3).
  - simpl. lia.
  - lia.
Defined.

Lemma hstack_shape (r c c' : nat) (A B : matrix) :
  has_shape r c A -> has_shape r c' B ->
  exists M, hstack A B = Ok M /\ has_shape r (c + c') M.
Proof.
  intros [HAr HAc] [HBr HBc]. unfold hstack, rows.
  rewrite HAr, HBr, Nat.eqb_refl. eexists. split; [reflexivity|].
  split.
  - rewrite length_map, length_combine, HAr, HBr. apply Nat.min_id.
  - apply Forall_forall. intros row Hrow.
    apply in_map_iff in Hrow. destruct Hrow as [[a b] [<- Hab]].
    rewrite Forall_forall in HAc, HBc.
    cbn [fst snd]. rewrite length_app.
    rewrite (HAc a (in_combine_l _ _ _ _ Hab)).
    rewrite (HBc b (in_combine_r _ _ _ _ Hab)). reflexivity.
Qed.

Lemma hstack_loop {A : Type} (N : nat) (body : matrix -> A -> result matrix)
      (xs : list A) :
  (forall x Sig c, In x xs -> has_shape 2 c Sig ->
     exists Sig', body Sig x = Ok Sig' /\ has_shape 2 (c + N) Sig') ->
  forall Sig c,
    has_shape 2 c Sig ->
    exists Sig',
      for_each xs body Sig = Ok Sig'
      /\ has_shape 2 (c + length xs * N) Sig'.
Proof.
  induction xs as [|x xs IH]; intros Hbody Sig c HSig.
  - exists Sig. split; [reflexivity|]. simpl. rewrite Nat.add_0_r. exact HSig.
  - destruct (Hbody x Sig c (or_introl eq_refl) HSig) as [Sig1 [H1 HS1]].
    destruct (IH (fun y S0 c0 Hy => Hbody y S0 c0 (or_intror Hy)) Sig1 _ HS1)
      as [Sig' [Hrun HS']].
    exists Sig'. cbn [for_each]. rewrite H1. cbn [bind].
    split; [exact Hrun|].
    replace (c + length (x :: xs) * N)%nat with (c + N + length xs * N)%nat
      by (simpl; lia).
    exact HS'.
Qed.

Lemma length_list_prod_seq (a b : nat) :
  length (list_prod (seq 0 a) (seq 0 b)) = (a * b)%nat.
Proof. rewrite length_prod, !length_seq. reflexivity. Qed.

(** With exactly two components, tensors of the shapes
    [EvidenceLowerBound] builds, a non-empty [sigma] and at least two
    latent values per component, [_entropy] returns a number. *)
Theorem entropy_two_components_returns
        (log exp : Q -> Q) (self : inference) (muF muW : ndarray)
        (sigma : vector) :
  shape muF = [2%nat; 1%nat; Self.q self; Self.N self] ->
  shape muW = [2%nat; Self.p self; Self.q self; Self.N self] ->
  sigma <> [] ->
  (2 <= (Self.q self + Self.p self * Self.q self) * Self.N self)%nat ->
  exists r, Mixture._entropy log exp self muF muW sigma 2 = Ok r.
Proof.
  intros HF HW Hsigma HD. unfold Mixture._entropy.
  assert (H0 : has_shape 2 0 [[]; []]) by (split; repeat constructor).
  destruct (@hstack_loop nat (Self.N self)
              (fun Sig_nj j =>
                 s <- take_axis2 muF j ;;
                 block <- reshape2 2 (Self.N self) (data s) ;;
                 hstack Sig_nj block)
              (seq 0 (Self.q self))) with (Sig := [[]; []] : matrix) (c := 0%nat)
    as [Sig1 [Hrun1 HS1]]; [|exact H0|].
  { intros j Sig c Hj HSig. apply in_seq in Hj.
    unfold take_axis2. rewrite HF.
    replace (j <? Self.q self) with true by (symmetry; apply Nat.ltb_lt; lia).
    cbn [bind data]. unfold reshape2.
    rewrite length_map, length_list_prod_seq.
    replace (2 * 1 * fold_right Nat.mul 1 [Self.N self] =? 2 * Self.N self)%nat
      with true by (symmetry; apply Nat.eqb_eq; simpl; lia).
    cbn [bind]. apply (hstack_shape HSig). apply has_shape_mx_tab. }
  rewrite Hrun1. cbn [bind].
  destruct (@hstack_loop (nat * nat) (Self.N self)
              (fun Sig_nj ij =>
                 s <- take_axes12 muW (fst ij) (snd ij) ;;
                 block <- reshape2 2 (Self.N self) (data s) ;;
                 hstack Sig_nj block)
              (list_prod (seq 0 (Self.p self)) (seq 0 (Self.q self))))
    with (Sig := Sig1) (c := (0 + length (seq 0 (Self.q self)) * Self.N self)%nat)
    as [Sig2 [Hrun2 HS2]]; [|exact HS1|].
  { intros [i j] Sig c Hij HSig. apply in_prod_iff in Hij.
    destruct Hij as [Hi Hj]. apply in_seq in Hi. apply in_seq in Hj.
    unfold take_axes12. rewrite HW. cbn [fst snd].
    replace (i <? Self.p self) with true by (symmetry; apply Nat.ltb_lt; lia).
    replace (j <? Self.q self) with true by (symmetry; apply Nat.ltb_lt; lia).
    cbn [andb bind data]. unfold reshape2.
    rewrite length_map, length_list_prod_seq.
    replace (2 * fold_right Nat.mul 1 [Self.N self] =? 2 * Self.N self)%nat
      with true by (symmetry; apply Nat.eqb_eq; simpl; lia).
    cbn [bind]. apply (hstack_shape HSig). apply has_shape_mx_tab. }
  rewrite Hrun2. cbn [bind].
  rewrite length_prod, !length_seq in HS2.
  set (C := (0 + Self.q self * Self.N self
             + Self.p self * Self.q self * Self.N self)%nat) in HS2.
  assert (HC : (2 <= C)%nat) by (unfold C; nia).
  destruct sigma as [|sigma0 sigma']; [congruence|].
  cbn [getitem nth_error bind].
  destruct HS2 as [Hrows Hcols].
  destruct Sig2 as [|row0 [|row1 [|row2 Sig2]]]; try discriminate Hrows.
  pose proof (Forall_inv Hcols) as Hr0.
  pose proof (Forall_inv (Forall_inv_tail Hcols)) as Hr1.
  cbv beta in Hr0, Hr1. clear Hcols Hrun1 Hrun2.
  cbn [rows length seq collect getitem nth_error bind].
  unfold diag, scale, identity.
  cbn -[Qmult Qplus Qdiv Qminus Qopp inject_Z py_max column_at sum].
  destruct row0 as [|x0 [|x0' row0]]; try (simpl in Hr0; lia).
  destruct row1 as [|x1 [|x1' row1]]; try (simpl in Hr1; lia).
  cbn -[Qmult Qplus Qdiv Qminus Qopp inject_Z sum fold_left].
  eexists. reflexivity.
Qed.

Lemma entropy_two_components_returns_witness :
  exists r,
    Mixture._entropy affine_log affine_exp example_engine
      (NdArray [2%nat; 1%nat; 2%nat; 2%nat] [1; 2; 3; 4; 5; 6; 7; 8])
      (NdArray [2%nat; 1%nat; 2%nat; 2%nat] [1; 2; 3; 4; 5; 6; 7; 8])
      [1; 1] 2
    = Ok r.
Proof.
  apply (@entropy_two_components_returns affine_log affine_exp example_engine
           (NdArray [2%nat; 1%nat; 2%nat; 2%nat] [1; 2; 3; 4; 5; 6; 7; 8])
           (NdArray [2%nat; 1%nat; 2%nat; 2%nat] [1; 2; 3; 4; 5; 6; 7; 8])
           [1; 1]).
  - reflexivity.
  - reflexivity.
  - discriminate.
  - simpl. lia.
Defined.

(** ** Parameters of the mean functions *)

Section MeanParsFacts.

Import MeanPars.

Lemma setitem_app (d : vector) (x r : Q) (rest : vector) :
  setitem (length d) x (d ++ r :: rest) = Ok (d ++ x :: rest).
Proof.
  induction d as [|y d IH]; [reflexivity|].
  cbn [length app setitem]. rewrite IH. reflexivity.
Qed.

Lemma setitem_end (d : vector) (x : Q) :
  setitem (length d) x d = Raise (IndexError "index out of bounds").
Proof.
  induction d as [|y d IH]; [reflexivity|].
  cbn [length setitem]. rewrite IH. reflexivity.
Qed.

Lemma store_same (h : heap) (a : address) (m : mean_object) :
  store h a m a = m.
Proof. unfold store. rewrite Nat.eqb_refl. reflexivity. Qed.

Lemma store_other (h : heap) (a b : address) (m : mean_object) :
  b <> a -> store h a m b = h b.
Proof.
  intros Hne. unfold store. apply Nat.eqb_neq in Hne. rewrite Hne.
  reflexivity.
Qed.

Lemma fill_spec (a : address) (m : nat) :
  forall (s : nat) (h : heap) (pars_left done rest : vector),
    pars (h a) = done ++ rest ->
    length done = s ->
    (m <= length rest)%nat ->
    (m <= length pars_left)%nat ->
    exists h',
      fill a (seq s m) h pars_left = (h', Ok (skipn m pars_left))
      /\ (forall b, b <> a -> h' b = h b)
      /\ h' a = MeanObject (_parsize (h a))
                           (done ++ firstn m pars_left ++ skipn m rest).
Proof.
  induction m as [|m IH]; intros s h pars_left done rest Hp Hs Hr Hl.
  - exists h. split; [reflexivity|]. split; [reflexivity|].
    cbn [firstn skipn app]. rewrite <- Hp. destruct (h a); reflexivity.
  - destruct pars_left as [|x pl]; [simpl in Hl; lia|].
    destruct rest as [|r rest']; [simpl in Hr; lia|].
    cbn [seq fill]. rewrite Hp, <- Hs, setitem_app.
    set (h1 := store h a (MeanObject (_parsize (h a)) (done ++ x :: rest'))).
    destruct (IH (S (length done)) h1 pl (done ++ [x]) rest')
      as [h' [Hrun [Hframe Ha]]].
    + unfold h1. rewrite store_same. cbn [pars].
      rewrite <- app_assoc. reflexivity.
    + rewrite length_app. simpl. lia.
    + simpl in Hr. lia.
    + simpl in Hl. lia.
    + exists h'. split; [exact Hrun|]. split.
      * intros b Hb. rewrite (Hframe b Hb). apply store_other. exact Hb.
      * rewrite Ha. unfold h1. rewrite store_same. cbn [_parsize firstn skipn].
        rewrite <- app_assoc. reflexivity.
Qed.

Lemma fill_short (a : address) (m : nat) :
  forall (s : nat) (h : heap) (pars_left done rest : vector),
    pars (h a) = done ++ rest ->
    length done = s ->
    (length rest < m)%nat ->
    (m <= length pars_left)%nat ->
    exists h',
      fill a (seq s m) h pars_left
      = (h', Raise (IndexError "index out of bounds"))
      /\ (forall b, b <> a -> h' b = h b)
      /\ h' a = MeanObject (_parsize (h a))
                           (done ++ firstn (length rest) pars_left).
Proof.
  induction m as [|m IH]; intros s h pars_left done rest Hp Hs Hr Hl; [lia|].
  destruct pars_left as [|x pl]; [simpl in Hl; lia|].
  cbn [seq fill]. rewrite Hp, <- Hs.
  destruct rest as [|r rest'].
  - rewrite app_nil_r, setitem_end.
    exists h. split; [reflexivity|]. split; [reflexivity|].
    cbn [length firstn]. rewrite <- Hp. destruct (h a); reflexivity.
  - rewrite setitem_app.
    set (h1 := store h a (MeanObject (_parsize (h a)) (done ++ x :: rest'))).
    destruct (IH (S (length done)) h1 pl (done ++ [x]) rest')
      as [h' [Hrun [Hframe Ha]]].
    + unfold h1. rewrite store_same. cbn [pars].
      rewrite <- app_assoc. reflexivity.
    + rewrite length_app. simpl. lia.
    + simpl in Hr. lia.
    + simpl in Hl. lia.
    + exists h'. split; [exact Hrun|]. split.
      * intros b Hb. rewrite (Hframe b Hb). apply store_other. exact Hb.
      * rewrite Ha. unfold h1. rewrite store_same.
        cbn [_parsize length firstn]. rewrite <- app_assoc. reflexivity.
Qed.

Local Abbreviation count h :=
  (fun (size : nat) (m : option address) =>
     match m with
     | None => (size + 0)%nat
     | Some a => (size + _parsize (h a))%nat
     end).

Lemma count_acc (h : heap) (ms : list (option address)) :
  forall n, fold_left (count h) ms n = (n + fold_left (count h) ms 0)%nat.
Proof.
  induction ms as [|m ms IH]; intros n; [simpl; lia|].
  cbn [fold_left]. rewrite IH, (IH (count h 0%nat m)).
  destruct m; simpl; lia.
Qed.

Lemma count_ext (h h' : heap) (ms : list (option address)) :
  (forall b, _parsize (h' b) = _parsize (h b)) ->
  forall n, fold_left (count h') ms n = fold_left (count h) ms n.
Proof.
  intros Hsame. induction ms as [|m ms IH]; intros n; [reflexivity|].
  cbn [fold_left]. rewrite IH. destruct m; [rewrite Hsame|]; reflexivity.
Qed.

Lemma offset_all (h : heap) (means : list (option address)) :
  offset h means (length means) = snd (mean_pars_size (State h None None) means).
Proof. unfold offset, mean_pars_size. rewrite firstn_all. reflexivity. Qed.

Lemma assign_all_spec (means : list (option address)) :
  forall (h : heap) (pars_left : vector),
    (forall a, In a (addresses means) ->
               (_parsize (h a) <= length (pars (h a)))%nat) ->
    length pars_left = offset h means (length means) ->
    exists h',
      assign_all means h pars_left = (h', Ok [])
      /\ (forall b, ~ In b (addresses means) -> h' b = h b)
      /\ (forall b, _parsize (h' b) = _parsize (h b))
      /\ (forall b, length (pars (h' b)) = length (pars (h b)))
      /\ (forall i a,
            nth_error means i = Some (Some a) ->
            ~ In a (addresses (skipn (S i) means)) ->
            firstn (_parsize (h a)) (pars (h' a))
            = firstn (_parsize (h a)) (skipn (offset h means i) pars_left)).
Proof.
  induction means as [|m ms IH]; intros h pars_left Hfit Hlen.
  - exists h. destruct pars_left; [|discriminate Hlen].
    split; [reflexivity|]. repeat split; try reflexivity.
    intros [|i] a Hi; discriminate Hi.
  - unfold offset in Hlen. rewrite firstn_all in Hlen.
    cbn [fold_left] in Hlen. rewrite count_acc in Hlen.
    destruct m as [a0|].
    + cbn [assign_all].
      set (k0 := _parsize (h a0)) in *.
      assert (Hk0 : (k0 <= length (pars (h a0)))%nat)
        by (apply Hfit; left; reflexivity).
      destruct (@fill_spec a0 k0 0%nat h pars_left [] (pars (h a0)))
        as [h1 [Hrun1 [Hframe1 Ha1]]];
        [reflexivity|reflexivity|exact Hk0|simpl in Hlen; lia|].
      rewrite Hrun1.
      assert (Hps1 : forall b, _parsize (h1 b) = _parsize (h b)).
      { intros b. destruct (Nat.eq_dec b a0) as [->|Hb];
          [rewrite Ha1; reflexivity|rewrite (Hframe1 b Hb); reflexivity]. }
      assert (Hlen1 : forall b, length (pars (h1 b)) = length (pars (h b))).
      { intros b. destruct (Nat.eq_dec b a0) as [->|Hb];
          [|rewrite (Hframe1 b Hb); reflexivity].
        rewrite Ha1. cbn [pars app].
        rewrite length_app, length_firstn, length_skipn.
        simpl in Hlen. lia. }
      destruct (IH h1 (skipn k0 pars_left)) as [h' [Hrun [Hframe [Hps [Hln Hch]]]]].
      { intros a Ha. rewrite Hps1, Hlen1. apply Hfit. right. exact Ha. }
      { rewrite length_skipn. unfold offset. rewrite firstn_all.
        rewrite (count_ext h h1 ms Hps1). simpl in Hlen. lia. }
      exists h'. split; [exact Hrun|].
      split; [|split; [|split]].
      * intros b Hb.
        change (addresses (Some a0 :: ms)) with (a0 :: addresses ms) in Hb.
        rewrite (Hframe b) by (intros Hin; apply Hb; right; exact Hin).
        apply Hframe1. intros ->. apply Hb. left. reflexivity.
      * intros b. rewrite Hps. apply Hps1.
      * intros b. rewrite Hln. apply Hlen1.
      * intros [|i] a Hi Hlast.
        -- inversion Hi; subst a. cbn [skipn] in Hlast.
           rewrite (Hframe a0 Hlast), Ha1. cbn [pars app].
           unfold offset. cbn [firstn fold_left skipn].
           rewrite firstn_app, firstn_firstn, Nat.min_id.
           rewrite length_firstn. fold k0.
           replace (k0 - Nat.min k0 (length pars_left))%nat with 0%nat
             by (simpl in Hlen; lia).
           cbn [firstn]. rewrite app_nil_r. reflexivity.
        -- cbn [nth_error] in Hi. cbn [skipn] in Hlast.
           rewrite <- (Hps1 a), (Hch i a Hi Hlast), skipn_skipn.
           unfold offset. cbn [firstn fold_left].
           rewrite (count_ext h h1 (firstn i ms) Hps1).
           rewrite (count_acc h (firstn i ms) (count h 0%nat (Some a0))).
           simpl. fold k0. f_equal. f_equal. lia.
    + cbn [assign_all].
      destruct (IH h pars_left) as [h' [Hrun [Hframe [Hps [Hln Hch]]]]].
      { intros a Ha. apply Hfit. exact Ha. }
      { unfold offset. rewrite firstn_all. simpl in Hlen. lia. }
      exists h'. split; [exact Hrun|].
      split; [exact Hframe|split; [exact Hps|split; [exact Hln|]]].
      intros [|i] a Hi Hlast; [discriminate Hi|].
      cbn [nth_error] in Hi. cbn [skipn] in Hlast.
      rewrite (Hch i a Hi Hlast).
      unfold offset. cbn [firstn fold_left]. reflexivity.
Qed.

(** Assigning [mean_pars] a list with one value per declared
    parameter, every listed object holding an array at least as long as
    its [_parsize]: the call returns, [_mean_pars] keeps the whole list,
    objects that are not listed are untouched, and the object at
    position [i] of [means] starts with the values that follow those of
    the positions before it, unless the same object is listed again
    later, in which case the later position overwrites it. *)
Theorem mean_pars_assigns_chunks (st : state) (means : list (option address))
        (new_pars : vector) :
  (forall a, In a (addresses means) ->
     (_parsize (objects st a) <= length (pars (objects st a)))%nat) ->
  length new_pars = offset (objects st) means (length means) ->
  exists st',
    mean_pars st means new_pars = (st', Ok tt)
    /\ _mean_pars st' = Some new_pars
    /\ _mean_pars_size st' = Some (length new_pars)
    /\ (forall b, ~ In b (addresses means) -> objects st' b = objects st b)
    /\ (forall i a,
          nth_error means i = Some (Some a) ->
          ~ In a (addresses (skipn (S i) means)) ->
          firstn (_parsize (objects st a)) (pars (objects st' a))
          = firstn (_parsize (objects st a))
                   (skipn (offset (objects st) means i) new_pars)).
Proof.
  intros Hfit Hlen.
  destruct (assign_all_spec means (objects st) new_pars Hfit Hlen)
    as [h' [Hrun [Hframe [_ [_ Hch]]]]].
  unfold mean_pars, mean_pars_size. cbn [objects _mean_pars _mean_pars_size].
  assert (Hsize : fold_left (count (objects st)) means 0%nat = length new_pars).
  { rewrite Hlen. unfold offset. rewrite firstn_all. reflexivity. }
  rewrite Hsize, Nat.eqb_refl, Hrun.
  eexists. split; [reflexivity|]. cbn [objects _mean_pars _mean_pars_size].
  split; [reflexivity|]. split; [reflexivity|].
  split; [exact Hframe|exact Hch].
Qed.

Lemma mean_pars_assigns_chunks_witness :
  exists st',
    mean_pars (State example_heap None None)
              [Some 0%nat; None; Some 1%nat; Some 0%nat] [1; 2; 3; 4; 5]
    = (st', Ok tt)
    /\ _mean_pars st' = Some [1; 2; 3; 4; 5]
    /\ _mean_pars_size st' = Some (length [1; 2; 3; 4; 5])
    /\ (forall b, ~ In b (addresses [Some 0%nat; None; Some 1%nat; Some 0%nat]) ->
                  objects st' b = example_heap b)
    /\ (forall i a,
          nth_error [Some 0%nat; None; Some 1%nat; Some 0%nat] i
          = Some (Some a) ->
          ~ In a (addresses
                    (skipn (S i) [Some 0%nat; None; Some 1%nat; Some 0%nat])) ->
          firstn (_parsize (example_heap a)) (pars (objects st' a))
          = firstn (_parsize (example_heap a))
                   (skipn (offset example_heap
                                  [Some 0%nat; None; Some 1%nat; Some 0%nat] i)
                          [1; 2; 3; 4; 5])).
Proof.
  apply (@mean_pars_assigns_chunks (State example_heap None None)
           [Some 0%nat; None; Some 1%nat; Some 0%nat] [1; 2; 3; 4; 5]).
  - intros a [<-|[<-|[<-|[]]]]; simpl; lia.
  - reflexivity.
Defined.

(** A list of any other length fails the assertion: no object is
    written, [_mean_pars] keeps its value, and only [_mean_pars_size] has
    been refreshed by the getter. *)
Theorem mean_pars_wrong_length (st : state) (means : list (option address))
        (new_pars : vector) :
  length new_pars <> offset (objects st) means (length means) ->
  mean_pars st means new_pars
  = (State (objects st)
           (Some (offset (objects st) means (length means)))
           (_mean_pars st),
     Raise (AssertionError EmptyString)).
Proof.
  intros Hlen. unfold mean_pars, mean_pars_size, offset in *.
  rewrite firstn_all in *. apply Nat.eqb_neq in Hlen. rewrite Hlen.
  reflexivity.
Qed.

Lemma mean_pars_wrong_length_witness :
  mean_pars (State example_heap None (Some [7; 8; 9]))
            [Some 0%nat; Some 1%nat] [1; 2]
  = (State example_heap
           (Some (offset example_heap [Some 0%nat; Some 1%nat]
                         (length [Some 0%nat; Some 1%nat])))
           (Some [7; 8; 9]),
     Raise (AssertionError EmptyString)).
Proof.
  apply (@mean_pars_wrong_length (State example_heap None (Some [7; 8; 9]))
           [Some 0%nat; Some 1%nat] [1; 2]).
  vm_compute. lia.
Defined.

(** The assignment is not atomic.  When the first listed object holds
    an array shorter than its [_parsize], the call ends with
    [IndexError] after [_mean_pars] has been replaced and the entries
    that fit have been written. *)
Theorem mean_pars_short_array (st : state) (a : address)
        (rest : list (option address)) (new_pars : vector) :
  (length (pars (objects st a)) < _parsize (objects st a))%nat ->
  length new_pars
  = offset (objects st) (Some a :: rest) (length (Some a :: rest)) ->
  exists st',
    mean_pars st (Some a :: rest) new_pars
    = (st', Raise (IndexError "index out of bounds"))
    /\ _mean_pars st' = Some new_pars
    /\ pars (objects st' a)
       = firstn (length (pars (objects st a))) new_pars
    /\ (forall b, b <> a -> objects st' b = objects st b).
Proof.
  intros Hshort Hlen.
  unfold mean_pars, mean_pars_size. cbn [objects _mean_pars _mean_pars_size].
  assert (Hsize : fold_left (count (objects st)) (Some a :: rest) 0%nat
                  = length new_pars).
  { rewrite Hlen. unfold offset. rewrite firstn_all. reflexivity. }
  rewrite Hsize, Nat.eqb_refl. cbn [assign_all].
  cbn [fold_left] in Hsize. rewrite count_acc in Hsize.
  destruct (@fill_short a (_parsize (objects st a)) 0%nat (objects st)
              new_pars [] (pars (objects st a)))
    as [h' [Hrun [Hframe Ha]]];
    [reflexivity|reflexivity|exact Hshort|simpl in Hsize; lia|].
  rewrite Hrun.
  eexists. split; [reflexivity|]. cbn [objects _mean_pars].
  split; [reflexivity|]. split; [rewrite Ha; reflexivity|exact Hframe].
Qed.

Lemma mean_pars_short_array_witness :
  exists st',
    mean_pars (State short_heap None None) [Some 0%nat] [1; 2; 3]
    = (st', Raise (IndexError "index out of bounds"))
    /\ _mean_pars st' = Some [1; 2; 3]
    /\ pars (objects st' 0%nat)
       = firstn (length (pars (short_heap 0%nat))) [1; 2; 3]
    /\ (forall b, b <> 0%nat -> objects st' b = short_heap b).
Proof.
  apply (@mean_pars_short_array (State short_heap None None) 0%nat []
           [1; 2; 3]).
  - simpl. lia.
  - reflexivity.
Defined.

End MeanParsFacts.

(** ** The expected log-likelihood of the mean-field engine *)

Lemma sum_nonneg_entries (v : vector) :
  Forall (fun x => 0 <= x) v -> 0 <= sum v.
Proof.
  induction 1 as [|x v Hx _ IH]; [apply Qle_refl|].
  cbn [sum fold_right]. fold (sum v).
  replace 0 with (0 + 0) by reflexivity. apply Qplus_le_compat; assumption.
Qed.

Lemma square_nonneg (x : Q) : 0 <= x * x.
Proof.
  destruct (Qlt_le_dec x 0) as [Hneg|Hpos].
  - setoid_replace (x * x) with ((- x) * (- x)) by ring.
    apply Qmult_le_0_compat; apply (Qopp_le_compat x 0); apply Qlt_le_weak;
      exact Hneg.
  - apply Qmult_le_0_compat; exact Hpos.
Qed.

Lemma squares_nonneg (d Ydiff : array) :
  elementwise Qmult d d = Ok Ydiff ->
  Forall (fun x => 0 <= x) (as_vector Ydiff).
Proof.
  unfold elementwise, broadcast2.
  destruct (bdim (rows (view2 d)) (rows (view2 d))) as [r|]; [|discriminate].
  destruct (bdim (cols (view2 d)) (cols (view2 d))) as [c|]; [|discriminate].
  cbn [bind]. intros H. inversion H; subst Ydiff. clear H.
  set (f := fun i j : nat => _).
  assert (Hf : forall i j, 0 <= f i j) by (intros i j; apply square_nonneg).
  assert (Hrow : forall i, Forall (fun x => 0 <= x) (map (fun j => f i j) (seq 0 c))).
  { intros i. apply Forall_forall. intros x Hx.
    apply in_map_iff in Hx. destruct Hx as [j [<- _]]. apply Hf. }
  assert (Hall : Forall (Forall (fun x => 0 <= x)) (mx_tab r c f)).
  { unfold mx_tab. apply Forall_forall. intros row Hr.
    apply in_map_iff in Hr. destruct Hr as [i [<- _]]. apply Hrow. }
  destruct (Nat.max (ndim d) (ndim d)) as [|[|rank]]; cbn [of_view2 as_vector].
  - constructor; [|constructor]. unfold get.
    destruct (nth_in_or_default 0 (mx_tab r c f) []) as [Hin|Hd].
    + rewrite Forall_forall in Hall. specialize (Hall _ Hin).
      destruct (nth_in_or_default 0 (nth 0 (mx_tab r c f) []) 0) as [Hin'|Hd'].
      * rewrite Forall_forall in Hall. apply Hall. exact Hin'.
      * rewrite Hd'. apply Qle_refl.
    + rewrite Hd. apply Qle_refl.
  - destruct (mx_tab r c f) as [|row rest]; [constructor|].
    cbn [hd]. apply (Forall_inv Hall).
  - clear - Hall. induction Hall as [|row rest Hrow' _ IH]; [constructor|].
    cbn [concat]. apply Forall_app. split; assumption.
Qed.

(** Whenever [_expectedLogLike_new] returns, its value is at most zero:
    it is minus one half of a sum of squares. *)
Theorem expectedLogLike_nonpositive
        (sqrt : Q -> Q) (self : inference) (nodes weight : list kernel)
        (means : list mean_function) (jitters : vector)
        (sigma_f : list matrix) (mu_f : ndarray)
        (sigma_w : list (list matrix)) (mu_w : ndarray) (logl : Q) :
  Mfi_old._expectedLogLike_new sqrt self nodes weight means jitters
                               sigma_f mu_f sigma_w mu_w
  = Ok logl ->
  logl <= 0.
Proof.
  unfold Mfi_old._expectedLogLike_new. intros H.
  do 8 peel H.
  match type of H with
  | bind ?m _ = _ => destruct m as [Ydiff|] eqn:Hsq; cbn [bind] in H;
                     [|discriminate H]
  end.
  inversion H; subst logl. clear H.
  pose proof (sum_nonneg_entries (squares_nonneg _ Hsq)) as Hsum.
  unfold Mfi_old.error_term.
  setoid_replace (- (1 # 2) * sum (as_vector Ydiff) / 1)
    with (- ((1 # 2) * sum (as_vector Ydiff))) by field.
  apply (Qopp_le_compat 0).
  apply Qmult_le_0_compat; [discriminate|exact Hsum].
Qed.

Lemma expectedLogLike_nonpositive_witness : (-478 # 2) <= 0.
Proof.
  apply (@expectedLogLike_nonpositive sqrt_exact two_output_engine
           [rational_kernel 1] [rational_kernel 1]
           [None; Some (linear_mean 2 1)] [0; 0] []
           (NdArray [1%nat; 1%nat; 2%nat] [2; 3]) []
           (NdArray [2%nat; 1%nat; 2%nat] [3; 4; 5; 6]) (-478 # 2)).
  vm_compute. reflexivity.
Defined.

(** ** The loop of the mean-field engine, continued *)

Lemma mean_field_empty_budget_witness :
  snd (Mfi_old.EvidenceLowerBound
         sqrt_exact steady_update (constant_entropy (1 # 100000000000))
         zero_log_prior zero_draw zero_draw zero_seeded_draw
         noisy_engine [rational_kernel 1] [rational_kernel 1]
         [None] [4] [0] 0 true false)
  = Raise (UnboundLocalError "sum_ELB").
Proof.
  apply (@mean_field_empty_budget
           sqrt_exact steady_update (constant_entropy (1 # 100000000000))
           zero_log_prior zero_draw zero_draw zero_seeded_draw
           noisy_engine [rational_kernel 1] [rational_kernel 1]
           [None] [4] [0] 0 true false noisy_state0).
  - lia.
  - vm_compute. reflexivity.
Defined.

Lemma first_criteria (e : Q) :
  Mfi_old.stopping_criteria [0; e] e == (1 # 2) * Qabs e.
Proof.
  unfold Mfi_old.stopping_criteria, Mfi_old.last10, mean.
  cbn [length Nat.sub skipn sum fold_right].
  setoid_replace ((0 + (e + 0)) / inject_Z (Z.of_nat 2) - e)
    with ((- (1 # 2)) * e) by (cbn [Z.of_nat Pos.of_succ_nat Pos.succ]; field).
  rewrite Qabs_Qmult. reflexivity.
Qed.

(** The record of ELBO values is seeded with 0, so at the first
    iteration the stopping criterion is half the absolute value of the
    ELBO itself: the loop stops there exactly when the ELBO is non-zero
    and within 2e-10 of zero, and the call then returns that ELBO and
    reports 0 iterations. *)
Theorem mean_field_near_zero_stops_at_once
        (sqrt : Q -> Q)
        (_updateSigmaMu_new :
           inference -> list kernel -> list kernel -> list mean_function ->
           vector -> vector -> ndarray -> ndarray -> ndarray -> ndarray ->
           result (list matrix * ndarray * list (list matrix) * ndarray))
        (_entropy : inference -> list matrix -> list (list matrix) -> result Q)
        (_expectedLogPrior :
           inference -> list kernel -> list kernel -> list matrix -> ndarray ->
           list (list matrix) -> ndarray -> result Q)
        (randn rand : nat -> vector) (seeded_rand : Z -> nat -> vector)
        (self : inference) (nodes weight : list kernel)
        (means : list mean_function) (jitters time : vector)
        (iterations : Z) (prints plots : bool)
        (st0 st' : Mfi_old.mf_state) (out : list printed) (e : Q) :
  (0 < iterations)%Z ->
  Mfi_old.mf_init randn rand seeded_rand self = Ok st0 ->
  Mfi_old.mf_update sqrt _updateSigmaMu_new _entropy _expectedLogPrior
                    self nodes weight means jitters time prints st0
  = Ok (out, st', e) ->
  (Mfi_old.converged (Mfi_old.stopping_criteria (Mfi_old.ELB st') e) = true
   <-> ~ e == 0 /\ Qabs e < 2 # 10000000000)
  /\ (~ e == 0 -> Qabs e < 2 # 10000000000 ->
      Mfi_old.EvidenceLowerBound
        sqrt _updateSigmaMu_new _entropy _expectedLogPrior
        randn rand seeded_rand
        self nodes weight means jitters time iterations prints plots
      = (out ++ (if prints then [MsgConverged e 0] else [])
             ++ (if plots then [Plot (tl (Mfi_old.ELB st'))] else [])
             ++ [MsgIterations 0],
         Ok (e, Mfi_old.muF st', Mfi_old.muW st'))).
Proof.
  intros Hpos Hinit Hupd.
  destruct (@mf_init_record _ _ _ _ _ Hinit) as [HELB0 _].
  destruct (@mf_update_records _ _ _ _ _ _ _ _ _ _ _ _ _ _ _ Hupd)
    as [Hsum HELB].
  rewrite HELB0 in HELB. cbn [app] in HELB.
  assert (Hiff : Mfi_old.converged
                   (Mfi_old.stopping_criteria (Mfi_old.ELB st') e) = true
                 <-> ~ e == 0 /\ Qabs e < 2 # 10000000000).
  { rewrite converged_iff, HELB, first_criteria.
    pose proof (Qabs_nonneg e) as Hnn.
    split.
    - intros [Hlt Hne]. split.
      + intros He. apply Hne. rewrite He. reflexivity.
      + lra.
    - intros [Hne Hlt]. split; [lra|].
      intros Hz. apply Hne.
      pose proof (Qle_Qabs e) as Hle.
      pose proof (Qle_Qabs (- e)) as Hle'. rewrite Qabs_opp in Hle'.
      lra. }
  split; [exact Hiff|].
  intros Hne Hlt.
  unfold Mfi_old.EvidenceLowerBound. rewrite Hinit.
  destruct (Z.to_nat iterations) as [|remaining] eqn:Hrem; [lia|].
  cbn [Mfi_old.mf_while]. rewrite Hupd.
  rewrite (proj2 Hiff (conj Hne Hlt)).
  unfold Mfi_old.mf_return. rewrite Hsum. reflexivity.
Qed.

Lemma mean_field_near_zero_stops_at_once_witness :
  (Mfi_old.converged
     (Mfi_old.stopping_criteria (Mfi_old.ELB noisy_state1) noisy_elbo) = true
   <-> ~ noisy_elbo == 0 /\ Qabs noisy_elbo < 2 # 10000000000)
  /\ (~ noisy_elbo == 0 -> Qabs noisy_elbo < 2 # 10000000000 ->
      Mfi_old.EvidenceLowerBound
        sqrt_exact steady_update (constant_entropy (1 # 100000000000))
        zero_log_prior zero_draw zero_draw zero_seeded_draw
        noisy_engine [rational_kernel 1] [rational_kernel 1]
        [None] [4] [0] 3 true false
      = ([MsgELB noisy_elbo (0 # 2) 0 (1 # 100000000000)]
           ++ (if true then [MsgConverged noisy_elbo 0] else [])
           ++ (if false then [Plot (tl (Mfi_old.ELB noisy_state1))] else [])
           ++ [MsgIterations 0],
         Ok (noisy_elbo, Mfi_old.muF noisy_state1, Mfi_old.muW noisy_state1))).
Proof.
  apply (@mean_field_near_zero_stops_at_once
           sqrt_exact steady_update (constant_entropy (1 # 100000000000))
           zero_log_prior zero_draw zero_draw zero_seeded_draw
           noisy_engine [rational_kernel 1] [rational_kernel 1]
           [None] [4] [0] 3 true false noisy_state0 noisy_state1
           [MsgELB noisy_elbo (0 # 2) 0 (1 # 100000000000)] noisy_elbo).
  - lia.
  - vm_compute. reflexivity.
  - vm_compute. reflexivity.
Defined.

(** ** The initial variational parameters of the mean-field engine *)

(** On an engine whose [self.N] is the number of its times, and with
    draws of the requested length, the statements before the loop cannot
    fail; the loop starts from the draws made after seeding with 100
    (means) and 200 (variances), split into node and weight parts, and
    the two unseeded draws are discarded. *)
Theorem mf_init_uses_seeded_draws
        (randn rand : nat -> vector) (seeded_rand : Z -> nat -> vector)
        (self : inference) :
  Self.N self = length (Self.time self) ->
  (forall D, length (randn D) = D) ->
  (forall D, length (rand D) = D) ->
  (forall seed D, length (seeded_rand seed D) = D) ->
  Mfi_old.mf_init randn rand seeded_rand self
  = Ok (Mfi_old.MfState
          (NdArray [1%nat; Self.q self; Self.N self]
             (firstn (Self.q self * Self.N self)
                (seeded_rand 100%Z
                   (length (Self.time self) * Self.q self * (Self.p self + 1))%nat)))
          (NdArray [1%nat; Self.q self; Self.N self]
             (firstn (Self.q self * Self.N self)
                (seeded_rand 200%Z
                   (length (Self.time self) * Self.q self * (Self.p self + 1))%nat)))
          (NdArray [Self.p self; Self.q self; Self.N self]
             (skipn (Self.q self * Self.N self)
                (seeded_rand 100%Z
                   (length (Self.time self) * Self.q self * (Self.p self + 1))%nat)))
          (NdArray [Self.p self; Self.q self; Self.N self]
             (skipn (Self.q self * Self.N self)
                (seeded_rand 200%Z
                   (length (Self.time self) * Self.q self * (Self.p self + 1))%nat)))
          [0] None).
Proof.
  intros HN Hrandn Hrand Hseeded. unfold Mfi_old.mf_init.
  assert (HD : forall u : vector,
             length u = (length (Self.time self) * Self.q self
                         * (Self.p self + 1))%nat ->
             length u = (Self.q self * Self.N self * (Self.p self + 1))%nat).
  { intros u Hu. rewrite Hu, HN. lia. }
  rewrite (fhat_and_w_value self _ (HD _ (Hrandn _))). cbn [bind].
  rewrite (fhat_and_w_value self _ (HD _ (Hrand _))). cbn [bind].
  rewrite (fhat_and_w_value self _ (HD _ (Hseeded _ _))). cbn [bind].
  rewrite (fhat_and_w_value self _ (HD _ (Hseeded _ _))). cbn [bind].
  reflexivity.
Qed.

Lemma mf_init_uses_seeded_draws_witness :
  Mfi_old.mf_init zero_draw zero_draw zero_seeded_draw example_engine
  = Ok (Mfi_old.MfState
          (NdArray [1%nat; Self.q example_engine; Self.N example_engine]
             (firstn (Self.q example_engine * Self.N example_engine)
                (zero_seeded_draw 100%Z
                   (length (Self.time example_engine) * Self.q example_engine
                    * (Self.p example_engine + 1))%nat)))
          (NdArray [1%nat; Self.q example_engine; Self.N example_engine]
             (firstn (Self.q example_engine * Self.N example_engine)
                (zero_seeded_draw 200%Z
                   (length (Self.time example_engine) * Self.q example_engine
                    * (Self.p example_engine + 1))%nat)))
          (NdArray [Self.p example_engine; Self.q example_engine;
                    Self.N example_engine]
             (skipn (Self.q example_engine * Self.N example_engine)
                (zero_seeded_draw 100%Z
                   (length (Self.time example_engine) * Self.q example_engine
                    * (Self.p example_engine + 1))%nat)))
          (NdArray [Self.p example_engine; Self.q example_engine;
                    Self.N example_engine]
             (skipn (Self.q example_engine * Self.N example_engine)
                (zero_seeded_draw 200%Z
                   (length (Self.time example_engine) * Self.q example_engine
                    * (Self.p example_engine + 1))%nat)))
          [0] None).
Proof.
  apply (@mf_init_uses_seeded_draws zero_draw zero_draw zero_seeded_draw
           example_engine).
  - reflexivity.
  - intros D. apply repeat_length.
  - intros D. apply repeat_length.
  - intros seed D. apply repeat_length.
Defined.

(** The two-output stand-in is what the constructor builds. *)
Lemma two_output_engine_constructed :
  __init__ [rational_kernel 1] (rational_kernel 2) [None; None] [0; 0]
           example_time two_output_args
  = Ok two_output_engine.
Proof. vm_compute. reflexivity. Qed.
